(** * kube-apiserver-lb: a TCP load balancer in front of kube-apiservers

    The repository holds successive revisions of one Go program, [main.go].
    Three of them are embedded here in full, each in a module of its own:

    - [Plain]  : src/main.go               (configuration file, no lock)
    - [Locked] : src/unnamed/part_002      (healthy servers behind a RWMutex)
    - [Chan]   : src/unnamed/part_001, second file
                                           (healthy servers sent on a channel)

    The two other revisions, src/unnamed/part_000 and the first file of
    src/unnamed/part_001, have the selection, the accept loop and the
    forwarding of src/main.go; they differ in where the configuration comes
    from and in the client and the logging of the monitor. Their monitor and
    the load balancer their [main] builds are embedded in [Fixed] and
    [Timed].

    Go's [int] is taken at its 64-bit width, with wrap-around on [+=].
    A goroutine is run as a computation in the monad [M]: it threads the
    load balancer value, records what it does in a trace of [event]s and
    ends in an [outcome].  What the network answers (accept, dial, HTTP
    probes, copy and close results) is an input of the functions. *)

From Stdlib Require Import ZArith List String DecimalString Bool Lia Permutation.
Import ListNotations.
Open Scope string_scope.
Open Scope Z_scope.
Open Scope list_scope.

(** ** Go integers and slices *)

Definition int_min : Z := - 2 ^ 63.
Definition int_max : Z := 2 ^ 63 - 1.

(** Two's complement wrap-around of a 64-bit signed integer. *)
Definition wrap (z : Z) : Z := (z + 2 ^ 63) mod 2 ^ 64 - 2 ^ 63.

(** [a + b] on [int]. *)
Definition int_add (a b : Z) : Z := wrap (a + b).

(** The decimal writing of an integer, as the verb [%d] prints it. *)
Definition itoa (z : Z) : string := NilZero.string_of_int (Z.to_int z).

(** [len(s)]. *)
Definition len {A : Type} (s : list A) : Z := Z.of_nat (List.length s).

(** ** Errors, connections, HTTP *)

(** [errors.New(msg)], or an error handed back by the net or http package. *)
Inductive error : Type :=
| errorsNew (msg : string)
| netError (msg : string).

Definition errorString (e : error) : string :=
  match e with errorsNew m => m | netError m => m end.

(** A non-nil [net.Conn]. *)
Definition conn : Type := nat.

(** [tls.Config], [http.Transport], [http.Client]: the fields the program sets.
    [Timeout] is a [time.Duration], in nanoseconds. *)
Record tls_Config : Type := { InsecureSkipVerify : bool }.
Record http_Transport : Type := { TLSClientConfig : option tls_Config }.
Record http_Client : Type := { Transport : option http_Transport; Timeout : Z }.

Definition Second : Z := 1000000000.

(** [http.DefaultClient], the zero [http.Client], which [http.Get] uses. *)
Definition DefaultClient : http_Client := {| Transport := None; Timeout := 0 |}.

(** Whether requests of a client skip certificate validation: a nil transport
    or a nil TLS configuration validates. *)
Definition skipsCertValidation (c : http_Client) : bool :=
  match Transport c with
  | Some tr =>
      match TLSClientConfig tr with
      | Some cfg => InsecureSkipVerify cfg
      | None => false
      end
  | None => false
  end.

(** Whether requests of a client are bounded in time: a [Timeout] of zero
    means no timeout. *)
Definition enforcesTimeout (c : http_Client) : bool := 0 <? Timeout c.

(** What [client.Get(url)] returns: an error, or a response with its
    [StatusCode]. *)
Inductive httpResult : Type :=
| httpErr (err : error)
| httpResp (StatusCode : Z).

(** What [listener.Accept()] returns. *)
Inductive acceptResult : Type :=
| acceptErr (err : error)
| acceptOk (localConn : conn).

(** What [net.Dial("tcp", remote)] returns. *)
Inductive dialResult : Type :=
| dialErr (err : error)
| dialOk (remoteConn : conn).

(** What [net.Listen("tcp", lb.Local)] returns. *)
Inductive listenResult : Type :=
| listenErr (err : error)
| listenOk.

Record HealthCheck : Type :=
  { Period : Z; UpThreshold : Z; DownThreshold : Z }.

(** ** Traces and outcomes *)

(** The goroutines the program starts with [go]. A connection received from a
    channel may be nil ([None]). *)
Inductive goroutine : Type :=
| goStartHealthChecks
| goAcceptAsChan
| goForward (localConn : option conn) (remoteConn : conn)
| goCopyConn (writer reader : conn).

Inductive event : Type :=
| EvCall (fn : string)                        (* entry of a selector *)
| EvReturn (fn : string) (err : option error) (* its return, with its error *)
| EvLog (format : string) (args : list string) (* log.Printf, log.Println *)
| EvFatal (format : string) (args : list string) (* log.Fatalf, before os.Exit(1) *)
| EvRem (a b : Z)                             (* a % b is evaluated *)
| EvIndex (i n : Z)                           (* s[i] is read, len(s) = n *)
| EvIncr                                      (* lb.rrCounter += 1 *)
| EvRLock | EvRUnlock | EvLock | EvUnlock
| EvHttpGet (client : http_Client) (url : string)
| EvSleep (d : Z)
| EvDial (remote : string)
| EvGo (g : goroutine)
| EvCopy (writer reader : conn)               (* io.Copy(writer, reader) *)
| EvClose (c : conn)                          (* c.Close() *)
| EvListenerClose.

Inductive panic : Type :=
| divideByZero
| indexOutOfRange (i n : Z)
| unlockOfUnlocked.

Inductive waiting : Type :=
| onLock        (* parked in Lock or RLock *)
| onAccept      (* parked in listener.Accept() *)
| onSelect      (* parked in select *)
| onSleep.      (* parked in time.Sleep *)

(** How a run of a goroutine stands: it returned [a], it panicked, the
    process exited ([os.Exit]), or it is parked. *)
Inductive outcome (A : Type) : Type :=
| Done (a : A)
| Panicked (p : panic)
| Exited (code : Z)
| Parked (w : waiting).
Arguments Done {A} a.
Arguments Panicked {A} p.
Arguments Exited {A} code.
Arguments Parked {A} w.

(** ** The monad of goroutine runs *)

Definition M (St A : Type) : Type := St -> list event * St * outcome A.

Definition ret {St A : Type} (a : A) : M St A := fun s => ([], s, Done a).

Definition bind {St A B : Type} (m : M St A) (k : A -> M St B) : M St B :=
  fun s =>
    match m s with
    | (t, s', Done a) =>
        match k a s' with
        | (t', s'', o) => (t ++ t', s'', o)
        end
    | (t, s', Panicked p) => (t, s', Panicked p)
    | (t, s', Exited c) => (t, s', Exited c)
    | (t, s', Parked w) => (t, s', Parked w)
    end.

Declare Scope go_scope.
Delimit Scope go_scope with go.
Notation "x <- m ;; k" := (bind m (fun x => k))
  (at level 100, m at next level, right associativity) : go_scope.
Notation "' pat <- m ;; k" := (bind m (fun x => match x with pat => k end))
  (at level 100, pat pattern, m at next level, right associativity) : go_scope.
Notation "m ;; k" := (bind m (fun _ => k))
  (at level 100, right associativity) : go_scope.
Open Scope go_scope.

Definition emit {St : Type} (e : event) : M St unit := fun s => ([e], s, Done tt).
Definition gets {St A : Type} (f : St -> A) : M St A := fun s => ([], s, Done (f s)).
Definition modify {St : Type} (f : St -> St) : M St unit := fun s => ([], f s, Done tt).
Definition throw {St A : Type} (p : panic) : M St A := fun s => ([], s, Panicked p).
Definition exit {St A : Type} (code : Z) : M St A := fun s => ([], s, Exited code).
Definition park {St A : Type} (w : waiting) : M St A := fun s => ([], s, Parked w).

Definition traceOf {St A : Type} (r : list event * St * outcome A) : list event :=
  fst (fst r).
Definition stateOf {St A : Type} (r : list event * St * outcome A) : St :=
  snd (fst r).
Definition outcomeOf {St A : Type} (r : list event * St * outcome A) : outcome A :=
  snd r.

(** [a % b]: truncated remainder, run-time panic when [b] is zero. *)
Definition rem {St : Type} (a b : Z) : M St Z :=
  emit (EvRem a b) ;;
  if b =? 0 then throw divideByZero else ret (Z.rem a b).

(** [s[i]]: run-time panic when [i] is out of range. *)
Definition index {St : Type} (s : list string) (i : Z) : M St string :=
  emit (EvIndex i (len s)) ;;
  if (i <? 0) || (len s <=? i) then throw (indexOutOfRange i (len s))
  else match nth_error s (Z.to_nat i) with
       | Some x => ret x
       | None => throw (indexOutOfRange i (len s))
       end.

Definition logPrintf {St : Type} (format : string) (args : list string)
  : M St unit :=
  emit (EvLog format args).

(** [log.Fatalf]: prints, then calls [os.Exit(1)]. *)
Definition logFatalf {St A : Type} (format : string) (args : list string)
  : M St A :=
  emit (EvFatal format args) ;; exit 1.

(** A selector, with its call and its return recorded. *)
Definition traced {St : Type} (fn : string) (body : M St (string * option error))
  : M St (string * option error) :=
  emit (EvCall fn) ;;
  r <- body ;;
  emit (EvReturn fn (snd r)) ;;
  ret r.

(** [fmt.Sprintf("https://%s/healthz", server)]. *)
Definition healthzUrl (server : string) : string :=
  ("https://" ++ server ++ "/healthz")%string.

(** The two selection errors. *)
Definition NoHealthyBackends : error := errorsNew "no remote servers are Healthy".
Definition NoBackendsConfigured : error := errorsNew "no remote servers".

(** ** Loops shared by the revisions *)

(** The [for _, server := range ...] loop of [removeHealthyRemote]:
    [newHealthyServers] grows by [append] with every server that differs
    from [remote]. *)
Fixpoint rangeRemove (servers : list string) (remote : string)
  (newHealthyServers : list string) : list string :=
  match servers with
  | [] => newHealthyServers
  | server :: rest =>
      if negb (String.eqb server remote)
      then rangeRemove rest remote (newHealthyServers ++ [server])
      else rangeRemove rest remote newHealthyServers
  end.

(** The test [err == nil && resp.StatusCode == 200] of [startHealthChecks]. *)
Definition healthy (r : httpResult) : bool :=
  match r with
  | httpErr _ => false
  | httpResp StatusCode => StatusCode =? 200
  end.

(** The [for _, server := range lb.RemoteServers] loop of [startHealthChecks].
    [get i] is the answer to the [i]-th request of the tick, [client] the
    client the request is issued with, [otherwise] the else branch of the
    test. *)
Fixpoint rangeProbe {St : Type} (client : http_Client) (get : nat -> httpResult)
  (otherwise : string -> httpResult -> M St unit)
  (i : nat) (servers : list string) (newHealthyServers : list string)
  : M St (list string) :=
  match servers with
  | [] => ret newHealthyServers
  | server :: rest =>
      emit (EvHttpGet client (healthzUrl server)) ;;
      if healthy (get i)
      then rangeProbe client get otherwise (S i) rest (newHealthyServers ++ [server])
      else otherwise server (get i) ;;
           rangeProbe client get otherwise (S i) rest newHealthyServers
  end.

(** The else branch of the later revisions: the server is logged. *)
Definition logUnhealthy {St : Type} (server : string) (r : httpResult) : M St unit :=
  let errStr :=
    match r with
    | httpErr err => errorString err
    | httpResp StatusCode => ("HTTP status code : " ++ itoa StatusCode)%string
    end in
  logPrintf "kube-apiserver %s is not healthy : %s" [server; errStr].

(** The configuration file, as [readConfiguration] returns it. *)
Record Configuration : Type :=
  { KubeApiServers : list string;
    ListenAddr : string;
    HealthCheckRules : HealthCheck }.

(** The client [main] builds in the later revisions. *)
Definition client : http_Client :=
  {| Transport :=
       Some {| TLSClientConfig := Some {| InsecureSkipVerify := true |} |};
     Timeout := 5 * Second |}.

(** ** src/main.go *)

Module Plain.

Record apiServerLb : Type :=
  { Local : string;
    RemoteServers : list string;
    HealthyServers : list string;
    rrCounter : Z;
    healthCheckRules : HealthCheck }.

Definition set_HealthyServers (servers : list string) (lb : apiServerLb)
  : apiServerLb :=
  {| Local := Local lb;
     RemoteServers := RemoteServers lb;
     HealthyServers := servers;
     rrCounter := rrCounter lb;
     healthCheckRules := healthCheckRules lb |}.

(** One turn of the [for] loop of [startHealthChecks]. The probe is
    [http.Get], that is [http.DefaultClient.Get]; a server that fails the
    test is passed over in silence. *)
Definition healthCheckTick (get : nat -> httpResult) : M apiServerLb unit :=
  servers <- gets RemoteServers ;;
  newHealthyServers <-
    rangeProbe DefaultClient get (fun _ _ => ret tt) 0 servers [] ;;
  modify (set_HealthyServers newHealthyServers) ;;
  rules <- gets healthCheckRules ;;
  emit (EvSleep (wrap (Period rules * Second))).

(** [startHealthChecks], over the answers of as many ticks as are given; the
    loop has no exit. *)
Fixpoint startHealthChecks (ticks : list (nat -> httpResult))
  : M apiServerLb unit :=
  match ticks with
  | [] => park onSleep
  | get :: rest => healthCheckTick get ;; startHealthChecks rest
  end.

Definition chooseRemote : M apiServerLb (string * option error) :=
  traced "chooseRemote"
    (servers <- gets HealthyServers ;;
     let numberOfHealthyRemotes := len servers in
     if numberOfHealthyRemotes =? 0
     then ret ("", Some (errorsNew "No remote servers are Healthy"))
     else
       counter <- gets rrCounter ;;
       picked <- rem counter numberOfHealthyRemotes ;;
       servers <- gets HealthyServers ;;
       remote <- index servers picked ;;
       ret (remote, None)).

(** The closure [copyConn] of [forward]. [copyRes] is what [io.Copy] returns,
    [closeRes c] what [c.Close()] returns. *)
Definition copyConn {St : Type} (copyRes : option error)
  (closeRes : conn -> option error) (writer reader : conn) : M St unit :=
  emit (EvCopy writer reader) ;;
  match copyRes with
  | Some err => logFatalf "io.Copy error: %s" [errorString err]
  | None => ret tt
  end ;;
  emit (EvClose writer) ;;
  match closeRes writer with
  | Some err => logFatalf "writer.Close error: %s" [errorString err]
  | None => ret tt
  end.

Definition forward {St : Type} (localConn remoteConn : conn) : M St unit :=
  emit (EvGo (goCopyConn localConn remoteConn)) ;;
  emit (EvGo (goCopyConn remoteConn localConn)).

(** The body of the accept loop of [Start] after a successful accept. *)
Definition handleConn (localConn : conn) (dial : string -> dialResult)
  : M apiServerLb unit :=
  '(remote, err) <- chooseRemote ;;
  match err with
  | Some e => logPrintf "Error trying to forward: %s\n" [errorString e]
  | None =>
      emit (EvDial remote) ;;
      match dial remote with
      | dialErr e => logPrintf "Error trying to forward: %s\n" [errorString e]
      | dialOk remoteConn => emit (EvGo (goForward (Some localConn) remoteConn))
      end
  end.

(** The accept loop of [Start], over as many accepts as are given, each with
    the answers of the dialer at that time. *)
Fixpoint acceptLoop (inputs : list (acceptResult * (string -> dialResult)))
  : M apiServerLb (option error) :=
  match inputs with
  | [] => park onAccept
  | (acceptErr err, _) :: _ =>
      logPrintf "Error accepting connections in lb : %s" [errorString err] ;;
      ret (Some err)
  | (acceptOk localConn, dial) :: rest =>
      handleConn localConn dial ;;
      acceptLoop rest
  end.

(** [Start]. The monitor it starts with [go lb.startHealthChecks()] is an
    event of the trace here; the turns of the monitor beside those of the
    accept loop are the schedules of [serve] below. *)
Definition Start (listen : listenResult)
  (inputs : list (acceptResult * (string -> dialResult)))
  : M apiServerLb (option error) :=
  emit (EvGo goStartHealthChecks) ;;
  match listen with
  | listenErr err => ret (Some err)
  | listenOk =>
      r <- acceptLoop inputs ;;
      emit EvListenerClose ;;
      ret r
  end.

(** The load balancer [main] builds. *)
Definition newLb (config : Configuration) : apiServerLb :=
  {| Local := ListenAddr config;
     RemoteServers := KubeApiServers config;
     HealthyServers := [];
     rrCounter := 1;
     healthCheckRules := HealthCheckRules config |}.

(** *** The two loops of [Start] side by side *)

(** [chooseRemote] when the monitor publishes between its two reads of
    [lb.HealthyServers], which nothing orders: the length is that of the
    slice before the publication, the element is read from the slice after
    it. Each read takes the slice whole. *)
Definition chooseRemoteAcross (get : nat -> httpResult)
  : M apiServerLb (string * option error) :=
  traced "chooseRemote"
    (servers <- gets HealthyServers ;;
     let numberOfHealthyRemotes := len servers in
     healthCheckTick get ;;
     if numberOfHealthyRemotes =? 0
     then ret ("", Some (errorsNew "No remote servers are Healthy"))
     else
       counter <- gets rrCounter ;;
       picked <- rem counter numberOfHealthyRemotes ;;
       servers <- gets HealthyServers ;;
       remote <- index servers picked ;;
       ret (remote, None)).

(** The body of the accept loop with that selection. *)
Definition handleConnAcross (get : nat -> httpResult) (localConn : conn)
  (dial : string -> dialResult) : M apiServerLb unit :=
  '(remote, err) <- chooseRemoteAcross get ;;
  match err with
  | Some e => logPrintf "Error trying to forward: %s\n" [errorString e]
  | None =>
      emit (EvDial remote) ;;
      match dial remote with
      | dialErr e => logPrintf "Error trying to forward: %s\n" [errorString e]
      | dialOk remoteConn => emit (EvGo (goForward (Some localConn) remoteConn))
      end
  end.

(** What the two goroutines do in turn once [Start] has started the monitor
    with [go lb.startHealthChecks()] and bound the listener: the monitor goes
    once round its loop, or the accept loop handles one connection, with or
    without a publication of the monitor inside its selection. *)
Inductive turn : Type :=
| monitorTurn (get : nat -> httpResult)
| acceptTurn (localConn : conn) (dial : string -> dialResult)
| acceptTurnAcross (get : nat -> httpResult) (localConn : conn)
    (dial : string -> dialResult).

Definition runTurn (t : turn) : M apiServerLb unit :=
  match t with
  | monitorTurn get => healthCheckTick get
  | acceptTurn localConn dial => handleConn localConn dial
  | acceptTurnAcross get localConn dial => handleConnAcross get localConn dial
  end.

(** The run of the two loops on a schedule of turns, up to the end of the
    schedule. A panic of either goroutine ends the process, and the run. *)
Fixpoint serve (schedule : list turn) : M apiServerLb unit :=
  match schedule with
  | [] => ret tt
  | t :: rest => runTurn t ;; serve rest
  end.

(** The answers to the probes of the turns in which the monitor publishes. *)
Fixpoint publications (schedule : list turn) : list (nat -> httpResult) :=
  match schedule with
  | [] => []
  | monitorTurn get :: rest => get :: publications rest
  | acceptTurn _ _ :: rest => publications rest
  | acceptTurnAcross get _ _ :: rest => get :: publications rest
  end.

End Plain.

(** ** src/unnamed/part_002: the healthy servers behind a lock *)

Module Locked.

(** [sync.RWMutex]: the number of readers that hold it, whether a writer
    holds it, and whether a writer waits for the readers to leave. A call of
    [RLock] that comes after a call of [Lock] waits behind it. A parked
    goroutine is not resumed by the model. *)
Record RWMutex : Type :=
  { readers : nat; writer : bool; writerPending : bool }.

Record apiServerLb : Type :=
  { Local : string;
    RemoteServers : list string;
    HealthyServers : list string;
    HealthyServersLock : RWMutex;
    rrCounter : Z;
    healthCheckRules : HealthCheck;
    httpClient : http_Client }.

Definition set_HealthyServers (servers : list string) (lb : apiServerLb)
  : apiServerLb :=
  {| Local := Local lb;
     RemoteServers := RemoteServers lb;
     HealthyServers := servers;
     HealthyServersLock := HealthyServersLock lb;
     rrCounter := rrCounter lb;
     healthCheckRules := healthCheckRules lb;
     httpClient := httpClient lb |}.

Definition set_HealthyServersLock (l : RWMutex) (lb : apiServerLb)
  : apiServerLb :=
  {| Local := Local lb;
     RemoteServers := RemoteServers lb;
     HealthyServers := HealthyServers lb;
     HealthyServersLock := l;
     rrCounter := rrCounter lb;
     healthCheckRules := healthCheckRules lb;
     httpClient := httpClient lb |}.

(** [lb.HealthyServersLock.RLock()]: waits while a writer holds the lock or
    waits for it. *)
Definition RLock : M apiServerLb unit :=
  l <- gets HealthyServersLock ;;
  if writer l || writerPending l then park onLock
  else
    emit EvRLock ;;
    modify (set_HealthyServersLock
              {| readers := S (readers l); writer := false; writerPending := false |}).

(** [lb.HealthyServersLock.RUnlock()]. *)
Definition RUnlock : M apiServerLb unit :=
  l <- gets HealthyServersLock ;;
  match readers l with
  | O => throw unlockOfUnlocked
  | S n =>
      emit EvRUnlock ;;
      modify (set_HealthyServersLock
                {| readers := n; writer := writer l; writerPending := writerPending l |})
  end.

(** [lb.HealthyServersLock.Lock()]: waits behind another writer; announces
    itself and waits while readers hold the lock. *)
Definition Lock : M apiServerLb unit :=
  l <- gets HealthyServersLock ;;
  if writer l || writerPending l then park onLock
  else if negb (Nat.eqb (readers l) 0)
  then modify (set_HealthyServersLock
                 {| readers := readers l; writer := false; writerPending := true |}) ;;
       park onLock
  else
    emit EvLock ;;
    modify (set_HealthyServersLock
              {| readers := 0; writer := true; writerPending := false |}).

(** [lb.HealthyServersLock.Unlock()]. *)
Definition Unlock : M apiServerLb unit :=
  l <- gets HealthyServersLock ;;
  if writer l
  then emit EvUnlock ;;
       modify (set_HealthyServersLock
                 {| readers := readers l; writer := false;
                    writerPending := writerPending l |})
  else throw unlockOfUnlocked.

(** One turn of the [for] loop of [startHealthChecks]. *)
Definition healthCheckTick (get : nat -> httpResult) : M apiServerLb unit :=
  servers <- gets RemoteServers ;;
  c <- gets httpClient ;;
  newHealthyServers <- rangeProbe c get logUnhealthy 0 servers [] ;;
  Lock ;;
  modify (set_HealthyServers newHealthyServers) ;;
  Unlock ;;
  rules <- gets healthCheckRules ;;
  emit (EvSleep (wrap (Period rules * Second))).

Fixpoint startHealthChecks (ticks : list (nat -> httpResult))
  : M apiServerLb unit :=
  match ticks with
  | [] => park onSleep
  | get :: rest => healthCheckTick get ;; startHealthChecks rest
  end.

(** [chooseRemote]: the return of the empty case comes before [RUnlock]. *)
Definition chooseRemote : M apiServerLb (string * option error) :=
  traced "chooseRemote"
    (RLock ;;
     servers <- gets HealthyServers ;;
     let numberOfHealthyRemotes := len servers in
     if numberOfHealthyRemotes =? 0
     then ret ("", Some NoHealthyBackends)
     else
       counter <- gets rrCounter ;;
       pickedIdx <- rem counter numberOfHealthyRemotes ;;
       servers <- gets HealthyServers ;;
       picked <- index servers pickedIdx ;;
       RUnlock ;;
       ret (picked, None)).

Definition removeHealthyRemote (remote : string) : M apiServerLb unit :=
  Lock ;;
  servers <- gets HealthyServers ;;
  let newHealthyServers := rangeRemove servers remote [] in
  modify (set_HealthyServers newHealthyServers) ;;
  Unlock.

Definition CloseAndLog {St : Type} (closeRes : conn -> option error) (c : conn)
  : M St unit :=
  emit (EvClose c) ;;
  match closeRes c with
  | Some err => logPrintf "Error closing socket: %s" [errorString err]
  | None => ret tt
  end.

(** The closure [copyConn] of [forward]; the two deferred calls run when the
    body is over, the last deferred first. *)
Definition copyConn {St : Type} (copyRes : option error)
  (closeRes : conn -> option error) (writer reader : conn) : M St unit :=
  emit (EvCopy writer reader) ;;
  match copyRes with
  | Some err => logPrintf "io.Copy error: %s" [errorString err]
  | None => ret tt
  end ;;
  CloseAndLog closeRes reader ;;
  CloseAndLog closeRes writer.

Definition forward {St : Type} (localConn remoteConn : conn) : M St unit :=
  emit (EvGo (goCopyConn localConn remoteConn)) ;;
  emit (EvGo (goCopyConn remoteConn localConn)).

(** The body of the accept loop of [Start] after a successful accept. *)
Definition handleConn (localConn : conn) (dial : string -> dialResult)
  : M apiServerLb unit :=
  '(remote, err) <- chooseRemote ;;
  match err with
  | Some e => logPrintf "Error trying to forward: %s\n" [errorString e]
  | None =>
      emit (EvDial remote) ;;
      match dial remote with
      | dialErr e =>
          logPrintf "Error trying to forward: %s\n" [errorString e] ;;
          removeHealthyRemote remote
      | dialOk remoteConn => emit (EvGo (goForward (Some localConn) remoteConn))
      end
  end.

Fixpoint acceptLoop (inputs : list (acceptResult * (string -> dialResult)))
  : M apiServerLb (option error) :=
  match inputs with
  | [] => park onAccept
  | (acceptErr err, _) :: _ =>
      logPrintf "Error accepting connections in lb : %s" [errorString err] ;;
      ret (Some err)
  | (acceptOk localConn, dial) :: rest =>
      handleConn localConn dial ;;
      acceptLoop rest
  end.

(** [Start]. The monitor it starts is an event of the trace here; the
    turns of the monitor beside those of the accept loop are the steps of
    [step] and the schedules of [serve] below. *)
Definition Start (listen : listenResult)
  (inputs : list (acceptResult * (string -> dialResult)))
  : M apiServerLb (option error) :=
  emit (EvGo goStartHealthChecks) ;;
  match listen with
  | listenErr err => ret (Some err)
  | listenOk =>
      r <- acceptLoop inputs ;;
      emit EvListenerClose ;;
      ret r
  end.

(** The load balancer [main] builds. *)
Definition newLb (config : Configuration) : apiServerLb :=
  {| Local := ListenAddr config;
     RemoteServers := KubeApiServers config;
     HealthyServers := [];
     HealthyServersLock := {| readers := 0; writer := false; writerPending := false |};
     rrCounter := 1;
     healthCheckRules := HealthCheckRules config;
     httpClient := client |}.

(** What the goroutines of one instance can do to the load balancer: the
    monitor publishes once, or the acceptor handles one connection (which
    holds the calls of [chooseRemote] and [removeHealthyRemote]); the two
    functions are also steps of their own. *)
Inductive step (lb : apiServerLb) : apiServerLb -> Prop :=
| step_tick (get : nat -> httpResult) :
    step lb (stateOf (healthCheckTick get lb))
| step_conn (localConn : conn) (dial : string -> dialResult) :
    step lb (stateOf (handleConn localConn dial lb))
| step_choose :
    step lb (stateOf (chooseRemote lb))
| step_remove (remote : string) :
    step lb (stateOf (removeHealthyRemote remote lb)).

Inductive reachable (config : Configuration) : apiServerLb -> Prop :=
| reach_new : reachable config (newLb config)
| reach_step (lb lb' : apiServerLb) :
    reachable config lb -> step lb lb' -> reachable config lb'.

(** *** The two loops of [Start] side by side *)

(** The body of the accept loop up to the dial: what is left of it, after a
    dial that failed, is the call of [removeHealthyRemote]. *)
Definition selectAndDial (localConn : conn) (dial : string -> dialResult)
  : M apiServerLb unit :=
  '(remote, err) <- chooseRemote ;;
  match err with
  | Some e => logPrintf "Error trying to forward: %s\n" [errorString e]
  | None =>
      emit (EvDial remote) ;;
      match dial remote with
      | dialErr e => logPrintf "Error trying to forward: %s\n" [errorString e]
      | dialOk remoteConn => emit (EvGo (goForward (Some localConn) remoteConn))
      end
  end.

(** What the two goroutines do in turn once [Start] has started the monitor
    and bound the listener. The lock makes a publication, a selection and a
    removal indivisible; the monitor may publish between the dial of a
    connection and the removal that follows its failure, so the two halves
    of the body of the accept loop are turns of their own as well. *)
Inductive turn : Type :=
| monitorTurn (get : nat -> httpResult)
| acceptTurn (localConn : conn) (dial : string -> dialResult)
| dialTurn (localConn : conn) (dial : string -> dialResult)
| removeTurn (remote : string).

Definition runTurn (t : turn) : M apiServerLb unit :=
  match t with
  | monitorTurn get => healthCheckTick get
  | acceptTurn localConn dial => handleConn localConn dial
  | dialTurn localConn dial => selectAndDial localConn dial
  | removeTurn remote => removeHealthyRemote remote
  end.

(** The run of the two loops on a schedule of turns: its trace and the load
    balancer at its end. A goroutine that waits for the lock does not stop
    the other one; a turn of a waiting goroutine starts anew. These are the
    runs of the program and more. *)
Fixpoint serve (schedule : list turn) (lb : apiServerLb)
  : list event * apiServerLb :=
  match schedule with
  | [] => ([], lb)
  | t :: rest =>
      let r := runTurn t lb in
      let r' := serve rest (stateOf r) in
      (traceOf r ++ fst r', snd r')
  end.

(** The answers to the probes of the turns of the monitor. *)
Fixpoint publications (schedule : list turn) : list (nat -> httpResult) :=
  match schedule with
  | [] => []
  | monitorTurn get :: rest => get :: publications rest
  | _ :: rest => publications rest
  end.

End Locked.

(** ** Copy directions on connections that may be nil *)

(** How a copy direction ends when a connection may be nil: it returns, or
    it panics on a method call through a nil [net.Conn]; an unrecovered panic
    of a goroutine ends the process. *)
Inductive ending : Type :=
| returned
| nilDereference.

(** What a copy direction does, the connections possibly nil. *)
Inductive copyEvent : Type :=
| CpCopy (writer reader : option conn)        (* io.Copy(writer, reader) *)
| CpClose (c : conn)                          (* c.Close() *)
| CpLog (format : string) (args : list string).

(** What [io.Copy] answers: it returns, with or without an error, or it
    panics (a nil writer that is written to, a nil reader that is read). *)
Inductive copyAnswer : Type :=
| copied (err : option error)
| copyPanics.

(** ** src/unnamed/part_001, second file: the healthy servers on a channel *)

Module Chan.

(** The field [HealthyServersChan] is never read or written, [Start] makes a
    channel of its own; it is left out. *)
Record apiServerLb : Type :=
  { Local : string;
    RemoteServers : list string;
    rrCounter : Z;
    healthCheckRules : HealthCheck;
    httpClient : http_Client }.

Definition set_rrCounter (counter : Z) (lb : apiServerLb) : apiServerLb :=
  {| Local := Local lb;
     RemoteServers := RemoteServers lb;
     rrCounter := counter;
     healthCheckRules := healthCheckRules lb;
     httpClient := httpClient lb |}.

(** [lb.rrCounter += 1]. *)
Definition incrCounter : M apiServerLb unit :=
  counter <- gets rrCounter ;;
  emit EvIncr ;;
  modify (set_rrCounter (int_add counter 1)).

(** One turn of the [for] loop of [startHealthChecks], up to the send: the
    value is the slice sent on [healthyServersChan]. *)
Definition healthCheckTick (get : nat -> httpResult)
  : M apiServerLb (list string) :=
  servers <- gets RemoteServers ;;
  c <- gets httpClient ;;
  rangeProbe c get logUnhealthy 0 servers [].

Definition chooseHealthyRemote (HealthyServers : list string)
  : M apiServerLb (string * option error) :=
  traced "chooseHealthyRemote"
    (let numberOfHealthyRemotes := len HealthyServers in
     if numberOfHealthyRemotes =? 0
     then ret ("", Some NoHealthyBackends)
     else
       counter <- gets rrCounter ;;
       pickedIdx <- rem counter numberOfHealthyRemotes ;;
       picked <- index HealthyServers pickedIdx ;;
       incrCounter ;;
       ret (picked, None)).

Definition chooseRemote : M apiServerLb (string * option error) :=
  traced "chooseRemote"
    (servers <- gets RemoteServers ;;
     let numberOfRemotes := len servers in
     if numberOfRemotes =? 0
     then ret ("", Some NoBackendsConfigured)
     else
       counter <- gets rrCounter ;;
       pickedIdx <- rem counter numberOfRemotes ;;
       servers <- gets RemoteServers ;;
       picked <- index servers pickedIdx ;;
       incrCounter ;;
       ret (picked, None)).

Definition removeHealthyRemote (HealthyServers : list string) (remote : string)
  : list string :=
  rangeRemove HealthyServers remote [].

(** [acceptAsChan]: the state is the sequence of values sent on [acceptChan]
    so far. After a failed accept the loop logs and sends all the same, a nil
    connection ([None]). *)
Fixpoint acceptAsChan (accepts : list acceptResult)
  : M (list (option conn)) unit :=
  match accepts with
  | [] => park onAccept
  | acceptErr err :: rest =>
      logPrintf "Error accepting connections in lb : %s" [errorString err] ;;
      modify (fun sent => sent ++ [None]) ;;
      acceptAsChan rest
  | acceptOk localConn :: rest =>
      modify (fun sent => sent ++ [Some localConn]) ;;
      acceptAsChan rest
  end.

(** What [select] receives: a connection from [connChan], with the answers
    of the dialer at that time, or a slice from [HealthyServersChan]. *)
Inductive selected : Type :=
| fromConnChan (c : option conn) (dial : string -> dialResult)
| fromHealthyServersChan (servers : list string).

(** The end of the first [case] of [Start]: dial, then forward or prune. The
    value is the new [healthyServers]. *)
Definition dialAndForward (c : option conn) (dial : string -> dialResult)
  (healthyServers : list string) (remote : string)
  : M apiServerLb (list string) :=
  emit (EvDial remote) ;;
  match dial remote with
  | dialErr e =>
      logPrintf "Error trying to forward: %s\n" [errorString e] ;;
      ret (removeHealthyRemote healthyServers remote)
  | dialOk remoteConn =>
      emit (EvGo (goForward c remoteConn)) ;;
      ret healthyServers
  end.

(** The first [case] of the [select] of [Start]. *)
Definition handleConn (c : option conn) (dial : string -> dialResult)
  (healthyServers : list string) : M apiServerLb (list string) :=
  '(remote, err) <- chooseHealthyRemote healthyServers ;;
  match err with
  | Some e =>
      logPrintf "Error selecting healthy server: %s\n" [errorString e] ;;
      '(remote, err) <- chooseRemote ;;
      match err with
      | Some e' =>
          logPrintf "Error selecting server: %s\n" [errorString e'] ;;
          ret healthyServers
      | None => dialAndForward c dial healthyServers remote
      end
  | None => dialAndForward c dial healthyServers remote
  end.

(** The [for { select { ... } }] loop of [Start]; it has no [return]. *)
Fixpoint selectLoop (inputs : list selected) (healthyServers : list string)
  : M apiServerLb (option error) :=
  match inputs with
  | [] => park onSelect
  | fromConnChan c dial :: rest =>
      healthyServers' <- handleConn c dial healthyServers ;;
      selectLoop rest healthyServers'
  | fromHealthyServersChan servers :: rest =>
      selectLoop rest servers
  end.

Definition Start (listen : listenResult) (inputs : list selected)
  : M apiServerLb (option error) :=
  emit (EvGo goStartHealthChecks) ;;
  match listen with
  | listenErr err => ret (Some err)
  | listenOk =>
      healthyServers <- gets RemoteServers ;;
      emit (EvGo goAcceptAsChan) ;;
      r <- selectLoop inputs healthyServers ;;
      emit EvListenerClose ;;
      ret r
  end.

(** The load balancer [main] builds. *)
Definition newLb (config : Configuration) : apiServerLb :=
  {| Local := ListenAddr config;
     RemoteServers := KubeApiServers config;
     rrCounter := 1;
     healthCheckRules := HealthCheckRules config;
     httpClient := client |}.

(** [n] calls of [chooseHealthyRemote] in a row on the same slice; the value
    is the sequence of what the calls returned. A call that fails ends the
    row. *)
Fixpoint chooseTimes (n : nat) (HealthyServers : list string)
  : M apiServerLb (list string) :=
  match n with
  | O => ret []
  | S n' =>
      '(picked, err) <- chooseHealthyRemote HealthyServers ;;
      match err with
      | Some _ => ret []
      | None =>
          others <- chooseTimes n' HealthyServers ;;
          ret (picked :: others)
      end
  end.

(** [n] calls of the fallback [chooseRemote] in a row; the value is the
    sequence of what the calls returned. A call that fails ends the row. *)
Fixpoint chooseRemoteTimes (n : nat) : M apiServerLb (list string) :=
  match n with
  | O => ret []
  | S n' =>
      '(picked, err) <- chooseRemote ;;
      match err with
      | Some _ => ret []
      | None =>
          others <- chooseRemoteTimes n' ;;
          ret (picked :: others)
      end
  end.

(** *** [forward], the connections possibly nil *)

(** [CloseAndLog]: [conn.Close()] on a nil connection panics. *)
Definition CloseAndLog (closeRes : conn -> option error) (c : option conn)
  : list copyEvent * ending :=
  match c with
  | None => ([], nilDereference)
  | Some c' =>
      match closeRes c' with
      | Some err =>
          ([CpClose c'; CpLog "Error closing socket: %s" [errorString err]], returned)
      | None => ([CpClose c'], returned)
      end
  end.

(** The later of two endings of one goroutine: a panic stays. *)
Definition andThen (e1 e2 : ending) : ending :=
  match e1 with
  | nilDereference => nilDereference
  | returned => e2
  end.

(** The closure [copyConn] of [forward]. The two deferred calls run when the
    body is over, the last deferred first, also when the body or the first
    of them panics. *)
Definition copyConn (answer : copyAnswer) (closeRes : conn -> option error)
  (writer reader : option conn) : list copyEvent * ending :=
  let body :=
    match answer with
    | copied (Some err) =>
        ([CpCopy writer reader; CpLog "io.Copy error: %s" [errorString err]], returned)
    | copied None => ([CpCopy writer reader], returned)
    | copyPanics => ([CpCopy writer reader], nilDereference)
    end in
  let closeReader := CloseAndLog closeRes reader in
  let closeWriter := CloseAndLog closeRes writer in
  (fst body ++ fst closeReader ++ fst closeWriter,
   andThen (snd body) (andThen (snd closeReader) (snd closeWriter))).

(** [forward]: the two directions, in the order they are started. *)
Definition forward (localConn remoteConn : option conn)
  : list (option conn * option conn) :=
  [(localConn, remoteConn); (remoteConn, localConn)].

End Chan.

(** ** src/unnamed/part_000: the first revision *)

(** The monitor and the load balancer of [main]; selection, accept loop and
    forwarding are those of src/main.go. *)
Module Fixed.

Record apiServerLb : Type :=
  { Local : string;
    RemoteServers : list string;
    HealthyServers : list string;
    rrCounter : Z }.

Definition set_HealthyServers (servers : list string) (lb : apiServerLb)
  : apiServerLb :=
  {| Local := Local lb;
     RemoteServers := RemoteServers lb;
     HealthyServers := servers;
     rrCounter := rrCounter lb |}.

(** One turn of the [for] loop of [startHealthChecks]: [http.Get], no log,
    thirty seconds of sleep. *)
Definition healthCheckTick (get : nat -> httpResult) : M apiServerLb unit :=
  servers <- gets RemoteServers ;;
  newHealthyServers <-
    rangeProbe DefaultClient get (fun _ _ => ret tt) 0 servers [] ;;
  modify (set_HealthyServers newHealthyServers) ;;
  emit (EvSleep (30 * Second)).

Fixpoint startHealthChecks (ticks : list (nat -> httpResult))
  : M apiServerLb unit :=
  match ticks with
  | [] => park onSleep
  | get :: rest => healthCheckTick get ;; startHealthChecks rest
  end.

(** The load balancer [main] builds. *)
Definition newLb : apiServerLb :=
  {| Local := "127.0.0.1:6443";
     RemoteServers := ["10.0.0.101:6443"; "10.0.0.102:6443"; "10.0.0.103:6443"];
     HealthyServers := [];
     rrCounter := 1 |}.

End Fixed.

(** ** src/unnamed/part_001, first file: the monitor gets a client *)

(** The monitor and the load balancer of [main]; selection, accept loop and
    forwarding are those of src/main.go, but for the text of the error of
    [chooseRemote] and [log.Printf] in the place of [log.Println]. *)
Module Timed.

Record apiServerLb : Type :=
  { Local : string;
    RemoteServers : list string;
    HealthyServers : list string;
    rrCounter : Z;
    healthCheckRules : HealthCheck;
    httpClient : http_Client }.

Definition set_HealthyServers (servers : list string) (lb : apiServerLb)
  : apiServerLb :=
  {| Local := Local lb;
     RemoteServers := RemoteServers lb;
     HealthyServers := servers;
     rrCounter := rrCounter lb;
     healthCheckRules := healthCheckRules lb;
     httpClient := httpClient lb |}.

(** One turn of the [for] loop of [startHealthChecks]: the probes go through
    [lb.httpClient], a server that fails the test is logged, the slice is
    published without a lock. *)
Definition healthCheckTick (get : nat -> httpResult) : M apiServerLb unit :=
  servers <- gets RemoteServers ;;
  c <- gets httpClient ;;
  newHealthyServers <- rangeProbe c get logUnhealthy 0 servers [] ;;
  modify (set_HealthyServers newHealthyServers) ;;
  rules <- gets healthCheckRules ;;
  emit (EvSleep (wrap (Period rules * Second))).

Fixpoint startHealthChecks (ticks : list (nat -> httpResult))
  : M apiServerLb unit :=
  match ticks with
  | [] => park onSleep
  | get :: rest => healthCheckTick get ;; startHealthChecks rest
  end.

(** The load balancer [main] builds. *)
Definition newLb (config : Configuration) : apiServerLb :=
  {| Local := ListenAddr config;
     RemoteServers := KubeApiServers config;
     HealthyServers := [];
     rrCounter := 1;
     healthCheckRules := HealthCheckRules config;
     httpClient := client |}.

End Timed.

(** ** What the properties are stated with *)

(** The round-robin sequence the specification describes: [n] picks from
    [servers], the first at index [cursor mod len servers], the cursor going
    up by one with every pick. *)
Fixpoint roundRobin (servers : list string) (cursor : Z) (n : nat) : list string :=
  match n with
  | O => []
  | S n' =>
      nth (Z.to_nat (cursor mod len servers)) servers ""
        :: roundRobin servers (cursor + 1) n'
  end.

(** An event that takes a remainder or reads an element of a slice. *)
Definition isArith (e : event) : bool :=
  match e with
  | EvRem _ _ | EvIndex _ _ => true
  | _ => false
  end.

(** A configuration with three servers, and one with none. *)
Definition threeServers : Configuration :=
  {| KubeApiServers := ["10.0.0.101:6443"; "10.0.0.102:6443"; "10.0.0.103:6443"];
     ListenAddr := "127.0.0.1:6443";
     HealthCheckRules := {| Period := 30; UpThreshold := 1; DownThreshold := 1 |} |}.

Definition noServers : Configuration :=
  {| KubeApiServers := [];
     ListenAddr := "127.0.0.1:6443";
     HealthCheckRules := {| Period := 30; UpThreshold := 1; DownThreshold := 1 |} |}.

(** Every probe is answered with status 200. *)
Definition allUp : nat -> httpResult := fun _ => httpResp 200.

(** No writer holds the lock of the load balancer or waits for it. *)
Definition writerFree (lb : Locked.apiServerLb) : bool :=
  negb (Locked.writer (Locked.HealthyServersLock lb)
        || Locked.writerPending (Locked.HealthyServersLock lb)).

(** Nobody holds the lock or waits for it. *)
Definition lockFree (lb : Locked.apiServerLb) : bool :=
  writerFree lb && Nat.eqb (Locked.readers (Locked.HealthyServersLock lb)) 0.

(** The answers of a tick in which the first server is up and the others
    refuse the connection. *)
Definition onlyFirstUp : nat -> httpResult :=
  fun i => if (i <? 1)%nat then httpResp 200
           else httpErr (netError "connection refused").

(** The answers of a tick in which the first two servers are up and the
    others refuse the connection. *)
Definition firstTwoUp : nat -> httpResult :=
  fun i => if (i <? 2)%nat then httpResp 200
           else httpErr (netError "connection refused").

(** The servers whose probe passes the test of [startHealthChecks], in the
    order of the list; [i] is the number of the first request. *)
Fixpoint passing (get : nat -> httpResult) (i : nat) (servers : list string)
  : list string :=
  match servers with
  | [] => []
  | server :: rest =>
      if healthy (get i) then server :: passing get (S i) rest
      else passing get (S i) rest
  end.

(** Every probe of a trace is issued with the client [c]. *)
Definition probesWith (c : http_Client) (t : list event) : Prop :=
  forall c' url, In (EvHttpGet c' url) t -> c' = c.

(** In a trace, every call of the fallback [chooseRemote] comes after a
    return of [chooseHealthyRemote] with an error. *)
Definition fallbackOnlyAfterFailure (t : list event) : Prop :=
  forall before after,
    t = before ++ EvCall "chooseRemote" :: after ->
    exists e, In (EvReturn "chooseHealthyRemote" (Some e)) before.

(** The same, as a scan of the trace; [failed] tells whether a failed return
    of [chooseHealthyRemote] has been met. *)
Fixpoint guarded (failed : bool) (t : list event) : bool :=
  match t with
  | [] => true
  | EvReturn fn (Some _) :: t' =>
      guarded (failed || String.eqb fn "chooseHealthyRemote") t'
  | EvCall fn :: t' =>
      (negb (String.eqb fn "chooseRemote") || failed) && guarded failed t'
  | _ :: t' => guarded failed t'
  end.

(** What the fallback returns where the healthy selection returns an outcome:
    the same, with the error of the fallback in the place of an error. *)
Definition asFallback (o : outcome (string * option error))
  : outcome (string * option error) :=
  match o with
  | Done (s, Some _) => Done (s, Some NoBackendsConfigured)
  | _ => o
  end.

(** The trace of the fallback where the healthy selection has a trace: the
    name of the function and the error differ. *)
Definition asFallbackEvent (e : event) : event :=
  match e with
  | EvCall _ => EvCall "chooseRemote"
  | EvReturn _ (Some _) => EvReturn "chooseRemote" (Some NoBackendsConfigured)
  | EvReturn _ None => EvReturn "chooseRemote" None
  | _ => e
  end.

(** What [acceptAsChan] sends for an answer of [Accept]. *)
Definition sentFor (a : acceptResult) : option conn :=
  match a with
  | acceptErr _ => None
  | acceptOk localConn => Some localConn
  end.

(** A dialer that every server refuses. *)
Definition refused : string -> dialResult :=
  fun _ => dialErr (netError "connect: connection refused").

(** The addresses a trace dials, in order. *)
Fixpoint dialled (t : list event) : list string :=
  match t with
  | [] => []
  | EvDial remote :: t' => remote :: dialled t'
  | _ :: t' => dialled t'
  end.

(** The URLs a trace probes, in order. *)
Fixpoint probed (t : list event) : list string :=
  match t with
  | [] => []
  | EvHttpGet _ url :: t' => url :: probed t'
  | _ :: t' => probed t'
  end.

(** The servers a trace logs as not healthy, in order. *)
Fixpoint loggedUnhealthy (t : list event) : list string :=
  match t with
  | [] => []
  | EvLog format (server :: _) :: t' =>
      if String.eqb format "kube-apiserver %s is not healthy : %s"
      then server :: loggedUnhealthy t'
      else loggedUnhealthy t'
  | _ :: t' => loggedUnhealthy t'
  end.

(** The servers whose probe fails the test of [startHealthChecks], in the
    order of the list; [i] is the number of the first request. *)
Fixpoint failing (get : nat -> httpResult) (i : nat) (servers : list string)
  : list string :=
  match servers with
  | [] => []
  | server :: rest =>
      if healthy (get i) then failing get (S i) rest
      else server :: failing get (S i) rest
  end.

(** The server a connection is sent to in the channel revision: the pick
    among the healthy servers, among the configured servers when none is
    healthy, none when none is configured. *)
Definition target (healthyServers : list string) (lb : Chan.apiServerLb)
  : option string :=
  match healthyServers, Chan.RemoteServers lb with
  | _ :: _, _ =>
      Some (nth (Z.to_nat (Chan.rrCounter lb mod len healthyServers))
              healthyServers "")
  | [], _ :: _ =>
      Some (nth (Z.to_nat (Chan.rrCounter lb mod len (Chan.RemoteServers lb)))
              (Chan.RemoteServers lb) "")
  | [], [] => None
  end.

(** [published] is what a tick with the answers [get] makes of the
    configured servers: the configured servers with the positions struck out
    whose probe did not return status 200 without error. Order and
    repetitions are kept. *)
Definition publishedAs (get : nat -> httpResult) (configured published : list string)
  : Prop :=
  published
  = map fst (filter (fun p => healthy (get (snd p)))
               (combine configured (seq 0 (List.length configured))))
  /\ (forall server,
         In server published
         <-> exists k, nth_error configured k = Some server /\ get k = httpResp 200)
  /\ (NoDup configured -> NoDup published)
  /\ ((forall k, (k < List.length configured)%nat -> get k = httpResp 200) ->
      published = configured)
  /\ ((forall k, (k < List.length configured)%nat -> get k <> httpResp 200) ->
      published = []).

(** Any number of steps of the lock revision. *)
Inductive steps (lb : Locked.apiServerLb) : Locked.apiServerLb -> Prop :=
| steps_none : steps lb lb
| steps_more (lb' lb'' : Locked.apiServerLb) :
    steps lb lb' -> Locked.step lb' lb'' -> steps lb lb''.

(** The discipline of the lock between two steps: no writer holds it;
    readers hold it only after the early return of [chooseRemote], which
    happens on an empty healthy set; a writer waits only for such readers. *)
Definition lockDiscipline (lb : Locked.apiServerLb) : Prop :=
  Locked.writer (Locked.HealthyServersLock lb) = false
  /\ Locked.rrCounter lb = 1
  /\ (Locked.readers (Locked.HealthyServersLock lb) <> 0%nat ->
      Locked.HealthyServers lb = [])
  /\ (Locked.writerPending (Locked.HealthyServersLock lb) = true ->
      Locked.readers (Locked.HealthyServersLock lb) <> 0%nat).

(** An answer of [Accept] that carries a connection. *)
Definition accepted (input : acceptResult * (string -> dialResult)) : bool :=
  match fst input with
  | acceptOk _ => true
  | acceptErr _ => false
  end.

(** The connections a copy direction closes, in order. *)
Fixpoint closedBy (t : list copyEvent) : list conn :=
  match t with
  | [] => []
  | CpClose c :: rest => c :: closedBy rest
  | _ :: rest => closedBy rest
  end.

(** The connections closed in a trace, in order. *)
Fixpoint closed (t : list event) : list conn :=
  match t with
  | [] => []
  | EvClose c :: rest => c :: closed rest
  | _ :: rest => closed rest
  end.

(** The connection, when there is one. *)
Definition present (c : option conn) : list conn :=
  match c with
  | Some c' => [c']
  | None => []
  end.

(** * Properties *)

Arguments len {A} s : simpl never.
Arguments Z.rem : simpl never.
Arguments Z.modulo : simpl never.

(** Unfolding a run down to its tests, and splitting on them. *)
Ltac unfold_run :=
  cbv [bind emit gets modify throw ret park exit rem index traced logPrintf
       logFatalf].

Ltac break_test :=
  match goal with
  | |- context [if ?c then _ else _] => destruct c eqn:?
  | |- context [match ?x with _ => _ end] =>
      lazymatch type of x with
      | option _ => destruct x eqn:?
      | nat => destruct x eqn:?
      | dialResult => destruct x eqn:?
      | httpResult => destruct x eqn:?
      end
  end.

Ltac run_cases := unfold_run; repeat (simpl; break_test); simpl.

(** ** The counter and the slices *)

Lemma wrap_in_range (z : Z) : int_min <= z <= int_max -> wrap z = z.
Proof.
  unfold wrap, int_min, int_max. intros H.
  rewrite Z.mod_small by lia. lia.
Qed.

(** Below the largest [int], [+= 1] adds one. *)
Lemma int_add_1 (c : Z) : 0 <= c < int_max -> int_add c 1 = c + 1.
Proof.
  intros H. unfold int_add. apply wrap_in_range.
  unfold int_min, int_max in *. lia.
Qed.

(** The test [len(s) == 0]. *)
Lemma len_zero {A : Type} (s : list A) : (len s =? 0) = true <-> s = [].
Proof.
  unfold len. destruct s as [|x s]; simpl; split; intros H;
    try reflexivity; try discriminate.
Qed.

Lemma len_pos {A : Type} (s : list A) : s <> [] -> (len s =? 0) = false /\ 0 < len s.
Proof.
  intros H. destruct s as [|x s]; [congruence|].
  unfold len. simpl List.length. split; [apply Z.eqb_neq|]; lia.
Qed.

(** Reading a slice inside its bounds. *)
Lemma index_in_range {St : Type} (s : list string) (i : Z) (st : St) :
  0 <= i < len s ->
  index s i st = ([EvIndex i (len s)], st, Done (nth (Z.to_nat i) s "")).
Proof.
  intros H. unfold index, bind, emit, throw, ret.
  replace ((i <? 0) || (len s <=? i)) with false
    by (symmetry; apply orb_false_iff; split; [apply Z.ltb_ge | apply Z.leb_gt]; lia).
  destruct (nth_error s (Z.to_nat i)) eqn:E.
  - simpl. rewrite (nth_error_nth _ _ _ E). reflexivity.
  - apply nth_error_None in E. unfold len in H. lia.
Qed.

(** Reading a slice outside its bounds panics. *)
Lemma index_out_of_range {St : Type} (s : list string) (i : Z) (st : St) :
  i < 0 \/ len s <= i ->
  index s i st = ([EvIndex i (len s)], st, Panicked (indexOutOfRange i (len s))).
Proof.
  intros H. unfold index, bind, emit, throw.
  replace ((i <? 0) || (len s <=? i)) with true; [reflexivity|].
  symmetry. apply orb_true_iff.
  destruct H; [left; apply Z.ltb_lt | right; apply Z.leb_le]; lia.
Qed.

(** A remainder by a non-zero divisor does not panic. *)
Lemma rem_nonzero {St : Type} (a b : Z) (st : St) :
  b <> 0 -> rem a b st = ([EvRem a b], st, Done (Z.rem a b)).
Proof.
  intros H. unfold rem, bind, emit, ret.
  apply Z.eqb_neq in H. rewrite H. reflexivity.
Qed.

(** A run whose continuation never returns never returns. *)
Lemma bind_never_returns {St A B : Type} (m : M St A) (k : A -> M St B) (s : St) :
  (forall a s' b, outcomeOf (k a s') <> Done b) ->
  forall b, outcomeOf (bind m k s) <> Done b.
Proof.
  intros Hk b. unfold bind, outcomeOf.
  destruct (m s) as [[t s'] [a|p|c|w]]; simpl; try discriminate.
  specialize (Hk a s' b). unfold outcomeOf in Hk.
  destruct (k a s') as [[t' s''] o]. exact Hk.
Qed.

(** The loop of [removeHealthyRemote] keeps, in order, the servers that
    differ from [remote]. *)
Lemma rangeRemove_filter (servers : list string) (remote : string)
  (acc : list string) :
  rangeRemove servers remote acc
  = acc ++ filter (fun server => negb (String.eqb server remote)) servers.
Proof.
  revert acc. induction servers as [|server rest IH]; intros acc; simpl.
  - now rewrite app_nil_r.
  - destruct (negb (String.eqb server remote)).
    + rewrite IH, <- app_assoc. reflexivity.
    + apply IH.
Qed.

(** What is left after [removeHealthyRemote]: the servers other than [remote]. *)
Lemma rangeRemove_In (servers : list string) (remote server : string) :
  In server (rangeRemove servers remote [])
  <-> In server servers /\ server <> remote.
Proof.
  rewrite rangeRemove_filter. simpl. rewrite filter_In, negb_true_iff.
  split; intros [H1 H2]; split; auto.
  - now apply String.eqb_neq.
  - now apply String.eqb_neq.
Qed.

(** ** Selection in the channel revision *)

(** A successful call of [chooseHealthyRemote]: the pick is the element at
    index [rrCounter mod len], the counter goes up by one. *)
Lemma Chan_chooseHealthyRemote_picks (hs : list string) (lb : Chan.apiServerLb) :
  hs <> [] -> 0 <= Chan.rrCounter lb ->
  Chan.chooseHealthyRemote hs lb =
    ([EvCall "chooseHealthyRemote"; EvRem (Chan.rrCounter lb) (len hs);
      EvIndex (Chan.rrCounter lb mod len hs) (len hs); EvIncr;
      EvReturn "chooseHealthyRemote" None],
     Chan.set_rrCounter (int_add (Chan.rrCounter lb) 1) lb,
     Done (nth (Z.to_nat (Chan.rrCounter lb mod len hs)) hs "", None)).
Proof.
  intros Hne Hc. destruct (len_pos hs Hne) as [Hz Hpos].
  unfold Chan.chooseHealthyRemote, traced. rewrite Hz.
  cbv [bind emit gets].
  rewrite rem_nonzero by lia.
  rewrite Z.rem_mod_nonneg by lia.
  rewrite index_in_range by (apply Z.mod_pos_bound; lia).
  reflexivity.
Qed.

(** The empty case: the error, with nothing done in between. *)
Lemma Chan_chooseHealthyRemote_empty (lb : Chan.apiServerLb) :
  Chan.chooseHealthyRemote [] lb =
    ([EvCall "chooseHealthyRemote";
      EvReturn "chooseHealthyRemote" (Some NoHealthyBackends)],
     lb, Done ("", Some NoHealthyBackends)).
Proof. reflexivity. Qed.

(** [n] calls in a row return the round-robin sequence, as long as the
    counter does not pass the largest [int]. *)
Lemma Chan_chooseTimes_roundRobin (hs : list string) (n : nat) :
  hs <> [] ->
  forall lb : Chan.apiServerLb,
    0 <= Chan.rrCounter lb -> Chan.rrCounter lb + Z.of_nat n <= int_max ->
    exists t,
      Chan.chooseTimes n hs lb
      = (t, Chan.set_rrCounter (Chan.rrCounter lb + Z.of_nat n) lb,
         Done (roundRobin hs (Chan.rrCounter lb) n)).
Proof.
  intros Hne. induction n as [|n IH]; intros lb Hc Hmax.
  - exists []. cbn [Chan.chooseTimes roundRobin Z.of_nat]. rewrite Z.add_0_r.
    destruct lb; reflexivity.
  - rewrite Nat2Z.inj_succ in *.
    destruct (IH (Chan.set_rrCounter (Chan.rrCounter lb + 1) lb)) as [t Ht];
      [cbn [Chan.set_rrCounter Chan.rrCounter]; lia ..|].
    cbn [Chan.set_rrCounter Chan.rrCounter] in Ht.
    cbn [Chan.chooseTimes roundRobin]. unfold bind.
    rewrite (Chan_chooseHealthyRemote_picks hs lb Hne Hc).
    rewrite int_add_1 by lia. fold (@bind Chan.apiServerLb).
    unfold bind. rewrite Ht. unfold ret. eexists.
    replace (Chan.rrCounter lb + Z.succ (Z.of_nat n))
      with (Chan.rrCounter lb + 1 + Z.of_nat n) by lia.
    reflexivity.
Qed.

(** The part of a slice from index [j] on starts with its element [j]. *)
Lemma skipn_nth_cons (hs : list string) (j : nat) :
  (j < List.length hs)%nat -> skipn j hs = nth j hs "" :: skipn (S j) hs.
Proof.
  revert j. induction hs as [|x hs IH]; intros j H; simpl in H; [lia|].
  destruct j as [|j]; [reflexivity|].
  simpl. apply IH. lia.
Qed.

(** While the index does not pass the end of the slice, the round-robin
    sequence is a window of the slice. *)
Lemma roundRobin_window (hs : list string) (m : nat) :
  forall (c q : Z) (j : nat),
    c = q * len hs + Z.of_nat j -> (j + m <= List.length hs)%nat ->
    roundRobin hs c m = firstn m (skipn j hs).
Proof.
  induction m as [|m IH]; intros c q j Hc Hj; [reflexivity|].
  cbn [roundRobin].
  assert (Hmod : c mod len hs = Z.of_nat j).
  { subst c. rewrite Z.add_comm, Z.mod_add by (unfold len; lia).
    apply Z.mod_small. unfold len. lia. }
  rewrite Hmod, Nat2Z.id, (skipn_nth_cons hs j) by lia.
  cbn [firstn]. f_equal.
  apply (IH (c + 1) q (S j)); lia.
Qed.

(** [a + b] picks are [a] picks followed by [b] picks. *)
Lemma roundRobin_app (hs : list string) (a b : nat) (c : Z) :
  roundRobin hs c (a + b) = roundRobin hs c a ++ roundRobin hs (c + Z.of_nat a) b.
Proof.
  revert c. induction a as [|a IH]; intros c.
  - simpl. now rewrite Z.add_0_r.
  - cbn [Nat.add roundRobin app]. rewrite IH. do 3 f_equal. lia.
Qed.

(** [len hs] picks in a row are the slice, rotated by [c mod len hs]. *)
Lemma roundRobin_rotation (hs : list string) (c : Z) :
  hs <> [] -> 0 <= c ->
  roundRobin hs c (List.length hs)
  = skipn (Z.to_nat (c mod len hs)) hs ++ firstn (Z.to_nat (c mod len hs)) hs.
Proof.
  intros Hne Hc. destruct (len_pos hs Hne) as [_ Hpos].
  pose proof (Z.mod_pos_bound c (len hs) Hpos) as Hk.
  set (k := Z.to_nat (c mod len hs)).
  assert (Hkn : (k <= List.length hs)%nat) by (unfold k, len in *; lia).
  replace (List.length hs) with ((List.length hs - k) + k)%nat at 1 by lia.
  rewrite roundRobin_app. f_equal.
  - rewrite (roundRobin_window hs _ c (c / len hs) k).
    + rewrite firstn_all2; [reflexivity|]. rewrite length_skipn. lia.
    + unfold k. rewrite Z2Nat.id by lia.
      rewrite (Z.div_mod c (len hs)) at 1 by lia. lia.
    + lia.
  - rewrite (roundRobin_window hs _ _ (c / len hs + 1) 0%nat).
    + reflexivity.
    + unfold k. rewrite Nat2Z.inj_sub by lia. rewrite Z2Nat.id by lia.
      rewrite (Z.div_mod c (len hs)) at 1 by lia. unfold len. lia.
    + lia.
Qed.

(** Hence every element is picked exactly once. *)
Lemma roundRobin_Permutation (hs : list string) (c : Z) :
  hs <> [] -> 0 <= c -> Permutation (roundRobin hs c (List.length hs)) hs.
Proof.
  intros Hne Hc. rewrite roundRobin_rotation by assumption.
  rewrite Permutation_app_comm. now rewrite firstn_skipn.
Qed.

(** X3. In the channel revision, [len hs] calls of [chooseHealthyRemote] on an
    unchanged, non-empty slice return the round-robin sequence, a
    rearrangement of the slice, and move the counter by [len hs]: the
    sibling that does what [Locked.chooseRemote] misses. *)
Lemma Chan_round_robin (hs : list string) (lb : Chan.apiServerLb) :
  hs <> [] -> 0 <= Chan.rrCounter lb -> Chan.rrCounter lb + len hs <= int_max ->
  exists picks,
    outcomeOf (Chan.chooseTimes (List.length hs) hs lb) = Done picks
    /\ picks = roundRobin hs (Chan.rrCounter lb) (List.length hs)
    /\ Permutation picks hs
    /\ Chan.rrCounter (stateOf (Chan.chooseTimes (List.length hs) hs lb))
       = Chan.rrCounter lb + len hs.
Proof.
  intros Hne Hc Hmax.
  destruct (Chan_chooseTimes_roundRobin hs (List.length hs) Hne lb Hc Hmax)
    as [t Ht].
  exists (roundRobin hs (Chan.rrCounter lb) (List.length hs)).
  rewrite Ht. unfold outcomeOf, stateOf. simpl.
  repeat split; auto using roundRobin_Permutation.
Qed.

(** The counter wraps. At the largest [int] a call still picks, the counter
    becomes the smallest [int], the next remainder is negative and the read
    of the slice panics: the bounds on the counter above are needed. *)
Lemma Chan_counter_wraps :
  let lb := Chan.set_rrCounter int_max (Chan.newLb threeServers) in
  let first := Chan.chooseHealthyRemote (KubeApiServers threeServers) lb in
  outcomeOf first = Done ("10.0.0.102:6443", None)
  /\ Chan.rrCounter (stateOf first) = int_min
  /\ outcomeOf (Chan.chooseHealthyRemote (KubeApiServers threeServers) (stateOf first))
     = Panicked (indexOutOfRange (-2) 3).
Proof. repeat split; vm_compute; reflexivity. Qed.

(** ** Selection in the lock revision *)

Lemma writerFree_true (lb : Locked.apiServerLb) :
  writerFree lb = true ->
  Locked.writer (Locked.HealthyServersLock lb) = false
  /\ Locked.writerPending (Locked.HealthyServersLock lb) = false.
Proof.
  unfold writerFree. rewrite negb_true_iff, orb_false_iff. trivial.
Qed.

(** A free lock is the zero [RWMutex]. *)
Lemma lockFree_true (lb : Locked.apiServerLb) :
  lockFree lb = true ->
  Locked.HealthyServersLock lb
  = {| Locked.readers := 0; Locked.writer := false; Locked.writerPending := false |}.
Proof.
  unfold lockFree. rewrite andb_true_iff. intros [Hw Hr].
  apply writerFree_true in Hw. destruct Hw as [Hw Hp]. apply Nat.eqb_eq in Hr.
  destruct (Locked.HealthyServersLock lb) as [r w p]. simpl in *. congruence.
Qed.

(** The empty case: the error is returned with the read lock still held. *)
Lemma Locked_chooseRemote_empty (lb : Locked.apiServerLb) :
  Locked.HealthyServers lb = [] -> writerFree lb = true ->
  Locked.chooseRemote lb =
    ([EvCall "chooseRemote"; EvRLock;
      EvReturn "chooseRemote" (Some NoHealthyBackends)],
     Locked.set_HealthyServersLock
       {| Locked.readers := S (Locked.readers (Locked.HealthyServersLock lb));
          Locked.writer := false; Locked.writerPending := false |} lb,
     Done ("", Some NoHealthyBackends)).
Proof.
  intros Hhs Hw. apply writerFree_true in Hw. destruct Hw as [Hw Hp].
  unfold Locked.chooseRemote, traced, Locked.RLock.
  cbv [bind emit gets]. rewrite Hw, Hp. simpl. rewrite Hhs. reflexivity.
Qed.

(** A writer holds the lock or waits for it: the call waits in [RLock]. *)
Lemma Locked_chooseRemote_parked (lb : Locked.apiServerLb) :
  writerFree lb = false ->
  Locked.chooseRemote lb = ([EvCall "chooseRemote"], lb, Parked onLock).
Proof.
  unfold writerFree. rewrite negb_false_iff. intros Hw.
  unfold Locked.chooseRemote, traced, Locked.RLock.
  cbv [bind emit gets]. rewrite Hw. reflexivity.
Qed.

(** The success case: the pick is the element at index [rrCounter mod len],
    and the load balancer is as before, lock and counter included. *)
Lemma Locked_chooseRemote_picks (lb : Locked.apiServerLb) :
  Locked.HealthyServers lb <> [] -> 0 <= Locked.rrCounter lb ->
  lockFree lb = true ->
  Locked.chooseRemote lb =
    ([EvCall "chooseRemote"; EvRLock;
      EvRem (Locked.rrCounter lb) (len (Locked.HealthyServers lb));
      EvIndex (Locked.rrCounter lb mod len (Locked.HealthyServers lb))
        (len (Locked.HealthyServers lb));
      EvRUnlock; EvReturn "chooseRemote" None],
     lb,
     Done (nth (Z.to_nat (Locked.rrCounter lb mod len (Locked.HealthyServers lb)))
             (Locked.HealthyServers lb) "", None)).
Proof.
  intros Hne Hc Hfree. unfold lockFree in Hfree.
  apply andb_true_iff in Hfree. destruct Hfree as [Hw Hr].
  apply writerFree_true in Hw. destruct Hw as [Hw Hp]. apply Nat.eqb_eq in Hr.
  destruct (len_pos _ Hne) as [Hz Hpos].
  unfold Locked.chooseRemote, traced, Locked.RLock, Locked.RUnlock.
  cbv [bind emit gets]. rewrite Hw, Hp. simpl. rewrite Hz. simpl.
  rewrite rem_nonzero by lia. rewrite Z.rem_mod_nonneg by lia.
  simpl.
  rewrite index_in_range by (apply Z.mod_pos_bound; lia).
  simpl. destruct lb as [a b c [r w p] e f g]. simpl in *. subst. reflexivity.
Qed.

(** Whatever happens, [chooseRemote] leaves the servers and the counter as
    they are: the counter is never incremented in this revision. *)
Lemma Locked_chooseRemote_frame (lb : Locked.apiServerLb) :
  Locked.HealthyServers (stateOf (Locked.chooseRemote lb)) = Locked.HealthyServers lb
  /\ Locked.RemoteServers (stateOf (Locked.chooseRemote lb)) = Locked.RemoteServers lb
  /\ Locked.rrCounter (stateOf (Locked.chooseRemote lb)) = Locked.rrCounter lb.
Proof.
  unfold Locked.chooseRemote, Locked.RLock, Locked.RUnlock, stateOf.
  run_cases; auto.
Qed.

(** On an empty slice, whatever the lock, no remainder is taken, no element
    is read and nothing panics. *)
Lemma Locked_chooseRemote_empty_safe (lb : Locked.apiServerLb) :
  Locked.HealthyServers lb = [] ->
  existsb isArith (traceOf (Locked.chooseRemote lb)) = false
  /\ forall p, outcomeOf (Locked.chooseRemote lb) <> Panicked p.
Proof.
  intros Hhs. destruct (writerFree lb) eqn:Hw.
  - rewrite (Locked_chooseRemote_empty lb Hhs Hw). split; [reflexivity|].
    intros p. discriminate.
  - rewrite (Locked_chooseRemote_parked lb Hw). split; [reflexivity|].
    intros p. discriminate.
Qed.

(** C1 (failing input). The lock revision, after a tick in which the first
    two of three servers are up: two calls of [chooseRemote] in a row both
    return the second server and the counter is 1 before and after, where
    round robin asks for the second server and then the first. *)
Theorem chooseRemote_locked_repeats_pick :
  let lb := stateOf (Locked.healthCheckTick firstTwoUp (Locked.newLb threeServers)) in
  let first := Locked.chooseRemote lb in
  let second := Locked.chooseRemote (stateOf first) in
  Locked.HealthyServers lb = ["10.0.0.101:6443"; "10.0.0.102:6443"]
  /\ Locked.rrCounter lb = 1
  /\ outcomeOf first = Done ("10.0.0.102:6443", None)
  /\ outcomeOf second = Done ("10.0.0.102:6443", None)
  /\ Locked.rrCounter (stateOf second) = 1
  /\ roundRobin (Locked.HealthyServers lb) (Locked.rrCounter lb) 2
     = ["10.0.0.102:6443"; "10.0.0.101:6443"].
Proof. repeat split; vm_compute; reflexivity. Qed.

(** What holds of C2. When the healthy servers are empty, selection takes no
    remainder, reads no element of the slice and does not panic, and what it
    returns, if it returns, is the error "no remote servers are Healthy":
    [chooseHealthyRemote] of the channel revision always returns it,
    [chooseRemote] of the lock revision returns it when no writer keeps it
    waiting in [RLock]. *)
Theorem select_on_empty_healthy_set
  (lbc : Chan.apiServerLb) (lb : Locked.apiServerLb) :
  Locked.HealthyServers lb = [] ->
  (outcomeOf (Chan.chooseHealthyRemote [] lbc) = Done ("", Some NoHealthyBackends)
   /\ existsb isArith (traceOf (Chan.chooseHealthyRemote [] lbc)) = false)
  /\ existsb isArith (traceOf (Locked.chooseRemote lb)) = false
  /\ (forall p, outcomeOf (Locked.chooseRemote lb) <> Panicked p)
  /\ (forall r, outcomeOf (Locked.chooseRemote lb) = Done r ->
                r = ("", Some NoHealthyBackends))
  /\ (writerFree lb = true ->
      outcomeOf (Locked.chooseRemote lb) = Done ("", Some NoHealthyBackends)).
Proof.
  intros Hhs. split; [|split; [|split; [|split]]].
  - rewrite Chan_chooseHealthyRemote_empty. split; reflexivity.
  - apply Locked_chooseRemote_empty_safe, Hhs.
  - apply Locked_chooseRemote_empty_safe, Hhs.
  - intros r. destruct (writerFree lb) eqn:Hw.
    + rewrite (Locked_chooseRemote_empty lb Hhs Hw). intros H.
      now injection H as <-.
    + rewrite (Locked_chooseRemote_parked lb Hw). discriminate.
  - intros Hw. now rewrite (Locked_chooseRemote_empty lb Hhs Hw).
Qed.

Lemma select_on_empty_healthy_set_witness :
  Locked.HealthyServers (Locked.newLb threeServers) = []
  /\ writerFree (Locked.newLb threeServers) = true
  /\ outcomeOf (Chan.chooseHealthyRemote [] (Chan.newLb threeServers))
     = Done ("", Some NoHealthyBackends)
  /\ outcomeOf (Locked.chooseRemote (Locked.newLb threeServers))
     = Done ("", Some NoHealthyBackends)
  /\ existsb isArith (traceOf (Locked.chooseRemote (Locked.newLb threeServers)))
     = false.
Proof.
  destruct (select_on_empty_healthy_set
              (Chan.newLb threeServers) (Locked.newLb threeServers) eq_refl)
    as [[Hc _] [Harith [_ [_ Hret]]]].
  split; [reflexivity|]. split; [reflexivity|].
  split; [exact Hc|]. split; [exact (Hret eq_refl) | exact Harith].
Defined.

(** C10 (failing input). The lock revision as [main] builds it, the healthy
    servers empty: [chooseRemote] returns its error after [RLock] and without
    [RUnlock], one reader holds the lock from then on; the next tick of the
    monitor waits in [Lock] and publishes nothing, and the call of
    [chooseRemote] after that waits in [RLock] behind it. *)
Theorem chooseRemote_empty_keeps_read_lock :
  let r := Locked.chooseRemote (Locked.newLb threeServers) in
  let tick := Locked.healthCheckTick allUp (stateOf r) in
  outcomeOf r = Done ("", Some NoHealthyBackends)
  /\ traceOf r = [EvCall "chooseRemote"; EvRLock;
                  EvReturn "chooseRemote" (Some NoHealthyBackends)]
  /\ Locked.readers (Locked.HealthyServersLock (stateOf r)) = 1%nat
  /\ outcomeOf tick = Parked onLock
  /\ Locked.HealthyServers (stateOf tick) = []
  /\ outcomeOf (Locked.removeHealthyRemote "10.0.0.101:6443" (stateOf r))
     = Parked onLock
  /\ outcomeOf (Locked.chooseRemote (stateOf tick)) = Parked onLock.
Proof. repeat split; vm_compute; reflexivity. Qed.

(** ** The fallback of the channel revision *)

Lemma guarded_sound (t : list event) :
  forall failed,
    guarded failed t = true ->
    forall before after,
      t = before ++ EvCall "chooseRemote" :: after ->
      failed = true
      \/ exists e, In (EvReturn "chooseHealthyRemote" (Some e)) before.
Proof.
  induction t as [|ev t IH]; intros failed Hg before after Heq.
  - destruct before; discriminate.
  - destruct before as [|b before].
    + simpl in Heq. injection Heq as Hev _. subst ev. simpl in Hg.
      left. now apply andb_true_iff in Hg.
    + simpl in Heq. injection Heq as Hev Ht. subst b.
      assert (Hstep : exists failed', guarded failed' t = true
                /\ (failed' = true -> failed = true
                    \/ exists e, ev = EvReturn "chooseHealthyRemote" (Some e))).
      { destruct ev; simpl in Hg;
          try (exists failed; split; [exact Hg | auto]; fail).
        - apply andb_true_iff in Hg. exists failed. split; [apply Hg | auto].
        - destruct err as [e|].
          + exists (failed || String.eqb fn "chooseHealthyRemote"). split; [exact Hg|].
            intros H. apply orb_true_iff in H. destruct H as [H|H]; [auto|].
            right. apply String.eqb_eq in H. subst fn. now exists e.
          + exists failed. split; [exact Hg | auto]. }
      destruct Hstep as [failed' [Hg' Hf]].
      destruct (IH failed' Hg' before after Ht) as [H|[e He]].
      * destruct (Hf H) as [H'|[e He]]; [auto|].
        right. exists e. left. exact He.
      * right. exists e. right. exact He.
Qed.

(** The scan accepts the trace of every handled connection. *)
Lemma Chan_handleConn_guarded c dial hs lb :
  guarded false (traceOf (Chan.handleConn c dial hs lb)) = true.
Proof.
  unfold Chan.handleConn, Chan.chooseHealthyRemote, Chan.chooseRemote,
    Chan.dialAndForward, Chan.incrCounter, traceOf.
  run_cases; reflexivity.
Qed.

(** [chooseRemote] is [chooseHealthyRemote] on the configured servers, up to
    the name in the trace and the error. *)
Lemma Chan_chooseRemote_asFallback lb :
  outcomeOf (Chan.chooseRemote lb)
  = asFallback (outcomeOf (Chan.chooseHealthyRemote (Chan.RemoteServers lb) lb))
  /\ stateOf (Chan.chooseRemote lb)
     = stateOf (Chan.chooseHealthyRemote (Chan.RemoteServers lb) lb)
  /\ traceOf (Chan.chooseRemote lb)
     = map asFallbackEvent (traceOf (Chan.chooseHealthyRemote (Chan.RemoteServers lb) lb)).
Proof.
  unfold Chan.chooseHealthyRemote, Chan.chooseRemote, Chan.incrCounter,
    traceOf, stateOf, outcomeOf.
  run_cases; auto.
Qed.

(** [chooseRemote] returns an error exactly when no server is configured. *)
Lemma Chan_chooseRemote_error lb :
  (exists s e, outcomeOf (Chan.chooseRemote lb) = Done (s, Some e))
  <-> Chan.RemoteServers lb = [].
Proof.
  split.
  - intros [s [e H]]. apply len_zero.
    destruct (len (Chan.RemoteServers lb) =? 0) eqn:Hz; [reflexivity|].
    exfalso. revert H.
    unfold Chan.chooseRemote, Chan.incrCounter, outcomeOf.
    unfold_run. rewrite Hz. repeat (simpl; break_test); discriminate.
  - intros E. exists "", NoBackendsConfigured.
    unfold Chan.chooseRemote, outcomeOf. unfold_run. simpl. rewrite E. reflexivity.
Qed.

(** Hence the fallback is round robin over the configured servers: with a
    server configured and a counter that is not negative, it returns the
    server at index [rrCounter mod len] and the counter goes up by one. *)
Lemma Chan_chooseRemote_picks (lb : Chan.apiServerLb) :
  Chan.RemoteServers lb <> [] -> 0 <= Chan.rrCounter lb ->
  outcomeOf (Chan.chooseRemote lb)
  = Done (nth (Z.to_nat (Chan.rrCounter lb mod len (Chan.RemoteServers lb)))
            (Chan.RemoteServers lb) "", None)
  /\ stateOf (Chan.chooseRemote lb)
     = Chan.set_rrCounter (int_add (Chan.rrCounter lb) 1) lb.
Proof.
  intros Hne Hc.
  destruct (Chan_chooseRemote_asFallback lb) as [Ho [Hs _]].
  rewrite Ho, Hs.
  rewrite (Chan_chooseHealthyRemote_picks (Chan.RemoteServers lb) lb Hne Hc).
  split; reflexivity.
Qed.

(** The fallback as a whole, with a server configured and a counter that is
    not negative. *)
Lemma Chan_chooseRemote_step (lb : Chan.apiServerLb) :
  Chan.RemoteServers lb <> [] -> 0 <= Chan.rrCounter lb ->
  exists t,
    Chan.chooseRemote lb
    = (t, Chan.set_rrCounter (int_add (Chan.rrCounter lb) 1) lb,
       Done (nth (Z.to_nat (Chan.rrCounter lb mod len (Chan.RemoteServers lb)))
               (Chan.RemoteServers lb) "", None)).
Proof.
  intros Hne Hc. destruct (Chan_chooseRemote_picks lb Hne Hc) as [Ho Hs].
  unfold outcomeOf, stateOf in *.
  destruct (Chan.chooseRemote lb) as [[t s] o]. cbn [fst snd] in *.
  exists t. now subst.
Qed.

(** Successive calls of the fallback go round the configured servers. *)
Lemma Chan_chooseRemoteTimes_roundRobin (n : nat) :
  forall lb : Chan.apiServerLb,
    Chan.RemoteServers lb <> [] ->
    0 <= Chan.rrCounter lb -> Chan.rrCounter lb + Z.of_nat n <= int_max ->
    exists t,
      Chan.chooseRemoteTimes n lb
      = (t, Chan.set_rrCounter (Chan.rrCounter lb + Z.of_nat n) lb,
         Done (roundRobin (Chan.RemoteServers lb) (Chan.rrCounter lb) n)).
Proof.
  induction n as [|n IH]; intros lb Hne Hc Hmax.
  - exists []. cbn [Chan.chooseRemoteTimes roundRobin Z.of_nat].
    rewrite Z.add_0_r. destruct lb; reflexivity.
  - rewrite Nat2Z.inj_succ in *.
    destruct (Chan_chooseRemote_step lb Hne Hc) as [t1 H1].
    rewrite int_add_1 in H1 by lia.
    destruct (IH (Chan.set_rrCounter (Chan.rrCounter lb + 1) lb)) as [t Ht];
      [exact Hne | cbn [Chan.set_rrCounter Chan.rrCounter]; lia ..|].
    cbn [Chan.set_rrCounter Chan.rrCounter Chan.RemoteServers] in Ht.
    cbn [Chan.chooseRemoteTimes roundRobin]. unfold bind.
    rewrite H1. fold (@bind Chan.apiServerLb).
    unfold bind. rewrite Ht. unfold ret. eexists.
    replace (Chan.rrCounter lb + Z.succ (Z.of_nat n))
      with (Chan.rrCounter lb + 1 + Z.of_nat n) by lia.
    reflexivity.
Qed.

(** C3. For every connection the channel revision handles, the fallback
    [chooseRemote] is called only after [chooseHealthyRemote] has returned an
    error. The fallback is round robin over the configured list
    [RemoteServers], whatever the healthy servers are: with a server
    configured and a counter that is not negative, a call returns the server
    at index [rrCounter mod len] and moves the counter up by one, and [n]
    calls in a row return the round-robin sequence of the configured servers
    and move the counter up by [n]. It is the selection of
    [chooseHealthyRemote] run on the configured list (same pick, same counter
    afterwards, its own error), and it returns the error "no remote servers"
    exactly when the configured list is empty. *)
Theorem fallback_selection (c : option conn) (dial : string -> dialResult)
  (healthyServers : list string) (lb : Chan.apiServerLb) :
  fallbackOnlyAfterFailure (traceOf (Chan.handleConn c dial healthyServers lb))
  /\ (Chan.RemoteServers lb <> [] -> 0 <= Chan.rrCounter lb ->
      outcomeOf (Chan.chooseRemote lb)
      = Done (nth (Z.to_nat (Chan.rrCounter lb mod len (Chan.RemoteServers lb)))
                (Chan.RemoteServers lb) "", None)
      /\ stateOf (Chan.chooseRemote lb)
         = Chan.set_rrCounter (int_add (Chan.rrCounter lb) 1) lb)
  /\ (forall n : nat,
         Chan.RemoteServers lb <> [] -> 0 <= Chan.rrCounter lb ->
         Chan.rrCounter lb + Z.of_nat n <= int_max ->
         outcomeOf (Chan.chooseRemoteTimes n lb)
         = Done (roundRobin (Chan.RemoteServers lb) (Chan.rrCounter lb) n)
         /\ stateOf (Chan.chooseRemoteTimes n lb)
            = Chan.set_rrCounter (Chan.rrCounter lb + Z.of_nat n) lb)
  /\ outcomeOf (Chan.chooseRemote lb)
     = asFallback (outcomeOf (Chan.chooseHealthyRemote (Chan.RemoteServers lb) lb))
  /\ stateOf (Chan.chooseRemote lb)
     = stateOf (Chan.chooseHealthyRemote (Chan.RemoteServers lb) lb)
  /\ ((exists s, outcomeOf (Chan.chooseRemote lb) = Done (s, Some NoBackendsConfigured))
      <-> Chan.RemoteServers lb = []).
Proof.
  split; [|split; [|split; [|split; [|split]]]].
  - intros before after Heq.
    destruct (guarded_sound _ false (Chan_handleConn_guarded c dial healthyServers lb)
                before after Heq) as [H|H]; [discriminate | exact H].
  - apply Chan_chooseRemote_picks.
  - intros n Hne Hc Hmax.
    destruct (Chan_chooseRemoteTimes_roundRobin n lb Hne Hc Hmax) as [t Ht].
    rewrite Ht. split; reflexivity.
  - apply Chan_chooseRemote_asFallback.
  - apply Chan_chooseRemote_asFallback.
  - split.
    + intros [s H]. apply Chan_chooseRemote_error. eauto.
    + intros E. exists "".
      unfold Chan.chooseRemote, outcomeOf. unfold_run. simpl. rewrite E. reflexivity.
Qed.

Lemma fallback_selection_witness :
  Chan.RemoteServers (Chan.newLb threeServers) <> []
  /\ 0 <= Chan.rrCounter (Chan.newLb threeServers)
  /\ Chan.rrCounter (Chan.newLb threeServers) + Z.of_nat 4 <= int_max
  /\ outcomeOf (Chan.chooseRemoteTimes 4 (Chan.newLb threeServers))
     = Done ["10.0.0.102:6443"; "10.0.0.103:6443"; "10.0.0.101:6443";
             "10.0.0.102:6443"]
  /\ Chan.rrCounter (stateOf (Chan.chooseRemoteTimes 4 (Chan.newLb threeServers)))
     = 5.
Proof.
  assert (H1 : Chan.RemoteServers (Chan.newLb threeServers) <> []) by discriminate.
  assert (H2 : 0 <= Chan.rrCounter (Chan.newLb threeServers))
    by (vm_compute; discriminate).
  assert (H3 : Chan.rrCounter (Chan.newLb threeServers) + Z.of_nat 4 <= int_max)
    by (vm_compute; discriminate).
  split; [exact H1|]. split; [exact H2|]. split; [exact H3|].
  destruct (proj1 (proj2 (proj2 (fallback_selection None refused []
                                   (Chan.newLb threeServers)))) 4%nat H1 H2 H3)
    as [Ho Hs].
  split; [rewrite Ho; reflexivity | rewrite Hs; reflexivity].
Defined.

(** With nothing healthy and three servers configured, the fallback picks
    among the configured servers; with nothing configured both selections
    fail and the connection is dropped without a dial. *)
Lemma fallback_examples :
  outcomeOf (Chan.chooseRemote (Chan.newLb threeServers))
  = Done ("10.0.0.102:6443", None)
  /\ traceOf (Chan.handleConn (Some 1%nat) refused [] (Chan.newLb noServers))
     = [EvCall "chooseHealthyRemote";
        EvReturn "chooseHealthyRemote" (Some NoHealthyBackends);
        EvLog "Error selecting healthy server: %s\n" [errorString NoHealthyBackends];
        EvCall "chooseRemote";
        EvReturn "chooseRemote" (Some NoBackendsConfigured);
        EvLog "Error selecting server: %s\n" [errorString NoBackendsConfigured]].
Proof. split; reflexivity. Qed.

(** ** The monitor *)

Lemma healthy_200 (r : httpResult) : healthy r = true <-> r = httpResp 200.
Proof.
  destruct r as [err|code]; simpl; split; intros H; try discriminate.
  - apply Z.eqb_eq in H. now subst.
  - injection H as ->. reflexivity.
Qed.

(** A server passes when the probe at its position returns status 200
    without error. *)
Lemma passing_In (get : nat -> httpResult) (servers : list string) :
  forall (i : nat) (server : string),
    In server (passing get i servers)
    <-> exists k, nth_error servers k = Some server
                  /\ get (i + k)%nat = httpResp 200.
Proof.
  induction servers as [|s rest IH]; intros i server; simpl.
  - split; [tauto|]. intros [k [H _]]. destruct k; discriminate.
  - split.
    + intros H. destruct (healthy (get i)) eqn:Hh.
      * destruct H as [H|H].
        -- subst. exists 0%nat. rewrite Nat.add_0_r. split; [reflexivity|].
           now apply healthy_200.
        -- apply IH in H. destruct H as [k [Hk Hg]]. exists (S k).
           rewrite Nat.add_succ_r. auto.
      * apply IH in H. destruct H as [k [Hk Hg]]. exists (S k).
        rewrite Nat.add_succ_r. auto.
    + intros [k [Hk Hg]]. destruct k as [|k].
      * simpl in Hk. injection Hk as ->. rewrite Nat.add_0_r in Hg.
        apply healthy_200 in Hg. rewrite Hg. now left.
      * simpl in Hk. rewrite Nat.add_succ_r in Hg.
        assert (In server (passing get (S i) rest)) by (apply IH; eauto).
        destruct (healthy (get i)); [now right | assumption].
Qed.

(** The passing servers are among the probed ones. *)
Lemma passing_incl (get : nat -> httpResult) (servers : list string) (i : nat) :
  incl (passing get i servers) servers.
Proof.
  intros server H. apply passing_In in H. destruct H as [k [Hk _]].
  eapply nth_error_In; eauto.
Qed.

Lemma probesWith_app c t1 t2 :
  probesWith c t1 -> probesWith c t2 -> probesWith c (t1 ++ t2).
Proof.
  intros H1 H2 c' url H. apply in_app_or in H. destruct H; eauto.
Qed.

(** The loop of [startHealthChecks] returns the passing servers, appended
    to what it started with, leaves the state alone and probes with the
    client it is given, provided its else branch does no more than log. *)
Lemma rangeProbe_passing {St : Type} (c : http_Client) (get : nat -> httpResult)
  (otherwise : string -> httpResult -> M St unit) :
  (forall server r st, exists t,
      otherwise server r st = (t, st, Done tt) /\ probesWith c t) ->
  forall servers i acc st,
  exists t,
    rangeProbe c get otherwise i servers acc st
    = (t, st, Done (acc ++ passing get i servers))
    /\ probesWith c t.
Proof.
  intros Hother. induction servers as [|server rest IH]; intros i acc st.
  - exists []. simpl. rewrite app_nil_r. split; [reflexivity|].
    intros c' url [].
  - cbn [rangeProbe passing]. unfold bind at 1. unfold emit at 1.
    destruct (healthy (get i)).
    + destruct (IH (S i) (acc ++ [server]) st) as [t [Ht Hp]].
      rewrite Ht. exists ([EvHttpGet c (healthzUrl server)] ++ t).
      rewrite <- app_assoc. split; [reflexivity|].
      apply probesWith_app; [|assumption].
      intros c' url [H|[]]. now injection H as <- _.
    + destruct (Hother server (get i) st) as [t1 [Ht1 Hp1]].
      destruct (IH (S i) acc st) as [t [Ht Hp]].
      unfold bind. rewrite Ht1, Ht.
      exists ([EvHttpGet c (healthzUrl server)] ++ t1 ++ t).
      split; [reflexivity|].
      apply probesWith_app; [|apply probesWith_app; assumption].
      intros c' url [H|[]]. now injection H as <- _.
Qed.

(** The two else branches do no more than log. *)
Lemma logUnhealthy_quiet {St : Type} (c : http_Client) (server : string)
  (r : httpResult) (st : St) :
  exists t, logUnhealthy server r st = (t, st, Done tt) /\ probesWith c t.
Proof.
  eexists. split; [reflexivity|]. intros c' url [H|[]]. discriminate.
Qed.

Lemma silent_quiet {St : Type} (c : http_Client) (server : string)
  (r : httpResult) (st : St) :
  exists t, (fun (_ : string) (_ : httpResult) => @ret St unit tt) server r st
            = (t, st, Done tt) /\ probesWith c t.
Proof.
  exists []. split; [reflexivity|]. intros c' url [].
Qed.

(** A tick of src/main.go replaces the healthy servers by the passing ones;
    all its probes go through [http.DefaultClient]. *)
Lemma Plain_healthCheckTick_publishes get lb :
  exists t,
    Plain.healthCheckTick get lb
    = (t, Plain.set_HealthyServers (passing get 0 (Plain.RemoteServers lb)) lb, Done tt)
    /\ probesWith DefaultClient t.
Proof.
  destruct (rangeProbe_passing DefaultClient get (fun _ _ => ret tt)
              (silent_quiet DefaultClient) (Plain.RemoteServers lb) 0%nat [] lb)
    as [t [Ht Hp]].
  unfold Plain.healthCheckTick. unfold bind, gets. rewrite Ht.
  simpl. eexists. split; [reflexivity|].
  apply probesWith_app; [assumption|].
  intros c' url H. simpl in H. intuition discriminate.
Qed.

(** A tick of the lock revision that finds the lock free replaces the healthy
    servers by the passing ones and leaves the lock free; all its probes go
    through the client of the load balancer. *)
Lemma Locked_healthCheckTick_publishes get lb :
  lockFree lb = true ->
  exists t,
    Locked.healthCheckTick get lb
    = (t, Locked.set_HealthyServers (passing get 0 (Locked.RemoteServers lb)) lb, Done tt)
    /\ probesWith (Locked.httpClient lb) t.
Proof.
  intros Hfree. apply lockFree_true in Hfree.
  destruct (rangeProbe_passing (Locked.httpClient lb) get logUnhealthy
              (logUnhealthy_quiet (Locked.httpClient lb))
              (Locked.RemoteServers lb) 0%nat [] lb)
    as [t [Ht Hp]].
  unfold Locked.healthCheckTick, Locked.Lock, Locked.Unlock.
  unfold bind, gets. rewrite Ht. rewrite Hfree. simpl.
  eexists. split.
  - f_equal. f_equal. destruct lb as [a b c l e f g]. simpl in *. subst l.
    reflexivity.
  - apply probesWith_app; [assumption|].
    intros c' url H. simpl in H. intuition discriminate.
Qed.

(** The loop of the monitor has no exit. *)
Lemma Locked_startHealthChecks_never_returns (ticks : list (nat -> httpResult)) :
  forall (lb : Locked.apiServerLb) (r : unit),
    outcomeOf (Locked.startHealthChecks ticks lb) <> Done r.
Proof.
  induction ticks as [|get rest IH]; intros lb r; cbn [Locked.startHealthChecks].
  - discriminate.
  - apply bind_never_returns. intros _ lb' r'. apply IH.
Qed.

(** C4 (failing input). One tick of src/main.go on three servers that all
    answer 200: every probe is issued with [http.DefaultClient], which
    validates certificates and has no timeout. *)
Theorem plain_probe_uses_default_client :
  let r := Plain.healthCheckTick allUp (Plain.newLb threeServers) in
  traceOf r
  = [EvHttpGet DefaultClient "https://10.0.0.101:6443/healthz";
     EvHttpGet DefaultClient "https://10.0.0.102:6443/healthz";
     EvHttpGet DefaultClient "https://10.0.0.103:6443/healthz";
     EvSleep (30 * Second)]
  /\ skipsCertValidation DefaultClient = false
  /\ enforcesTimeout DefaultClient = false
  /\ Plain.HealthyServers (stateOf r) = KubeApiServers threeServers.
Proof. repeat split; vm_compute; reflexivity. Qed.

(** In the lock revision the probes go through the client of [main], which
    skips certificate validation and has a timeout of five seconds; a server
    is published exactly when its probe returns status 200 without error, and
    the published slice takes the place of the old one. *)
Lemma Locked_tick_publishes_passing (get : nat -> httpResult)
  (lb : Locked.apiServerLb) :
  lockFree lb = true -> Locked.httpClient lb = client ->
  let r := Locked.healthCheckTick get lb in
  probesWith client (traceOf r)
  /\ skipsCertValidation client = true
  /\ enforcesTimeout client = true
  /\ Locked.HealthyServers (stateOf r) = passing get 0 (Locked.RemoteServers lb)
  /\ forall server,
       In server (Locked.HealthyServers (stateOf r))
       <-> exists k, nth_error (Locked.RemoteServers lb) k = Some server
                     /\ get k = httpResp 200.
Proof.
  intros Hfree Hc r.
  destruct (Locked_healthCheckTick_publishes get lb Hfree) as [t [Ht Hp]].
  subst r. rewrite Ht. unfold traceOf, stateOf. simpl. rewrite <- Hc.
  repeat split; try assumption; try (rewrite Hc; reflexivity).
  - intros H. apply passing_In in H. exact H.
  - intros H. apply passing_In. exact H.
Qed.

(** ** A selection behind the waiting monitor *)

(** A tick that does not find the lock free, no writer holding it, waits in
    [Lock], announced, and changes nothing else. *)
Lemma Locked_healthCheckTick_waits (get : nat -> httpResult) (lb : Locked.apiServerLb) :
  lockFree lb = false ->
  Locked.writer (Locked.HealthyServersLock lb) = false ->
  stateOf (Locked.healthCheckTick get lb)
  = Locked.set_HealthyServersLock
      {| Locked.readers := Locked.readers (Locked.HealthyServersLock lb);
         Locked.writer := false; Locked.writerPending := true |} lb
  /\ outcomeOf (Locked.healthCheckTick get lb) = Parked onLock.
Proof.
  intros Hbusy Hw. unfold lockFree, writerFree in Hbusy.
  destruct (rangeProbe_passing (Locked.httpClient lb) get logUnhealthy
              (logUnhealthy_quiet (Locked.httpClient lb))
              (Locked.RemoteServers lb) 0%nat [] lb) as [t [Ht Hp]].
  unfold Locked.healthCheckTick, Locked.Lock, stateOf, outcomeOf.
  unfold_run. rewrite Ht.
  destruct lb as [a b hs [r w p] c rules cl]. simpl in *. subst w.
  destruct p; [split; reflexivity|].
  destruct r as [|r]; [discriminate|]. split; reflexivity.
Qed.

(** C2 (failing input). The lock revision as [main] builds it, for every
    configuration and whatever the probes answer: a first selection on the
    empty healthy set returns the error and leaves its reader on the lock;
    the next turn of the monitor waits in [Lock] behind that reader and
    publishes nothing. The state is one the program reaches, its healthy
    servers are empty, and the selection called in it waits in [RLock]
    behind the waiting writer: it records no return and returns nothing,
    the error included. *)
Theorem empty_selection_waits_behind_leaked_lock (config : Configuration)
  (get : nat -> httpResult) :
  let first := Locked.chooseRemote (Locked.newLb config) in
  let tick := Locked.healthCheckTick get (stateOf first) in
  let second := Locked.chooseRemote (stateOf tick) in
  outcomeOf first = Done ("", Some NoHealthyBackends)
  /\ Locked.reachable config (stateOf tick)
  /\ Locked.HealthyServers (stateOf tick) = []
  /\ second = ([EvCall "chooseRemote"], stateOf tick, Parked onLock)
  /\ (forall r, outcomeOf second <> Done r).
Proof.
  intros first tick second.
  assert (Hfirst : first
                   = ([EvCall "chooseRemote"; EvRLock;
                       EvReturn "chooseRemote" (Some NoHealthyBackends)],
                      Locked.set_HealthyServersLock
                        {| Locked.readers := 1; Locked.writer := false;
                           Locked.writerPending := false |}
                        (Locked.newLb config),
                      Done ("", Some NoHealthyBackends))) by reflexivity.
  assert (Htick : stateOf tick
                  = Locked.set_HealthyServersLock
                      {| Locked.readers := 1; Locked.writer := false;
                         Locked.writerPending := true |}
                      (Locked.newLb config)).
  { subst tick. rewrite Hfirst. unfold stateOf at 2. cbn [fst snd].
    rewrite (proj1 (Locked_healthCheckTick_waits get
               (Locked.set_HealthyServersLock
                  {| Locked.readers := 1; Locked.writer := false;
                     Locked.writerPending := false |}
                  (Locked.newLb config)) eq_refl eq_refl)).
    reflexivity. }
  assert (Hsecond : second = ([EvCall "chooseRemote"], stateOf tick, Parked onLock)).
  { subst second. rewrite Htick. reflexivity. }
  split; [reflexivity|]. split.
  - apply Locked.reach_step with (lb := stateOf first).
    + apply Locked.reach_step with (lb := Locked.newLb config).
      * apply Locked.reach_new.
      * apply Locked.step_choose.
    + apply Locked.step_tick.
  - split; [rewrite Htick; reflexivity|].
    split; [exact Hsecond|].
    intros r. rewrite Hsecond. discriminate.
Qed.

(** ** Forwarding *)

(** In the lock revision a copy direction always returns: whatever [io.Copy]
    and the two [Close] calls answer, it closes the reader and then the
    writer, logs every error and neither exits nor panics. *)
Lemma Locked_copyConn_closes_both {St : Type} (copyRes : option error)
  (closeRes : conn -> option error) (writer reader : conn) (st : St) :
  let r := Locked.copyConn copyRes closeRes writer reader st in
  outcomeOf r = Done tt
  /\ stateOf r = st
  /\ In (EvClose writer) (traceOf r)
  /\ In (EvClose reader) (traceOf r)
  /\ (forall err, copyRes = Some err ->
                  In (EvLog "io.Copy error: %s" [errorString err]) (traceOf r))
  /\ (forall c err, (c = writer \/ c = reader) -> closeRes c = Some err ->
                    In (EvLog "Error closing socket: %s" [errorString err]) (traceOf r))
  /\ (forall format args, ~ In (EvFatal format args) (traceOf r)).
Proof.
  unfold Locked.copyConn, Locked.CloseAndLog, outcomeOf, stateOf, traceOf.
  destruct copyRes as [e|];
    destruct (closeRes reader) as [er|] eqn:Er;
    destruct (closeRes writer) as [ew|] eqn:Ew;
    unfold_run; simpl; rewrite ?Er, ?Ew; simpl;
    (repeat split;
     [ tauto | tauto
     | intros err H; try discriminate; injection H as <-; tauto
     | intros c err [H|H] Hc; subst c; rewrite ?Er, ?Ew in Hc;
       try discriminate; injection Hc as <-; tauto
     | intros format args H; intuition discriminate ]).
Qed.

(** [forward] starts the two directions and returns nothing. *)
Lemma Locked_forward_returns {St : Type} (localConn remoteConn : conn) (st : St) :
  Locked.forward localConn remoteConn st
  = ([EvGo (goCopyConn localConn remoteConn); EvGo (goCopyConn remoteConn localConn)],
     st, Done tt).
Proof. reflexivity. Qed.

(** In src/main.go a copy direction whose [io.Copy] fails exits the process
    and closes nothing, whatever the error. *)
Lemma Plain_copyConn_fatal {St : Type} (err : error)
  (closeRes : conn -> option error) (writer reader : conn) (st : St) :
  Plain.copyConn (Some err) closeRes writer reader st
  = ([EvCopy writer reader; EvFatal "io.Copy error: %s" [errorString err]],
     st, Exited 1).
Proof. reflexivity. Qed.

(** C5 (failing input). A copy direction of src/main.go whose [io.Copy]
    returns an error: the error goes to [log.Fatalf], the process exits with
    status 1. The same holds for an error of [writer.Close()]. *)
Theorem plain_copyConn_exits_on_error :
  let reset := netError "read: connection reset by peer" in
  let closed := netError "close: use of closed network connection" in
  Plain.copyConn (Some reset) (fun _ => None) 1%nat 2%nat tt
  = ([EvCopy 1%nat 2%nat; EvFatal "io.Copy error: %s" [errorString reset]], tt, Exited 1)
  /\ Plain.copyConn None (fun _ => Some closed) 1%nat 2%nat tt
     = ([EvCopy 1%nat 2%nat; EvClose 1%nat; EvFatal "writer.Close error: %s" [errorString closed]],
        tt, Exited 1).
Proof. split; reflexivity. Qed.

(** C6 (failing input). A copy direction of src/main.go from connection 2 to
    connection 1: after end-of-stream it closes its writer only, the reader
    stays open; after an error of [io.Copy] it closes nothing. *)
Theorem plain_copyConn_leaves_reader_open :
  let reset := netError "read: connection reset by peer" in
  traceOf (Plain.copyConn None (fun _ => None) 1%nat 2%nat tt)
  = [EvCopy 1%nat 2%nat; EvClose 1%nat]
  /\ ~ In (EvClose 2%nat) (traceOf (Plain.copyConn None (fun _ => None) 1%nat 2%nat tt))
  /\ (forall c, ~ In (EvClose c)
                   (traceOf (Plain.copyConn (Some reset) (fun _ => None) 1%nat 2%nat tt))).
Proof.
  repeat split; try reflexivity.
  - simpl. intuition discriminate.
  - intros c. simpl. intuition discriminate.
Qed.

(** ** Pruning after a failed dial *)

Lemma rangeRemove_incl (servers : list string) (remote : string) :
  incl (rangeRemove servers remote []) servers.
Proof. intros s H. now apply rangeRemove_In in H. Qed.

(** With the lock free, [removeHealthyRemote] replaces the healthy servers by
    those other than [remote]. *)
Lemma Locked_removeHealthyRemote_prunes (remote : string) (lb : Locked.apiServerLb) :
  lockFree lb = true ->
  Locked.removeHealthyRemote remote lb
  = ([EvLock; EvUnlock],
     Locked.set_HealthyServers (rangeRemove (Locked.HealthyServers lb) remote []) lb,
     Done tt).
Proof.
  intros Hfree. apply lockFree_true in Hfree.
  unfold Locked.removeHealthyRemote, Locked.Lock, Locked.Unlock.
  unfold_run. rewrite Hfree. simpl.
  destruct lb as [a b c l e f g]. simpl in *. subst l. reflexivity.
Qed.

(** Whatever the lock, [removeHealthyRemote] adds no server. *)
Lemma Locked_removeHealthyRemote_frame (remote : string) (lb : Locked.apiServerLb) :
  let lb' := stateOf (Locked.removeHealthyRemote remote lb) in
  Locked.RemoteServers lb' = Locked.RemoteServers lb
  /\ incl (Locked.HealthyServers lb') (Locked.HealthyServers lb).
Proof.
  unfold Locked.removeHealthyRemote, Locked.Lock, Locked.Unlock, stateOf.
  run_cases; split; auto using incl_refl, rangeRemove_incl.
Qed.

(** A server that [chooseRemote] returns is a healthy server. *)
Lemma Locked_chooseRemote_In (lb : Locked.apiServerLb) (s : string) :
  outcomeOf (Locked.chooseRemote lb) = Done (s, None) ->
  In s (Locked.HealthyServers lb).
Proof.
  unfold Locked.chooseRemote, Locked.RLock, Locked.RUnlock, outcomeOf.
  run_cases; intros H; try discriminate.
  injection H as <-. eapply nth_error_In; eauto.
Qed.

(** Handling a connection adds no healthy server and leaves the configured
    servers alone. *)
Lemma Locked_handleConn_frame (localConn : conn) (dial : string -> dialResult)
  (lb : Locked.apiServerLb) :
  let lb' := stateOf (Locked.handleConn localConn dial lb) in
  Locked.RemoteServers lb' = Locked.RemoteServers lb
  /\ incl (Locked.HealthyServers lb') (Locked.HealthyServers lb).
Proof.
  unfold Locked.handleConn, Locked.chooseRemote, Locked.removeHealthyRemote,
    Locked.RLock, Locked.RUnlock, Locked.Lock, Locked.Unlock, stateOf.
  run_cases; split; auto using incl_refl, rangeRemove_incl.
Qed.

(** A tick either waits for the lock and changes nothing, or publishes the
    passing servers. *)
Lemma Locked_healthCheckTick_frame (get : nat -> httpResult) (lb : Locked.apiServerLb) :
  let lb' := stateOf (Locked.healthCheckTick get lb) in
  Locked.RemoteServers lb' = Locked.RemoteServers lb
  /\ (Locked.HealthyServers lb' = Locked.HealthyServers lb
      \/ Locked.HealthyServers lb' = passing get 0 (Locked.RemoteServers lb)).
Proof.
  destruct (rangeProbe_passing (Locked.httpClient lb) get logUnhealthy
              (logUnhealthy_quiet (Locked.httpClient lb))
              (Locked.RemoteServers lb) 0%nat [] lb)
    as [t [Ht Hp]].
  unfold Locked.healthCheckTick, Locked.Lock, Locked.Unlock, stateOf.
  unfold_run. rewrite Ht.
  repeat (simpl; break_test); simpl; split; auto.
Qed.


(** In the lock revision, when the dial to the selected server fails, every
    occurrence of that server leaves the healthy servers at once, the lock is
    free again, and the next selection returns one of the others, or the
    error when none is left: the sibling that does what [Plain.handleConn]
    misses. *)
Lemma Locked_dial_failure_prunes (localConn : conn) (dial : string -> dialResult)
  (lb : Locked.apiServerLb) (remote : string) (e : error) :
  lockFree lb = true -> Locked.HealthyServers lb <> [] -> 0 <= Locked.rrCounter lb ->
  remote = nth (Z.to_nat (Locked.rrCounter lb mod len (Locked.HealthyServers lb)))
             (Locked.HealthyServers lb) "" ->
  dial remote = dialErr e ->
  let r := Locked.handleConn localConn dial lb in
  outcomeOf r = Done tt
  /\ In (EvDial remote) (traceOf r)
  /\ Locked.HealthyServers (stateOf r)
     = filter (fun server => negb (String.eqb server remote)) (Locked.HealthyServers lb)
  /\ ~ In remote (Locked.HealthyServers (stateOf r))
  /\ lockFree (stateOf r) = true
  /\ (forall s err, outcomeOf (Locked.chooseRemote (stateOf r)) = Done (s, err) ->
        (err = None /\ In s (Locked.HealthyServers lb) /\ s <> remote)
        \/ (err = Some NoHealthyBackends /\ Locked.HealthyServers (stateOf r) = [])).
Proof.
  intros Hfree Hne Hc Hremote Hdial r.
  assert (Hr : r = ([EvCall "chooseRemote"; EvRLock;
                     EvRem (Locked.rrCounter lb) (len (Locked.HealthyServers lb));
                     EvIndex (Locked.rrCounter lb mod len (Locked.HealthyServers lb))
                       (len (Locked.HealthyServers lb));
                     EvRUnlock; EvReturn "chooseRemote" None;
                     EvDial remote;
                     EvLog "Error trying to forward: %s\n" [errorString e];
                     EvLock; EvUnlock],
                    Locked.set_HealthyServers
                      (rangeRemove (Locked.HealthyServers lb) remote []) lb,
                    Done tt)).
  { subst r. unfold Locked.handleConn. unfold bind at 1.
    rewrite (Locked_chooseRemote_picks lb Hne Hc Hfree). rewrite <- Hremote.
    unfold bind at 1. unfold emit at 1. rewrite Hdial.
    unfold bind at 1. unfold logPrintf, emit at 1.
    rewrite (Locked_removeHealthyRemote_prunes remote lb Hfree). reflexivity. }
  rewrite rangeRemove_filter in Hr. cbn [app] in Hr.
  set (pruned := filter (fun server => negb (String.eqb server remote))
                   (Locked.HealthyServers lb)) in *.
  set (lb' := Locked.set_HealthyServers pruned lb) in *.
  assert (Hhs : Locked.HealthyServers lb' = pruned) by reflexivity.
  assert (Hfree' : lockFree lb' = true) by exact Hfree.
  assert (Hc' : Locked.rrCounter lb' = Locked.rrCounter lb) by reflexivity.
  clearbody lb'. rewrite Hr. unfold outcomeOf, traceOf, stateOf. cbn [fst snd].
  rewrite Hhs.
  assert (Hnot : ~ In remote pruned).
  { intros H. apply filter_In in H. destruct H as [_ H].
    rewrite String.eqb_refl in H. discriminate. }
  split; [reflexivity|]. split; [simpl; tauto|]. split; [reflexivity|].
  split; [exact Hnot|]. split; [exact Hfree'|].
  intros s err H.
  destruct pruned as [|x rest] eqn:E.
  - right. rewrite Locked_chooseRemote_empty in H.
    + injection H as _ <-. auto.
    + exact Hhs.
    + apply andb_true_iff in Hfree'. apply Hfree'.
  - left. rewrite Locked_chooseRemote_picks in H.
    + injection H as <- <-. split; [reflexivity|].
      assert (Hin : In (nth (Z.to_nat (Locked.rrCounter lb' mod len (Locked.HealthyServers lb')))
                          (Locked.HealthyServers lb') "") pruned).
      { rewrite E, <- Hhs. apply nth_In. rewrite Hhs.
        assert (Hpos : 0 < len (x :: rest)) by (apply len_pos; discriminate).
        pose proof (Z.mod_pos_bound (Locked.rrCounter lb') (len (x :: rest)) Hpos).
        unfold len in *. lia. }
      apply filter_In in Hin. destruct Hin as [Hin Hneq].
      split; [exact Hin|].
      now apply negb_true_iff, String.eqb_neq in Hneq.
    + rewrite Hhs. discriminate.
    + rewrite Hc'. exact Hc.
    + exact Hfree'.
Qed.

(** C7 (failing input). src/main.go after a tick in which the first two of
    three servers are up: the selection returns the second server, the dial
    to it fails, the healthy servers are as before and the next selection
    returns the same server again. *)
Theorem plain_dial_failure_keeps_backend :
  let lb := stateOf (Plain.healthCheckTick firstTwoUp (Plain.newLb threeServers)) in
  let r := Plain.handleConn 1%nat refused lb in
  Plain.HealthyServers lb = ["10.0.0.101:6443"; "10.0.0.102:6443"]
  /\ In (EvDial "10.0.0.102:6443") (traceOf r)
  /\ outcomeOf r = Done tt
  /\ Plain.HealthyServers (stateOf r) = ["10.0.0.101:6443"; "10.0.0.102:6443"]
  /\ outcomeOf (Plain.chooseRemote (stateOf r)) = Done ("10.0.0.102:6443", None).
Proof. repeat split; vm_compute; auto 10. Qed.

(** ** The healthy servers are configured servers *)

(** C8. In every state the lock revision can reach from the load balancer
    [main] builds (by ticks of the monitor, handled connections, and calls of
    [chooseRemote] and [removeHealthyRemote]), every healthy server is a
    configured server, and the configured servers are those of the
    configuration. *)
Theorem healthy_subset_of_configured (config : Configuration)
  (lb : Locked.apiServerLb) :
  Locked.reachable config lb ->
  incl (Locked.HealthyServers lb) (Locked.RemoteServers lb)
  /\ Locked.RemoteServers lb = KubeApiServers config.
Proof.
  induction 1 as [|lb lb' Hreach [IHincl IHcfg] Hstep].
  - split; [intros s []|reflexivity].
  - destruct Hstep as [get|localConn dial| |remote].
    + destruct (Locked_healthCheckTick_frame get lb) as [Hr [Hh|Hh]];
        rewrite Hr, Hh; split; auto using passing_incl.
    + destruct (Locked_handleConn_frame localConn dial lb) as [Hr Hh].
      rewrite Hr. split; [|assumption]. eapply incl_tran; eauto.
    + destruct (Locked_chooseRemote_frame lb) as [Hh [Hr _]].
      rewrite Hr, Hh. auto.
    + destruct (Locked_removeHealthyRemote_frame remote lb) as [Hr Hh].
      rewrite Hr. split; [|assumption]. eapply incl_tran; eauto.
Qed.

Lemma healthy_subset_of_configured_witness :
  Locked.reachable threeServers
    (stateOf (Locked.handleConn 1%nat refused
       (stateOf (Locked.healthCheckTick firstTwoUp (Locked.newLb threeServers)))))
  /\ incl ["10.0.0.101:6443"] (KubeApiServers threeServers)
  /\ KubeApiServers threeServers = KubeApiServers threeServers.
Proof.
  assert (H : Locked.reachable threeServers
                (stateOf (Locked.handleConn 1%nat refused
                   (stateOf (Locked.healthCheckTick firstTwoUp
                               (Locked.newLb threeServers)))))).
  { eapply Locked.reach_step; [|apply Locked.step_conn].
    eapply Locked.reach_step; [apply Locked.reach_new | apply Locked.step_tick]. }
  split; [exact H|].
  exact (healthy_subset_of_configured threeServers _ H).
Defined.

(** ** What ends [Start] *)

(** The [for { select }] loop of the channel revision has no exit. *)
Lemma Chan_selectLoop_never_returns (inputs : list Chan.selected) :
  forall (healthyServers : list string) (lb : Chan.apiServerLb) (r : option error),
    outcomeOf (Chan.selectLoop inputs healthyServers lb) <> Done r.
Proof.
  induction inputs as [|input rest IH]; intros healthyServers lb r.
  - discriminate.
  - destruct input as [c dial|servers]; cbn [Chan.selectLoop].
    + apply bind_never_returns. intros a s' b. apply IH.
    + apply IH.
Qed.

(** Once the listener is bound, [Start] of the channel revision returns for
    no input: neither a value nor an error. *)
Lemma Chan_Start_never_returns (inputs : list Chan.selected)
  (lb : Chan.apiServerLb) (r : option error) :
  outcomeOf (Chan.Start listenOk inputs lb) <> Done r.
Proof.
  unfold Chan.Start.
  apply bind_never_returns. intros _ s1 b1.
  apply bind_never_returns. intros hs s2 b2.
  apply bind_never_returns. intros _ s3 b3.
  unfold bind, outcomeOf.
  pose proof (Chan_selectLoop_never_returns inputs hs s3) as H.
  unfold outcomeOf in H.
  destruct (Chan.selectLoop inputs hs s3) as [[t s'] [a|p|c|w]]; simpl;
    try discriminate.
  exfalso. exact (H a eq_refl).
Qed.

(** [acceptAsChan] sends one value for every answer of [Accept], a nil
    connection for an error, and never returns. *)
Lemma Chan_acceptAsChan_never_returns (accepts : list acceptResult) :
  forall sent : list (option conn),
    outcomeOf (Chan.acceptAsChan accepts sent) = Parked onAccept
    /\ stateOf (Chan.acceptAsChan accepts sent) = sent ++ map sentFor accepts.
Proof.
  induction accepts as [|a rest IH]; intros sent.
  - simpl. rewrite app_nil_r. split; reflexivity.
  - destruct a as [err|c]; cbn [Chan.acceptAsChan map sentFor].
    + unfold_run. destruct (IH (sent ++ [None])) as [Ho Hs].
      unfold outcomeOf, stateOf in *.
      destruct (Chan.acceptAsChan rest (sent ++ [None])) as [[t s] o].
      simpl in *. subst. rewrite <- app_assoc. split; reflexivity.
    + unfold_run. destruct (IH (sent ++ [Some c])) as [Ho Hs].
      unfold outcomeOf, stateOf in *.
      destruct (Chan.acceptAsChan rest (sent ++ [Some c])) as [[t s] o].
      simpl in *. subst. rewrite <- app_assoc. split; reflexivity.
Qed.

(** In the lock revision [Start] returns the error of [net.Listen]. *)
Lemma Locked_Start_listen_error (err : error)
  (inputs : list (acceptResult * (string -> dialResult))) (lb : Locked.apiServerLb) :
  Locked.Start (listenErr err) inputs lb
  = ([EvGo goStartHealthChecks], lb, Done (Some err)).
Proof. reflexivity. Qed.

(** In the lock revision [Start] returns the error of [Accept], after the
    deferred [listener.Close()]. *)
Lemma Locked_Start_accept_error (err : error) (dial : string -> dialResult)
  (rest : list (acceptResult * (string -> dialResult))) (lb : Locked.apiServerLb) :
  Locked.Start listenOk ((acceptErr err, dial) :: rest) lb
  = ([EvGo goStartHealthChecks;
      EvLog "Error accepting connections in lb : %s" [errorString err];
      EvListenerClose], lb, Done (Some err)).
Proof. reflexivity. Qed.

(** With the lock free, handling a connection returns whatever selection and
    dial answer. *)
Lemma Locked_handleConn_returns (localConn : conn) (dial : string -> dialResult)
  (lb : Locked.apiServerLb) :
  lockFree lb = true -> 0 <= Locked.rrCounter lb ->
  outcomeOf (Locked.handleConn localConn dial lb) = Done tt.
Proof.
  intros Hfree Hc. unfold Locked.handleConn.
  destruct (Locked.HealthyServers lb) as [|x rest] eqn:E.
  - unfold bind at 1. rewrite Locked_chooseRemote_empty; [reflexivity|exact E|].
    apply andb_true_iff in Hfree. apply Hfree.
  - unfold bind at 1. rewrite Locked_chooseRemote_picks;
      [|rewrite E; discriminate|exact Hc|exact Hfree].
    unfold bind at 1. unfold emit at 1.
    destruct (dial _) as [e|remoteConn].
    + unfold bind at 1. unfold logPrintf, emit at 1.
      rewrite Locked_removeHealthyRemote_prunes by exact Hfree. reflexivity.
    + reflexivity.
Qed.

(** Hence the accept loop goes on with the next connection after a failed
    selection or dial: the sibling that does what [Chan.acceptAsChan]
    misses. *)
Lemma Locked_acceptLoop_continues (localConn : conn) (dial : string -> dialResult)
  (rest : list (acceptResult * (string -> dialResult))) (lb : Locked.apiServerLb) :
  lockFree lb = true -> 0 <= Locked.rrCounter lb ->
  outcomeOf (Locked.acceptLoop ((acceptOk localConn, dial) :: rest) lb)
  = outcomeOf (Locked.acceptLoop rest (stateOf (Locked.handleConn localConn dial lb))).
Proof.
  intros Hfree Hc. cbn [Locked.acceptLoop].
  pose proof (Locked_handleConn_returns localConn dial lb Hfree Hc) as H.
  unfold bind, outcomeOf, stateOf in *.
  destruct (Locked.handleConn localConn dial lb) as [[t s] o]. simpl in *. subst o.
  destruct (Locked.acceptLoop rest s) as [[t' s'] o']. reflexivity.
Qed.

(** C9 (failing input). The channel revision, [Accept] failing once:
    [acceptAsChan] logs, sends a nil connection and goes on accepting; [Start]
    receives the nil connection, selects and dials for it, and waits in
    [select] again. No error is returned. *)
Theorem accept_failure_does_not_end_Start :
  let failure := netError "accept tcp 127.0.0.1:6443: accept4: too many open files" in
  let acceptor := Chan.acceptAsChan [acceptErr failure] [] in
  let received := map (fun c => Chan.fromConnChan c refused) (stateOf acceptor) in
  let r := Chan.Start listenOk received (Chan.newLb threeServers) in
  traceOf acceptor
  = [EvLog "Error accepting connections in lb : %s" [errorString failure]]
  /\ stateOf acceptor = [None]
  /\ outcomeOf acceptor = Parked onAccept
  /\ outcomeOf r = Parked onSelect
  /\ In (EvDial "10.0.0.102:6443") (traceOf r).
Proof. repeat split; vm_compute; auto 20. Qed.

(** * Further properties *)

(** ** Selection and dialling in src/main.go *)

Lemma dialled_app (t1 t2 : list event) :
  dialled (t1 ++ t2) = dialled t1 ++ dialled t2.
Proof.
  induction t1 as [|e t1 IH]; [reflexivity|].
  destruct e; simpl; rewrite ?IH; reflexivity.
Qed.

(** An element read inside the bounds of a slice is an element of it. *)
Lemma nth_mod_In (hs : list string) (c : Z) :
  hs <> [] -> In (nth (Z.to_nat (c mod len hs)) hs "") hs.
Proof.
  intros Hne. destruct (len_pos hs Hne) as [_ Hpos].
  apply nth_In. pose proof (Z.mod_pos_bound c (len hs) Hpos).
  unfold len in *. lia.
Qed.

(** The run of [chooseRemote] of src/main.go on a counter that is not
    negative. *)
Lemma Plain_chooseRemote_run (lb : Plain.apiServerLb) :
  0 <= Plain.rrCounter lb ->
  Plain.chooseRemote lb
  = match Plain.HealthyServers lb with
    | [] =>
        ([EvCall "chooseRemote";
          EvReturn "chooseRemote" (Some (errorsNew "No remote servers are Healthy"))],
         lb, Done ("", Some (errorsNew "No remote servers are Healthy")))
    | _ :: _ =>
        ([EvCall "chooseRemote";
          EvRem (Plain.rrCounter lb) (len (Plain.HealthyServers lb));
          EvIndex (Plain.rrCounter lb mod len (Plain.HealthyServers lb))
            (len (Plain.HealthyServers lb));
          EvReturn "chooseRemote" None],
         lb,
         Done (nth (Z.to_nat (Plain.rrCounter lb mod len (Plain.HealthyServers lb)))
                 (Plain.HealthyServers lb) "", None))
    end.
Proof.
  intros Hc. destruct (Plain.HealthyServers lb) as [|x rest] eqn:E.
  - unfold Plain.chooseRemote. unfold_run. rewrite E. reflexivity.
  - assert (Hne : Plain.HealthyServers lb <> []) by (rewrite E; discriminate).
    destruct (len_pos _ Hne) as [Hz Hpos]. rewrite <- E.
    unfold Plain.chooseRemote, traced. cbv [bind emit gets]. rewrite Hz.
    rewrite rem_nonzero by lia. rewrite Z.rem_mod_nonneg by lia.
    rewrite index_in_range by (apply Z.mod_pos_bound; lia).
    reflexivity.
Qed.

(** X1. [chooseRemote] of src/main.go, the counter not negative: it leaves
    the load balancer as it is, counter included; on an empty healthy set it
    returns the error "No remote servers are Healthy"; otherwise it returns
    the healthy server at index [rrCounter mod len], so that a second call
    returns what the first returned. *)
Theorem Plain_chooseRemote_same_pick (lb : Plain.apiServerLb) :
  0 <= Plain.rrCounter lb ->
  stateOf (Plain.chooseRemote lb) = lb
  /\ Plain.chooseRemote (stateOf (Plain.chooseRemote lb)) = Plain.chooseRemote lb
  /\ (Plain.HealthyServers lb = [] ->
      outcomeOf (Plain.chooseRemote lb)
      = Done ("", Some (errorsNew "No remote servers are Healthy")))
  /\ (Plain.HealthyServers lb <> [] ->
      outcomeOf (Plain.chooseRemote lb)
      = Done (nth (Z.to_nat (Plain.rrCounter lb mod len (Plain.HealthyServers lb)))
                (Plain.HealthyServers lb) "", None)
      /\ In (nth (Z.to_nat (Plain.rrCounter lb mod len (Plain.HealthyServers lb)))
               (Plain.HealthyServers lb) "")
            (Plain.HealthyServers lb)).
Proof.
  intros Hc. pose proof (Plain_chooseRemote_run lb Hc) as Hrun.
  assert (Hs : stateOf (Plain.chooseRemote lb) = lb).
  { rewrite Hrun. destruct (Plain.HealthyServers lb); reflexivity. }
  split; [exact Hs|]. split; [now rewrite Hs|]. split.
  - intros E. rewrite Hrun, E. reflexivity.
  - intros Hne. split; [|apply nth_mod_In, Hne].
    rewrite Hrun. destruct (Plain.HealthyServers lb); [congruence|reflexivity].
Qed.

Lemma Plain_chooseRemote_same_pick_witness :
  0 <= Plain.rrCounter
         (stateOf (Plain.healthCheckTick firstTwoUp (Plain.newLb threeServers)))
  /\ outcomeOf (Plain.chooseRemote
                  (stateOf (Plain.healthCheckTick firstTwoUp (Plain.newLb threeServers))))
     = Done ("10.0.0.102:6443", None).
Proof.
  split; [vm_compute; discriminate|].
  refine (proj1 (proj2 (proj2 (proj2
    (Plain_chooseRemote_same_pick
       (stateOf (Plain.healthCheckTick firstTwoUp (Plain.newLb threeServers))) _))) _)).
  - vm_compute. discriminate.
  - vm_compute. discriminate.
Defined.

(** What handling one connection does in src/main.go: nothing is dialled on
    an empty healthy set, the picked server is dialled otherwise; the load
    balancer is as before. *)
Lemma Plain_handleConn_run (localConn : conn) (dial : string -> dialResult)
  (lb : Plain.apiServerLb) :
  0 <= Plain.rrCounter lb ->
  stateOf (Plain.handleConn localConn dial lb) = lb
  /\ outcomeOf (Plain.handleConn localConn dial lb) = Done tt
  /\ dialled (traceOf (Plain.handleConn localConn dial lb))
     = match Plain.HealthyServers lb with
       | [] => []
       | _ :: _ =>
           [nth (Z.to_nat (Plain.rrCounter lb mod len (Plain.HealthyServers lb)))
              (Plain.HealthyServers lb) ""]
       end.
Proof.
  intros Hc. unfold Plain.handleConn, bind.
  rewrite (Plain_chooseRemote_run lb Hc).
  destruct (Plain.HealthyServers lb) as [|x rest].
  - repeat split; reflexivity.
  - unfold emit, logPrintf.
    destruct (dial _) as [e|remoteConn]; repeat split; reflexivity.
Qed.

(** ** The counter of the channel revision *)

Lemma Chan_round_robin_witness :
  KubeApiServers threeServers <> []
  /\ 0 <= Chan.rrCounter (Chan.newLb threeServers)
  /\ Chan.rrCounter (Chan.newLb threeServers) + len (KubeApiServers threeServers)
     <= int_max
  /\ exists picks,
       outcomeOf (Chan.chooseTimes 3 (KubeApiServers threeServers)
                    (Chan.newLb threeServers)) = Done picks
       /\ Permutation picks (KubeApiServers threeServers).
Proof.
  assert (H1 : KubeApiServers threeServers <> []) by discriminate.
  assert (H2 : 0 <= Chan.rrCounter (Chan.newLb threeServers))
    by (vm_compute; discriminate).
  assert (H3 : Chan.rrCounter (Chan.newLb threeServers)
               + len (KubeApiServers threeServers) <= int_max)
    by (vm_compute; discriminate).
  split; [exact H1|]. split; [exact H2|]. split; [exact H3|].
  destruct (Chan_round_robin (KubeApiServers threeServers)
              (Chan.newLb threeServers) H1 H2 H3)
    as [picks [Ho [_ [Hperm _]]]].
  exists picks. split; [exact Ho | exact Hperm].
Defined.

(** X4. The counter of the channel revision at its bounds, on a slice that
    is not empty: at the largest [int] a call still picks and the counter
    becomes the smallest [int]; with a negative counter whose remainder by
    the length is not zero the read of the slice panics, and the counter is
    left as it is, so that every later call panics as well. *)
Theorem Chan_counter_overflow (hs : list string) (lb : Chan.apiServerLb) :
  hs <> [] ->
  (Chan.rrCounter lb = int_max ->
   outcomeOf (Chan.chooseHealthyRemote hs lb)
   = Done (nth (Z.to_nat (int_max mod len hs)) hs "", None)
   /\ Chan.rrCounter (stateOf (Chan.chooseHealthyRemote hs lb)) = int_min)
  /\ (Chan.rrCounter lb < 0 -> Z.rem (Chan.rrCounter lb) (len hs) <> 0 ->
      outcomeOf (Chan.chooseHealthyRemote hs lb)
      = Panicked (indexOutOfRange (Z.rem (Chan.rrCounter lb) (len hs)) (len hs))
      /\ stateOf (Chan.chooseHealthyRemote hs lb) = lb).
Proof.
  intros Hne. split.
  - intros Hmax.
    rewrite (Chan_chooseHealthyRemote_picks hs lb Hne)
      by (rewrite Hmax; unfold int_max; lia).
    rewrite Hmax. split; reflexivity.
  - intros Hneg Hrem. destruct (len_pos hs Hne) as [Hz Hpos].
    unfold Chan.chooseHealthyRemote, traced. rewrite Hz.
    cbv [bind emit gets]. rewrite rem_nonzero by lia.
    rewrite index_out_of_range.
    + split; reflexivity.
    + left. pose proof (Z.rem_nonpos (Chan.rrCounter lb) (len hs)). lia.
Qed.

Lemma Chan_counter_overflow_witness :
  KubeApiServers threeServers <> []
  /\ Chan.rrCounter (Chan.set_rrCounter int_min (Chan.newLb threeServers)) < 0
  /\ outcomeOf (Chan.chooseHealthyRemote (KubeApiServers threeServers)
                  (Chan.set_rrCounter int_min (Chan.newLb threeServers)))
     = Panicked (indexOutOfRange (-2) 3).
Proof.
  split; [discriminate|]. split; [reflexivity|].
  refine (proj1 (proj2 (Chan_counter_overflow (KubeApiServers threeServers)
            (Chan.set_rrCounter int_min (Chan.newLb threeServers)) _) _ _)).
  - discriminate.
  - reflexivity.
  - vm_compute. discriminate.
Defined.

(** ** What the accept loops dial *)

(** The trace, the state and the outcome of a run that goes on after a first
    part that returned. *)
Lemma bind_Done {St A B : Type} (m : M St A) (k : A -> M St B) (s s' : St)
  (t : list event) (a : A) :
  m s = (t, s', Done a) ->
  traceOf (bind m k s) = t ++ traceOf (k a s')
  /\ stateOf (bind m k s) = stateOf (k a s')
  /\ outcomeOf (bind m k s) = outcomeOf (k a s').
Proof.
  intros H. unfold bind, traceOf, stateOf, outcomeOf. rewrite H.
  destruct (k a s') as [[t' s''] o]. repeat split; reflexivity.
Qed.

(** The trace and the state of a run that stops in its first part. *)
Lemma bind_stops {St A B : Type} (m : M St A) (k : A -> M St B) (s : St) :
  (forall a, outcomeOf (m s) <> Done a) ->
  traceOf (bind m k s) = traceOf (m s) /\ stateOf (bind m k s) = stateOf (m s).
Proof.
  intros H. unfold bind, traceOf, stateOf, outcomeOf in *.
  destruct (m s) as [[t s'] [a|p|c|w]]; try (split; reflexivity).
  exfalso. exact (H a eq_refl).
Qed.

(** Handling a connection in the lock revision dials healthy servers only. *)
Lemma Locked_handleConn_dials_healthy (localConn : conn)
  (dial : string -> dialResult) (lb : Locked.apiServerLb) (remote : string) :
  In remote (dialled (traceOf (Locked.handleConn localConn dial lb))) ->
  In remote (Locked.HealthyServers lb).
Proof.
  unfold Locked.handleConn, Locked.chooseRemote, Locked.removeHealthyRemote,
    Locked.RLock, Locked.RUnlock, Locked.Lock, Locked.Unlock, traceOf.
  run_cases; intros H; try contradiction;
    destruct H as [<-|[]]; eapply nth_error_In; eauto.
Qed.

(** Handling a connection in the channel revision dials a server of the
    slice it is given or a configured server, leaves the configured servers
    alone and returns a slice that has no new server. *)
Lemma Chan_handleConn_dials (c : option conn) (dial : string -> dialResult)
  (hs : list string) (lb : Chan.apiServerLb) :
  (forall remote,
      In remote (dialled (traceOf (Chan.handleConn c dial hs lb))) ->
      In remote hs \/ In remote (Chan.RemoteServers lb))
  /\ Chan.RemoteServers (stateOf (Chan.handleConn c dial hs lb))
     = Chan.RemoteServers lb
  /\ forall hs', outcomeOf (Chan.handleConn c dial hs lb) = Done hs' -> incl hs' hs.
Proof.
  unfold Chan.handleConn, Chan.chooseHealthyRemote, Chan.chooseRemote,
    Chan.dialAndForward, Chan.incrCounter, Chan.removeHealthyRemote,
    traceOf, stateOf, outcomeOf.
  run_cases;
    (split; [|split; [reflexivity|]]);
    try (intros remote H; try contradiction; destruct H as [<-|[]];
         first [left; eapply nth_error_In; eassumption
               |right; eapply nth_error_In; eassumption]);
    try (intros hs' H; try discriminate; injection H as <-;
         first [apply incl_refl | apply rangeRemove_incl]).
Qed.

(** X6. The [select] loop of the channel revision: when the slice it starts
    with and every slice it receives from the monitor hold configured
    servers only, every address it dials is a configured server. *)
Theorem Chan_selectLoop_dials_configured (inputs : list Chan.selected) :
  forall (healthyServers : list string) (lb : Chan.apiServerLb),
    incl healthyServers (Chan.RemoteServers lb) ->
    (forall servers,
        In (Chan.fromHealthyServersChan servers) inputs ->
        incl servers (Chan.RemoteServers lb)) ->
    forall remote,
      In remote (dialled (traceOf (Chan.selectLoop inputs healthyServers lb))) ->
      In remote (Chan.RemoteServers lb).
Proof.
  induction inputs as [|[c dial|servers] rest IH];
    intros healthyServers lb Hhs Hup remote Hin.
  - destruct Hin.
  - cbn [Chan.selectLoop] in Hin.
    destruct (Chan_handleConn_dials c dial healthyServers lb) as [Hd [Hr Hv]].
    destruct (Chan.handleConn c dial healthyServers lb) as [[t s] o] eqn:E.
    unfold stateOf, traceOf, outcomeOf in Hd, Hr, Hv. cbn [fst snd] in Hd, Hr, Hv.
    destruct o as [hs'|p|x|w].
    + destruct (bind_Done (Chan.handleConn c dial healthyServers)
                  (fun hs'' => Chan.selectLoop rest hs'') lb s t hs' E) as [Ht _].
      rewrite Ht, dialled_app in Hin. apply in_app_or in Hin.
      destruct Hin as [Hin|Hin].
      * destruct (Hd remote Hin) as [H|H]; auto.
      * rewrite <- Hr. apply (IH hs' s); [| |exact Hin].
        -- rewrite Hr. eapply incl_tran; [apply Hv; reflexivity | exact Hhs].
        -- intros servers H. rewrite Hr. apply Hup. now right.
    + destruct (bind_stops (Chan.handleConn c dial healthyServers)
                  (fun hs'' => Chan.selectLoop rest hs'') lb) as [Ht _];
        [rewrite E; discriminate|].
      rewrite Ht, E in Hin. destruct (Hd remote Hin) as [H|H]; auto.
    + destruct (bind_stops (Chan.handleConn c dial healthyServers)
                  (fun hs'' => Chan.selectLoop rest hs'') lb) as [Ht _];
        [rewrite E; discriminate|].
      rewrite Ht, E in Hin. destruct (Hd remote Hin) as [H|H]; auto.
    + destruct (bind_stops (Chan.handleConn c dial healthyServers)
                  (fun hs'' => Chan.selectLoop rest hs'') lb) as [Ht _];
        [rewrite E; discriminate|].
      rewrite Ht, E in Hin. destruct (Hd remote Hin) as [H|H]; auto.
  - cbn [Chan.selectLoop] in Hin. apply (IH servers lb); [| |exact Hin].
    + apply Hup. now left.
    + intros servers' H. apply Hup. now right.
Qed.

Lemma Chan_selectLoop_dials_configured_witness :
  incl (KubeApiServers threeServers) (KubeApiServers threeServers)
  /\ In "10.0.0.102:6443"
        (dialled (traceOf (Chan.selectLoop
           [Chan.fromHealthyServersChan ["10.0.0.102:6443"];
            Chan.fromConnChan (Some 1%nat) refused]
           (KubeApiServers threeServers) (Chan.newLb threeServers))))
  /\ In "10.0.0.102:6443" (KubeApiServers threeServers).
Proof.
  assert (H : In "10.0.0.102:6443"
        (dialled (traceOf (Chan.selectLoop
           [Chan.fromHealthyServersChan ["10.0.0.102:6443"];
            Chan.fromConnChan (Some 1%nat) refused]
           (KubeApiServers threeServers) (Chan.newLb threeServers)))))
    by (vm_compute; auto).
  split; [apply incl_refl|]. split; [exact H|].
  refine (Chan_selectLoop_dials_configured _ _ (Chan.newLb threeServers)
            (incl_refl _) _ _ H).
  intros servers [Heq|[Heq|[]]]; [|discriminate].
  injection Heq as <-. intros s [<-|[]]. simpl. auto.
Defined.

(** The run of the fallback on a counter that is not negative. *)
Lemma Chan_chooseRemote_run (lb : Chan.apiServerLb) :
  Chan.RemoteServers lb <> [] -> 0 <= Chan.rrCounter lb ->
  Chan.chooseRemote lb =
    ([EvCall "chooseRemote";
      EvRem (Chan.rrCounter lb) (len (Chan.RemoteServers lb));
      EvIndex (Chan.rrCounter lb mod len (Chan.RemoteServers lb))
        (len (Chan.RemoteServers lb));
      EvIncr; EvReturn "chooseRemote" None],
     Chan.set_rrCounter (int_add (Chan.rrCounter lb) 1) lb,
     Done (nth (Z.to_nat (Chan.rrCounter lb mod len (Chan.RemoteServers lb)))
             (Chan.RemoteServers lb) "", None)).
Proof.
  intros Hne Hc. destruct (len_pos _ Hne) as [Hz Hpos].
  unfold Chan.chooseRemote, traced. cbv [bind emit gets]. rewrite Hz.
  rewrite rem_nonzero by lia.
  rewrite Z.rem_mod_nonneg by lia.
  rewrite index_in_range by (apply Z.mod_pos_bound; lia).
  reflexivity.
Qed.

(** X7. One connection in the channel revision, the counter not negative:
    the connection is sent to its target, the round-robin pick among the
    healthy servers or, when none is healthy, among the configured ones;
    exactly that one address is dialled and the counter goes up by one, or,
    with nothing healthy and nothing configured, nothing is dialled and the
    counter stays. When the dial fails the target leaves the slice that is
    returned, otherwise the slice is returned as it was. *)
Theorem Chan_handleConn_target (c : option conn) (dial : string -> dialResult)
  (healthyServers : list string) (lb : Chan.apiServerLb) :
  0 <= Chan.rrCounter lb ->
  match target healthyServers lb with
  | Some remote =>
      dialled (traceOf (Chan.handleConn c dial healthyServers lb)) = [remote]
      /\ stateOf (Chan.handleConn c dial healthyServers lb)
         = Chan.set_rrCounter (int_add (Chan.rrCounter lb) 1) lb
      /\ outcomeOf (Chan.handleConn c dial healthyServers lb)
         = Done (match dial remote with
                 | dialErr _ => Chan.removeHealthyRemote healthyServers remote
                 | dialOk _ => healthyServers
                 end)
  | None =>
      dialled (traceOf (Chan.handleConn c dial healthyServers lb)) = []
      /\ stateOf (Chan.handleConn c dial healthyServers lb) = lb
      /\ outcomeOf (Chan.handleConn c dial healthyServers lb) = Done healthyServers
  end.
Proof.
  intros Hc. unfold target, Chan.handleConn, bind.
  destruct healthyServers as [|x rest].
  - rewrite Chan_chooseHealthyRemote_empty. unfold logPrintf, emit.
    destruct (Chan.RemoteServers lb) as [|y rest'] eqn:E.
    + assert (Hrun : Chan.chooseRemote lb
                     = ([EvCall "chooseRemote";
                         EvReturn "chooseRemote" (Some NoBackendsConfigured)],
                        lb, Done ("", Some NoBackendsConfigured))).
      { unfold Chan.chooseRemote. unfold_run. rewrite E. reflexivity. }
      rewrite Hrun. repeat split; reflexivity.
    + rewrite <- E. rewrite Chan_chooseRemote_run by (rewrite ?E; auto; discriminate).
      unfold Chan.dialAndForward, bind, emit, logPrintf.
      destruct (dial _); repeat split; reflexivity.
  - rewrite Chan_chooseHealthyRemote_picks by (auto; discriminate).
    unfold Chan.dialAndForward, bind, emit, logPrintf.
    destruct (dial _); repeat split; reflexivity.
Qed.

Lemma Chan_handleConn_target_witness :
  0 <= Chan.rrCounter (Chan.newLb threeServers)
  /\ dialled (traceOf (Chan.handleConn (Some 1%nat) refused []
                         (Chan.newLb threeServers)))
     = ["10.0.0.102:6443"]
  /\ Chan.rrCounter (stateOf (Chan.handleConn (Some 1%nat) refused []
                                (Chan.newLb threeServers))) = 2.
Proof.
  assert (Hc : 0 <= Chan.rrCounter (Chan.newLb threeServers))
    by (vm_compute; discriminate).
  split; [exact Hc|].
  pose proof (Chan_handleConn_target (Some 1%nat) refused []
                (Chan.newLb threeServers) Hc) as H.
  assert (Ht : target [] (Chan.newLb threeServers) = Some "10.0.0.102:6443")
    by reflexivity.
  rewrite Ht in H. destruct H as [Hd [Hs _]].
  split; [exact Hd|]. rewrite Hs. reflexivity.
Defined.

(** ** The probes and the log of a tick *)

Lemma probed_app (t1 t2 : list event) : probed (t1 ++ t2) = probed t1 ++ probed t2.
Proof.
  induction t1 as [|e t1 IH]; [reflexivity|].
  destruct e; simpl; rewrite ?IH; reflexivity.
Qed.

Lemma loggedUnhealthy_app (t1 t2 : list event) :
  loggedUnhealthy (t1 ++ t2) = loggedUnhealthy t1 ++ loggedUnhealthy t2.
Proof.
  induction t1 as [|e t1 IH]; [reflexivity|].
  destruct e; cbn [app loggedUnhealthy]; try exact IH.
  destruct args as [|server args]; [exact IH|].
  destruct (String.eqb _ _); [|exact IH].
  cbn [app]. now rewrite IH.
Qed.

(** The loop of [startHealthChecks] sends one request per server, in the
    order of the list, to the [/healthz] URL of the server; what it logs is
    what its else branch logs for the failing servers. *)
Lemma rangeProbe_trace {St : Type} (c : http_Client) (get : nat -> httpResult)
  (otherwise : string -> httpResult -> M St unit) (logs : string -> list string) :
  (forall server r st, exists t,
      otherwise server r st = (t, st, Done tt)
      /\ probed t = [] /\ loggedUnhealthy t = logs server) ->
  forall servers i acc st,
  exists t,
    rangeProbe c get otherwise i servers acc st
    = (t, st, Done (acc ++ passing get i servers))
    /\ probed t = map healthzUrl servers
    /\ loggedUnhealthy t = flat_map logs (failing get i servers).
Proof.
  intros Hother. induction servers as [|server rest IH]; intros i acc st.
  - exists []. simpl. rewrite app_nil_r. repeat split; reflexivity.
  - cbn [rangeProbe passing failing]. unfold bind at 1. unfold emit at 1.
    destruct (healthy (get i)).
    + destruct (IH (S i) (acc ++ [server]) st) as [t [Ht [Hp Hl]]].
      rewrite Ht. exists ([EvHttpGet c (healthzUrl server)] ++ t).
      rewrite <- app_assoc. split; [reflexivity|].
      split; [simpl; now rewrite Hp | simpl; exact Hl].
    + destruct (Hother server (get i) st) as [t1 [Ht1 [Hp1 Hl1]]].
      destruct (IH (S i) acc st) as [t [Ht [Hp Hl]]].
      unfold bind. rewrite Ht1, Ht.
      exists ([EvHttpGet c (healthzUrl server)] ++ t1 ++ t).
      split; [reflexivity|]. split.
      * rewrite !probed_app, Hp1, Hp. reflexivity.
      * rewrite !loggedUnhealthy_app, Hl1, Hl. reflexivity.
Qed.

Lemma logUnhealthy_trace {St : Type} (server : string) (r : httpResult) (st : St) :
  exists t, logUnhealthy server r st = (t, st, Done tt)
            /\ probed t = [] /\ loggedUnhealthy t = [server].
Proof. eexists. repeat split; reflexivity. Qed.

Lemma silent_trace {St : Type} (server : string) (r : httpResult) (st : St) :
  exists t, (fun (_ : string) (_ : httpResult) => @ret St unit tt) server r st
            = (t, st, Done tt)
            /\ probed t = [] /\ loggedUnhealthy t = (fun _ => []) server.
Proof. exists []. repeat split; reflexivity. Qed.

Lemma flat_map_single (l : list string) : flat_map (fun s => [s]) l = l.
Proof. induction l as [|x l IH]; [reflexivity|]. simpl. now rewrite IH. Qed.

Lemma flat_map_none (l : list string) : flat_map (fun _ : string => @nil string) l = [].
Proof. induction l as [|x l IH]; [reflexivity|]. exact IH. Qed.

(** The ticks of the five revisions, as runs. *)
Lemma Fixed_tick_run (get : nat -> httpResult) (lb : Fixed.apiServerLb) :
  exists t,
    Fixed.healthCheckTick get lb
    = (t ++ [EvSleep (30 * Second)],
       Fixed.set_HealthyServers (passing get 0 (Fixed.RemoteServers lb)) lb, Done tt)
    /\ probed t = map healthzUrl (Fixed.RemoteServers lb)
    /\ loggedUnhealthy t = [].
Proof.
  destruct (rangeProbe_trace DefaultClient get (fun _ _ => ret tt) (fun _ => [])
              silent_trace (Fixed.RemoteServers lb) 0%nat [] lb) as [t [Ht [Hp Hl]]].
  exists t. unfold Fixed.healthCheckTick, bind, gets. rewrite Ht.
  rewrite flat_map_none in Hl. repeat split; assumption.
Qed.

Lemma Plain_tick_run (get : nat -> httpResult) (lb : Plain.apiServerLb) :
  exists t,
    Plain.healthCheckTick get lb
    = (t ++ [EvSleep (wrap (Period (Plain.healthCheckRules lb) * Second))],
       Plain.set_HealthyServers (passing get 0 (Plain.RemoteServers lb)) lb, Done tt)
    /\ probed t = map healthzUrl (Plain.RemoteServers lb)
    /\ loggedUnhealthy t = [].
Proof.
  destruct (rangeProbe_trace DefaultClient get (fun _ _ => ret tt) (fun _ => [])
              silent_trace (Plain.RemoteServers lb) 0%nat [] lb) as [t [Ht [Hp Hl]]].
  exists t. unfold Plain.healthCheckTick, bind, gets. rewrite Ht.
  rewrite flat_map_none in Hl. repeat split; assumption.
Qed.

Lemma Timed_tick_run (get : nat -> httpResult) (lb : Timed.apiServerLb) :
  exists t,
    Timed.healthCheckTick get lb
    = (t ++ [EvSleep (wrap (Period (Timed.healthCheckRules lb) * Second))],
       Timed.set_HealthyServers (passing get 0 (Timed.RemoteServers lb)) lb, Done tt)
    /\ probed t = map healthzUrl (Timed.RemoteServers lb)
    /\ loggedUnhealthy t = failing get 0 (Timed.RemoteServers lb)
    /\ probesWith (Timed.httpClient lb) t.
Proof.
  destruct (rangeProbe_trace (Timed.httpClient lb) get logUnhealthy (fun s => [s])
              logUnhealthy_trace (Timed.RemoteServers lb) 0%nat [] lb)
    as [t [Ht [Hp Hl]]].
  destruct (rangeProbe_passing (Timed.httpClient lb) get logUnhealthy
              (logUnhealthy_quiet (Timed.httpClient lb))
              (Timed.RemoteServers lb) 0%nat [] lb) as [t' [Ht' Hw]].
  assert (t' = t) by congruence. subst t'.
  exists t. unfold Timed.healthCheckTick, bind, gets. rewrite Ht.
  rewrite flat_map_single in Hl. repeat split; assumption.
Qed.

Lemma Chan_tick_run (get : nat -> httpResult) (lb : Chan.apiServerLb) :
  exists t,
    Chan.healthCheckTick get lb
    = (t, lb, Done (passing get 0 (Chan.RemoteServers lb)))
    /\ probed t = map healthzUrl (Chan.RemoteServers lb)
    /\ loggedUnhealthy t = failing get 0 (Chan.RemoteServers lb)
    /\ probesWith (Chan.httpClient lb) t.
Proof.
  destruct (rangeProbe_trace (Chan.httpClient lb) get logUnhealthy (fun s => [s])
              logUnhealthy_trace (Chan.RemoteServers lb) 0%nat [] lb)
    as [t [Ht [Hp Hl]]].
  destruct (rangeProbe_passing (Chan.httpClient lb) get logUnhealthy
              (logUnhealthy_quiet (Chan.httpClient lb))
              (Chan.RemoteServers lb) 0%nat [] lb) as [t' [Ht' Hw]].
  assert (t' = t) by congruence. subst t'.
  exists t. unfold Chan.healthCheckTick, bind, gets. rewrite Ht.
  rewrite flat_map_single in Hl. cbn [app].
  repeat split; assumption.
Qed.

(** In the lock revision the probes and the log come before [Lock]: they are
    the same whether the lock is free or not. *)
Lemma Locked_tick_probes (get : nat -> httpResult) (lb : Locked.apiServerLb) :
  probed (traceOf (Locked.healthCheckTick get lb))
  = map healthzUrl (Locked.RemoteServers lb)
  /\ loggedUnhealthy (traceOf (Locked.healthCheckTick get lb))
     = failing get 0 (Locked.RemoteServers lb).
Proof.
  destruct (rangeProbe_trace (Locked.httpClient lb) get logUnhealthy (fun s => [s])
              logUnhealthy_trace (Locked.RemoteServers lb) 0%nat [] lb)
    as [t [Ht [Hp Hl]]].
  rewrite flat_map_single in Hl.
  unfold Locked.healthCheckTick, Locked.Lock, Locked.Unlock, traceOf.
  unfold_run. rewrite Ht.
  repeat (simpl; break_test); simpl;
    rewrite ?probed_app, ?loggedUnhealthy_app, ?app_nil_r, Hp, Hl; simpl;
    rewrite ?app_nil_r; split; reflexivity.
Qed.

(** X8. In every revision a tick of the monitor sends exactly one request
    per configured server, in the order of the configuration, each to
    [https://<server>/healthz]; in the lock revision also when the lock is
    never obtained. *)
Theorem tick_probes_every_server_once (get : nat -> httpResult)
  (fixed : Fixed.apiServerLb) (plain : Plain.apiServerLb)
  (timed : Timed.apiServerLb) (locked : Locked.apiServerLb)
  (chan : Chan.apiServerLb) :
  probed (traceOf (Fixed.healthCheckTick get fixed))
  = map healthzUrl (Fixed.RemoteServers fixed)
  /\ probed (traceOf (Plain.healthCheckTick get plain))
     = map healthzUrl (Plain.RemoteServers plain)
  /\ probed (traceOf (Timed.healthCheckTick get timed))
     = map healthzUrl (Timed.RemoteServers timed)
  /\ probed (traceOf (Locked.healthCheckTick get locked))
     = map healthzUrl (Locked.RemoteServers locked)
  /\ probed (traceOf (Chan.healthCheckTick get chan))
     = map healthzUrl (Chan.RemoteServers chan).
Proof.
  destruct (Fixed_tick_run get fixed) as [t1 [H1 [P1 _]]].
  destruct (Plain_tick_run get plain) as [t2 [H2 [P2 _]]].
  destruct (Timed_tick_run get timed) as [t3 [H3 [P3 _]]].
  destruct (Chan_tick_run get chan) as [t5 [H5 [P5 _]]].
  rewrite H1, H2, H3, H5. unfold traceOf at 1 2 3 5. cbn [fst].
  rewrite !probed_app, P1, P2, P3, P5. cbn [probed]. rewrite !app_nil_r.
  repeat split. apply Locked_tick_probes.
Qed.

(** X9. What a tick logs: from the revision that gives the monitor a client
    on, every server whose probe fails the test is logged as not healthy,
    once, in the order of the configuration, and no other server is; the two
    first revisions log no server at all. *)
Theorem tick_logs_failing_servers (get : nat -> httpResult)
  (fixed : Fixed.apiServerLb) (plain : Plain.apiServerLb)
  (timed : Timed.apiServerLb) (locked : Locked.apiServerLb)
  (chan : Chan.apiServerLb) :
  loggedUnhealthy (traceOf (Fixed.healthCheckTick get fixed)) = []
  /\ loggedUnhealthy (traceOf (Plain.healthCheckTick get plain)) = []
  /\ loggedUnhealthy (traceOf (Timed.healthCheckTick get timed))
     = failing get 0 (Timed.RemoteServers timed)
  /\ loggedUnhealthy (traceOf (Locked.healthCheckTick get locked))
     = failing get 0 (Locked.RemoteServers locked)
  /\ loggedUnhealthy (traceOf (Chan.healthCheckTick get chan))
     = failing get 0 (Chan.RemoteServers chan).
Proof.
  destruct (Fixed_tick_run get fixed) as [t1 [H1 [_ L1]]].
  destruct (Plain_tick_run get plain) as [t2 [H2 [_ L2]]].
  destruct (Timed_tick_run get timed) as [t3 [H3 [_ [L3 _]]]].
  destruct (Chan_tick_run get chan) as [t5 [H5 [_ [L5 _]]]].
  rewrite H1, H2, H3, H5. unfold traceOf at 1 2 3 5. cbn [fst].
  rewrite !loggedUnhealthy_app, L1, L2, L3, L5. cbn [loggedUnhealthy].
  rewrite !app_nil_r.
  repeat split. apply Locked_tick_probes.
Qed.

(** The failing servers are those whose probe does not return status 200
    without error. *)
Lemma failing_In (get : nat -> httpResult) (servers : list string) :
  forall (i : nat) (server : string),
    In server (failing get i servers)
    <-> exists k, nth_error servers k = Some server
                  /\ get (i + k)%nat <> httpResp 200.
Proof.
  induction servers as [|s rest IH]; intros i server; simpl.
  - split; [tauto|]. intros [k [H _]]. destruct k; discriminate.
  - split.
    + intros H. destruct (healthy (get i)) eqn:Hh.
      * apply IH in H. destruct H as [k [Hk Hg]]. exists (S k).
        rewrite Nat.add_succ_r. auto.
      * destruct H as [H|H].
        -- subst. exists 0%nat. rewrite Nat.add_0_r. split; [reflexivity|].
           intros Hg. apply healthy_200 in Hg. congruence.
        -- apply IH in H. destruct H as [k [Hk Hg]]. exists (S k).
           rewrite Nat.add_succ_r. auto.
    + intros [k [Hk Hg]]. destruct k as [|k].
      * simpl in Hk. injection Hk as ->. rewrite Nat.add_0_r in Hg.
        destruct (healthy (get i)) eqn:Hh; [|now left].
        apply healthy_200 in Hh. contradiction.
      * simpl in Hk. rewrite Nat.add_succ_r in Hg.
        assert (In server (failing get (S i) rest)) by (apply IH; eauto).
        destruct (healthy (get i)); [assumption | now right].
Qed.

(** The passing servers are the configured servers with the failing
    positions struck out. *)
Lemma passing_positions (get : nat -> httpResult) (servers : list string) :
  forall i,
    passing get i servers
    = map fst (filter (fun p => healthy (get (snd p)))
                 (combine servers (seq i (List.length servers)))).
Proof.
  induction servers as [|s rest IH]; intros i; [reflexivity|].
  cbn [passing List.length seq combine filter snd].
  destruct (healthy (get i)); cbn [map fst]; now rewrite IH.
Qed.

Lemma passing_all (get : nat -> httpResult) (servers : list string) :
  forall i,
    (forall k, (k < List.length servers)%nat -> get (i + k)%nat = httpResp 200) ->
    passing get i servers = servers.
Proof.
  induction servers as [|s rest IH]; intros i H; [reflexivity|].
  cbn [passing].
  assert (H0 : get i = httpResp 200)
    by (rewrite <- (Nat.add_0_r i); apply H; simpl; lia).
  rewrite H0. cbn [healthy]. rewrite Z.eqb_refl. f_equal. apply IH.
  intros k Hk. rewrite Nat.add_succ_comm. apply H. simpl. lia.
Qed.

Lemma passing_none (get : nat -> httpResult) (servers : list string) :
  forall i,
    (forall k, (k < List.length servers)%nat -> get (i + k)%nat <> httpResp 200) ->
    passing get i servers = [].
Proof.
  induction servers as [|s rest IH]; intros i H; [reflexivity|].
  cbn [passing].
  destruct (healthy (get i)) eqn:Hh.
  - apply healthy_200 in Hh. exfalso.
    apply (H 0%nat); [simpl; lia | now rewrite Nat.add_0_r].
  - apply IH. intros k Hk. rewrite Nat.add_succ_comm. apply H. simpl. lia.
Qed.

Lemma passing_NoDup (get : nat -> httpResult) (servers : list string) :
  forall i, NoDup servers -> NoDup (passing get i servers).
Proof.
  induction servers as [|s rest IH]; intros i H; [constructor|].
  inversion H as [|? ? Hnotin Hrest]; subst. cbn [passing].
  destruct (healthy (get i)); [|now apply IH].
  constructor; [|now apply IH].
  intros Hin. apply Hnotin. eapply passing_incl; eauto.
Qed.

(** ** What a tick publishes *)

Lemma passing_publishedAs (get : nat -> httpResult) (configured : list string) :
  publishedAs get configured (passing get 0 configured).
Proof.
  unfold publishedAs. split; [apply passing_positions|].
  split; [intros server; apply (passing_In get configured 0%nat)|].
  split; [apply passing_NoDup|].
  split; intros H.
  - apply passing_all. intros k Hk. now apply H.
  - apply passing_none. intros k Hk. now apply H.
Qed.

(** X10. A tick of the revisions that publish without a lock: the first
    revision and the one that gives the monitor a client replace the healthy
    servers, whatever they were, by the configured servers whose probe
    returned status 200 without error, in the order of the configuration;
    the channel revision returns that slice for the channel and leaves the
    load balancer untouched. The configured servers are never changed. *)
Theorem unlocked_ticks_publish (get : nat -> httpResult)
  (fixed : Fixed.apiServerLb) (timed : Timed.apiServerLb) (chan : Chan.apiServerLb) :
  (outcomeOf (Fixed.healthCheckTick get fixed) = Done tt
   /\ Fixed.RemoteServers (stateOf (Fixed.healthCheckTick get fixed))
      = Fixed.RemoteServers fixed
   /\ publishedAs get (Fixed.RemoteServers fixed)
        (Fixed.HealthyServers (stateOf (Fixed.healthCheckTick get fixed))))
  /\ (outcomeOf (Timed.healthCheckTick get timed) = Done tt
      /\ Timed.RemoteServers (stateOf (Timed.healthCheckTick get timed))
         = Timed.RemoteServers timed
      /\ publishedAs get (Timed.RemoteServers timed)
           (Timed.HealthyServers (stateOf (Timed.healthCheckTick get timed)))
      /\ probesWith (Timed.httpClient timed)
           (traceOf (Timed.healthCheckTick get timed)))
  /\ (exists published,
         outcomeOf (Chan.healthCheckTick get chan) = Done published
         /\ publishedAs get (Chan.RemoteServers chan) published
         /\ stateOf (Chan.healthCheckTick get chan) = chan
         /\ probesWith (Chan.httpClient chan)
              (traceOf (Chan.healthCheckTick get chan))).
Proof.
  destruct (Fixed_tick_run get fixed) as [t1 [H1 _]].
  destruct (Timed_tick_run get timed) as [t3 [H3 [_ [_ W3]]]].
  destruct (Chan_tick_run get chan) as [t5 [H5 [_ [_ W5]]]].
  rewrite H1, H3, H5. unfold outcomeOf, stateOf, traceOf. cbn [fst snd].
  split; [|split].
  - split; [reflexivity|]. split; [reflexivity|]. apply passing_publishedAs.
  - split; [reflexivity|]. split; [reflexivity|].
    split; [apply passing_publishedAs|].
    apply probesWith_app; [exact W3|].
    intros c' url [H|[]]. discriminate.
  - exists (passing get 0 (Chan.RemoteServers chan)).
    split; [reflexivity|]. split; [apply passing_publishedAs|].
    split; [reflexivity | exact W5].
Qed.

Lemma unlocked_ticks_publish_witness :
  Timed.HealthyServers
    (stateOf (Timed.healthCheckTick allUp (Timed.newLb threeServers)))
  = KubeApiServers threeServers
  /\ Fixed.HealthyServers (stateOf (Fixed.healthCheckTick allUp Fixed.newLb))
     = Fixed.RemoteServers Fixed.newLb.
Proof.
  destruct (unlocked_ticks_publish allUp Fixed.newLb (Timed.newLb threeServers)
              (Chan.newLb threeServers))
    as [[_ [_ [_ [_ [_ [Hf _]]]]]] [[_ [_ [[_ [_ [_ [Ht _]]]] _]]] _]].
  split.
  - apply Ht. intros k _. reflexivity.
  - apply Hf. intros k _. reflexivity.
Defined.

(** ** The monitor of the lock revision over several ticks *)

Lemma Locked_set_HealthyServers_twice (a b : list string) (lb : Locked.apiServerLb) :
  Locked.set_HealthyServers a (Locked.set_HealthyServers b lb)
  = Locked.set_HealthyServers a lb.
Proof. reflexivity. Qed.

(** X11. The monitor of the lock revision, started with the lock free and
    left alone with it: after any number of ticks the healthy servers are
    those the last tick found passing, the earlier ticks leave no trace in
    them; the lock is free again and the monitor sleeps. *)
Theorem Locked_monitor_last_tick_wins (ticks : list (nat -> httpResult))
  (last : nat -> httpResult) (lb : Locked.apiServerLb) :
  lockFree lb = true ->
  stateOf (Locked.startHealthChecks (ticks ++ [last]) lb)
  = Locked.set_HealthyServers (passing last 0 (Locked.RemoteServers lb)) lb
  /\ outcomeOf (Locked.startHealthChecks (ticks ++ [last]) lb) = Parked onSleep.
Proof.
  revert lb. induction ticks as [|get rest IH]; intros lb Hfree.
  - cbn [app Locked.startHealthChecks].
    destruct (Locked_healthCheckTick_publishes last lb Hfree) as [t [Ht _]].
    unfold bind, stateOf, outcomeOf. rewrite Ht. split; reflexivity.
  - cbn [app Locked.startHealthChecks].
    destruct (Locked_healthCheckTick_publishes get lb Hfree) as [t [Ht _]].
    destruct (bind_Done (Locked.healthCheckTick get)
                (fun _ => Locked.startHealthChecks (rest ++ [last])) lb _ t tt Ht)
      as [_ [Hs Ho]].
    rewrite Hs, Ho.
    destruct (IH (Locked.set_HealthyServers
                    (passing get 0 (Locked.RemoteServers lb)) lb) Hfree)
      as [IHs IHo].
    rewrite IHs, IHo. split; reflexivity.
Qed.

Lemma Locked_monitor_last_tick_wins_witness :
  lockFree (Locked.newLb threeServers) = true
  /\ Locked.HealthyServers
       (stateOf (Locked.startHealthChecks ([allUp] ++ [firstTwoUp])
                   (Locked.newLb threeServers)))
     = ["10.0.0.101:6443"; "10.0.0.102:6443"].
Proof.
  split; [reflexivity|].
  rewrite (proj1 (Locked_monitor_last_tick_wins [allUp] firstTwoUp
                    (Locked.newLb threeServers) eq_refl)).
  reflexivity.
Defined.

(** ** The lock of the lock revision *)

(** A writer that does not find the lock free waits in [Lock], announced,
    and changes nothing else; so do [removeHealthyRemote] and the tick of
    the monitor. *)
Lemma Locked_removeHealthyRemote_waits (remote : string) (lb : Locked.apiServerLb) :
  lockFree lb = false ->
  Locked.writer (Locked.HealthyServersLock lb) = false ->
  Locked.removeHealthyRemote remote lb
  = ([],
     Locked.set_HealthyServersLock
       {| Locked.readers := Locked.readers (Locked.HealthyServersLock lb);
          Locked.writer := false; Locked.writerPending := true |} lb,
     Parked onLock).
Proof.
  intros Hbusy Hw. unfold lockFree, writerFree in Hbusy.
  destruct lb as [a b hs [r w p] c rules cl]. simpl in *. subst w.
  unfold Locked.removeHealthyRemote, Locked.Lock. unfold_run. simpl.
  destruct p; [reflexivity|]. destruct r as [|r]; [discriminate|]. reflexivity.
Qed.

(** A tick that finds the lock free takes it, publishes and releases it. *)
Lemma Locked_tick_run (get : nat -> httpResult) (lb : Locked.apiServerLb) :
  lockFree lb = true ->
  exists t,
    Locked.healthCheckTick get lb
    = (t ++ [EvLock; EvUnlock;
             EvSleep (wrap (Period (Locked.healthCheckRules lb) * Second))],
       Locked.set_HealthyServers (passing get 0 (Locked.RemoteServers lb)) lb,
       Done tt).
Proof.
  intros Hfree. apply lockFree_true in Hfree.
  destruct (rangeProbe_passing (Locked.httpClient lb) get logUnhealthy
              (logUnhealthy_quiet (Locked.httpClient lb))
              (Locked.RemoteServers lb) 0%nat [] lb) as [t [Ht _]].
  exists t. unfold Locked.healthCheckTick, Locked.Lock, Locked.Unlock.
  unfold bind, gets. rewrite Ht. rewrite Hfree. simpl.
  destruct lb as [a b c l e f g]. simpl in *. subst l. reflexivity.
Qed.

(** What [chooseRemote] does to the lock: no writer appears, no reader
    leaves for good, the announcement of a writer stays as it is. *)
Lemma Locked_chooseRemote_lock (lb : Locked.apiServerLb) :
  Locked.writer (Locked.HealthyServersLock lb) = false ->
  Locked.writer (Locked.HealthyServersLock (stateOf (Locked.chooseRemote lb))) = false
  /\ (Locked.readers (Locked.HealthyServersLock lb)
      <= Locked.readers (Locked.HealthyServersLock (stateOf (Locked.chooseRemote lb))))%nat
  /\ Locked.writerPending (Locked.HealthyServersLock (stateOf (Locked.chooseRemote lb)))
     = Locked.writerPending (Locked.HealthyServersLock lb).
Proof.
  intros Hw. destruct lb as [a b hs [r w p] c rules cl]. simpl in *. subst w.
  unfold Locked.chooseRemote, Locked.RLock, Locked.RUnlock, stateOf.
  destruct p; run_cases; repeat split; auto.
Qed.

(** With a reader on the lock, handling a connection leaves the healthy
    servers alone, and the reader stays. *)
Lemma Locked_handleConn_held (localConn : conn) (dial : string -> dialResult)
  (lb : Locked.apiServerLb) :
  Locked.writer (Locked.HealthyServersLock lb) = false ->
  Locked.readers (Locked.HealthyServersLock lb) <> 0%nat ->
  Locked.HealthyServers (stateOf (Locked.handleConn localConn dial lb))
  = Locked.HealthyServers lb
  /\ Locked.writer (Locked.HealthyServersLock
                      (stateOf (Locked.handleConn localConn dial lb))) = false
  /\ Locked.readers (Locked.HealthyServersLock
                       (stateOf (Locked.handleConn localConn dial lb))) <> 0%nat.
Proof.
  intros Hw Hr. destruct lb as [a b hs [r w p] c rules cl]. simpl in *. subst w.
  destruct r as [|r]; [contradiction|].
  unfold Locked.handleConn, Locked.chooseRemote, Locked.removeHealthyRemote,
    Locked.RLock, Locked.RUnlock, Locked.Lock, Locked.Unlock, stateOf.
  destruct p; run_cases; repeat split; auto.
Qed.

(** A step from a state in which a reader holds the lock. *)
Lemma Locked_step_held (lb lb' : Locked.apiServerLb) :
  Locked.step lb lb' ->
  Locked.writer (Locked.HealthyServersLock lb) = false ->
  Locked.readers (Locked.HealthyServersLock lb) <> 0%nat ->
  Locked.HealthyServers lb' = Locked.HealthyServers lb
  /\ Locked.writer (Locked.HealthyServersLock lb') = false
  /\ Locked.readers (Locked.HealthyServersLock lb') <> 0%nat.
Proof.
  intros Hstep Hw Hr.
  assert (Hbusy : lockFree lb = false).
  { unfold lockFree. apply andb_false_iff. right. now apply Nat.eqb_neq. }
  destruct Hstep as [get|localConn dial| |remote].
  - destruct (Locked_healthCheckTick_waits get lb Hbusy Hw) as [Hs _].
    rewrite Hs. repeat split; assumption.
  - now apply Locked_handleConn_held.
  - destruct (Locked_chooseRemote_frame lb) as [Hh _].
    destruct (Locked_chooseRemote_lock lb Hw) as [Hw' [Hr' _]].
    repeat split; [assumption|assumption|lia].
  - rewrite (Locked_removeHealthyRemote_waits remote lb Hbusy Hw).
    repeat split; assumption.
Qed.

(** X12. In the lock revision, once a reader holds the lock and no writer
    does, as after the early return of [chooseRemote], no tick of the
    monitor, no handled connection and no call of [chooseRemote] or
    [removeHealthyRemote], in any number and order, changes the healthy
    servers any more, and the reader never leaves. *)
Theorem Locked_held_lock_freezes_healthy (lb lb' : Locked.apiServerLb) :
  steps lb lb' ->
  Locked.writer (Locked.HealthyServersLock lb) = false ->
  Locked.readers (Locked.HealthyServersLock lb) <> 0%nat ->
  Locked.HealthyServers lb' = Locked.HealthyServers lb
  /\ Locked.readers (Locked.HealthyServersLock lb') <> 0%nat.
Proof.
  intros Hsteps Hw Hr.
  assert (H : Locked.HealthyServers lb' = Locked.HealthyServers lb
              /\ Locked.writer (Locked.HealthyServersLock lb') = false
              /\ Locked.readers (Locked.HealthyServersLock lb') <> 0%nat).
  { induction Hsteps as [|lb1 lb2 Hsteps IH Hstep]; [auto|].
    destruct IH as [Hh [Hw1 Hr1]].
    destruct (Locked_step_held lb1 lb2 Hstep Hw1 Hr1) as [Hh2 [Hw2 Hr2]].
    rewrite Hh2. auto. }
  destruct H as [Hh [_ Hr']]. auto.
Qed.

Lemma Locked_held_lock_freezes_healthy_witness :
  steps (stateOf (Locked.chooseRemote (Locked.newLb threeServers)))
    (stateOf (Locked.healthCheckTick allUp
       (stateOf (Locked.chooseRemote (Locked.newLb threeServers)))))
  /\ Locked.HealthyServers
       (stateOf (Locked.healthCheckTick allUp
          (stateOf (Locked.chooseRemote (Locked.newLb threeServers)))))
     = [].
Proof.
  assert (H : steps (stateOf (Locked.chooseRemote (Locked.newLb threeServers)))
                (stateOf (Locked.healthCheckTick allUp
                   (stateOf (Locked.chooseRemote (Locked.newLb threeServers)))))).
  { eapply steps_more; [apply steps_none | apply Locked.step_tick]. }
  split; [exact H|].
  refine (proj1 (Locked_held_lock_freezes_healthy _ _ H _ _)).
  - reflexivity.
  - discriminate.
Defined.

(** One step keeps the discipline of the lock. *)
Lemma Locked_step_discipline (lb lb' : Locked.apiServerLb) :
  Locked.step lb lb' -> lockDiscipline lb -> lockDiscipline lb'.
Proof.
  intros Hstep [Hw [Hc [Hr Hp]]].
  destruct (lockFree lb) eqn:Hfree.
  - (* the lock is free *)
    pose proof (lockFree_true lb Hfree) as Hl.
    destruct Hstep as [get|localConn dial| |remote].
    + destruct (Locked_tick_run get lb Hfree) as [t Ht]. rewrite Ht.
      unfold stateOf, lockDiscipline. simpl. rewrite Hl. simpl.
      repeat split; auto; try congruence; discriminate.
    + destruct (Locked.HealthyServers lb) as [|x rest] eqn:E.
      * unfold Locked.handleConn. unfold stateOf, bind.
        rewrite Locked_chooseRemote_empty;
          [|exact E|apply andb_true_iff in Hfree; apply Hfree].
        unfold lockDiscipline. simpl. repeat split; auto; discriminate.
      * unfold Locked.handleConn. unfold stateOf, bind.
        rewrite Locked_chooseRemote_picks;
          [|rewrite E; discriminate|lia|exact Hfree].
        unfold logPrintf, emit.
        destruct (dial _) as [e|remoteConn]; cbv beta iota.
        -- rewrite Locked_removeHealthyRemote_prunes by exact Hfree.
           unfold lockDiscipline. simpl. rewrite Hl. simpl.
           repeat split; auto; try congruence; discriminate.
        -- unfold lockDiscipline. simpl. rewrite Hl. simpl.
           repeat split; auto; try congruence; discriminate.
    + destruct (Locked.HealthyServers lb) as [|x rest] eqn:E.
      * rewrite Locked_chooseRemote_empty;
          [|exact E|apply andb_true_iff in Hfree; apply Hfree].
        unfold stateOf, lockDiscipline. simpl. repeat split; auto; discriminate.
      * rewrite Locked_chooseRemote_picks;
          [|rewrite E; discriminate|lia|exact Hfree].
        unfold stateOf, lockDiscipline. simpl. rewrite Hl. simpl.
        repeat split; auto; try congruence; discriminate.
    + rewrite Locked_removeHealthyRemote_prunes by exact Hfree.
      unfold stateOf, lockDiscipline. simpl. rewrite Hl. simpl.
      repeat split; auto; try congruence; discriminate.
  - (* a reader holds the lock: the healthy servers are empty *)
    assert (Hheld : Locked.readers (Locked.HealthyServersLock lb) <> 0%nat).
    { unfold lockFree, writerFree in Hfree. rewrite Hw in Hfree.
      destruct (Locked.writerPending (Locked.HealthyServersLock lb)) eqn:Ep;
        [now apply Hp|].
      simpl in Hfree. now apply Nat.eqb_neq. }
    pose proof (Hr Hheld) as Hempty.
    destruct Hstep as [get|localConn dial| |remote].
    + destruct (Locked_healthCheckTick_waits get lb Hfree Hw) as [Hs _].
      rewrite Hs. unfold lockDiscipline. simpl. repeat split; auto.
    + destruct (writerFree lb) eqn:Ewf.
      * unfold Locked.handleConn. unfold stateOf, bind.
        rewrite (Locked_chooseRemote_empty lb Hempty Ewf).
        unfold lockDiscipline. simpl. repeat split; auto; discriminate.
      * unfold Locked.handleConn. unfold stateOf, bind.
        rewrite (Locked_chooseRemote_parked lb Ewf).
        unfold lockDiscipline. simpl. repeat split; auto.
    + destruct (writerFree lb) eqn:Ewf.
      * rewrite (Locked_chooseRemote_empty lb Hempty Ewf).
        unfold stateOf, lockDiscipline. simpl. repeat split; auto; discriminate.
      * rewrite (Locked_chooseRemote_parked lb Ewf).
        unfold stateOf, lockDiscipline. simpl. repeat split; auto.
    + rewrite (Locked_removeHealthyRemote_waits remote lb Hfree Hw).
      unfold stateOf, lockDiscipline. simpl. repeat split; auto.
Qed.

(** X13. In every state the lock revision reaches from the load balancer of
    [main]: no writer holds the lock between two steps; the counter is 1; if
    a reader holds the lock, the healthy servers are empty; a writer waits
    only while a reader holds the lock. With the theorem above: a reader on
    the lock means an empty healthy set for good. *)
Theorem Locked_lock_discipline (config : Configuration) (lb : Locked.apiServerLb) :
  Locked.reachable config lb ->
  Locked.writer (Locked.HealthyServersLock lb) = false
  /\ Locked.rrCounter lb = 1
  /\ (Locked.readers (Locked.HealthyServersLock lb) <> 0%nat ->
      Locked.HealthyServers lb = [])
  /\ (Locked.writerPending (Locked.HealthyServersLock lb) = true ->
      Locked.readers (Locked.HealthyServersLock lb) <> 0%nat).
Proof.
  intros Hreach. change (lockDiscipline lb).
  induction Hreach as [|lb lb' Hreach IH Hstep].
  - unfold lockDiscipline. simpl. repeat split; auto; discriminate.
  - exact (Locked_step_discipline lb lb' Hstep IH).
Qed.

Lemma Locked_lock_discipline_witness :
  Locked.reachable threeServers
    (stateOf (Locked.healthCheckTick allUp
       (stateOf (Locked.chooseRemote (Locked.newLb threeServers)))))
  /\ Locked.writerPending (Locked.HealthyServersLock
       (stateOf (Locked.healthCheckTick allUp
          (stateOf (Locked.chooseRemote (Locked.newLb threeServers)))))) = true
  /\ Locked.HealthyServers
       (stateOf (Locked.healthCheckTick allUp
          (stateOf (Locked.chooseRemote (Locked.newLb threeServers))))) = [].
Proof.
  assert (H : Locked.reachable threeServers
    (stateOf (Locked.healthCheckTick allUp
       (stateOf (Locked.chooseRemote (Locked.newLb threeServers)))))).
  { eapply Locked.reach_step; [|apply Locked.step_tick].
    eapply Locked.reach_step; [apply Locked.reach_new | apply Locked.step_choose]. }
  split; [exact H|]. split; [reflexivity|].
  destruct (Locked_lock_discipline threeServers _ H) as [_ [_ [Hr Hp]]].
  apply Hr, Hp. reflexivity.
Defined.

(** X14. In the lock revision the healthy servers do not change without the
    write lock having been taken: a tick of the monitor, a call of
    [removeHealthyRemote] or a handled connection either leaves them as they
    were or has taken the write lock and released it; a call of
    [chooseRemote] never takes the write lock. *)
Theorem Locked_writes_under_lock (get : nat -> httpResult) (remote : string)
  (localConn : conn) (dial : string -> dialResult) (lb : Locked.apiServerLb) :
  (Locked.HealthyServers (stateOf (Locked.healthCheckTick get lb))
   = Locked.HealthyServers lb
   \/ (In EvLock (traceOf (Locked.healthCheckTick get lb))
       /\ In EvUnlock (traceOf (Locked.healthCheckTick get lb))))
  /\ (Locked.HealthyServers (stateOf (Locked.removeHealthyRemote remote lb))
      = Locked.HealthyServers lb
      \/ (In EvLock (traceOf (Locked.removeHealthyRemote remote lb))
          /\ In EvUnlock (traceOf (Locked.removeHealthyRemote remote lb))))
  /\ (Locked.HealthyServers (stateOf (Locked.handleConn localConn dial lb))
      = Locked.HealthyServers lb
      \/ (In EvLock (traceOf (Locked.handleConn localConn dial lb))
          /\ In EvUnlock (traceOf (Locked.handleConn localConn dial lb))))
  /\ existsb (fun e => match e with EvLock | EvUnlock => true | _ => false end)
       (traceOf (Locked.chooseRemote lb)) = false.
Proof.
  split; [|split; [|split]].
  - destruct (rangeProbe_passing (Locked.httpClient lb) get logUnhealthy
                (logUnhealthy_quiet (Locked.httpClient lb))
                (Locked.RemoteServers lb) 0%nat [] lb) as [t [Ht _]].
    unfold Locked.healthCheckTick, Locked.Lock, Locked.Unlock, stateOf, traceOf.
    unfold_run. rewrite Ht.
    repeat (simpl; break_test); simpl;
      first [left; reflexivity
            |right; split; apply in_or_app; right; simpl; auto].
  - unfold Locked.removeHealthyRemote, Locked.Lock, Locked.Unlock, stateOf, traceOf.
    run_cases; first [left; reflexivity | right; split; simpl; auto].
  - unfold Locked.handleConn, Locked.chooseRemote, Locked.removeHealthyRemote,
      Locked.RLock, Locked.RUnlock, Locked.Lock, Locked.Unlock, stateOf, traceOf.
    run_cases; first [left; reflexivity | right; split; simpl; auto 20].
  - unfold Locked.chooseRemote, Locked.RLock, Locked.RUnlock, traceOf.
    run_cases; reflexivity.
Qed.

(** ** [removeHealthyRemote] of the channel revision *)

Lemma filter_other_twice (hs : list string) (a b : string) :
  filter (fun s => negb (String.eqb s a)) (filter (fun s => negb (String.eqb s b)) hs)
  = filter (fun s => negb (String.eqb s b)) (filter (fun s => negb (String.eqb s a)) hs).
Proof.
  induction hs as [|x hs IH]; [reflexivity|]. simpl.
  destruct (String.eqb x b) eqn:Eb; destruct (String.eqb x a) eqn:Ea; simpl;
    rewrite ?Ea, ?Eb; simpl; now rewrite IH.
Qed.

(** X15. [removeHealthyRemote] of the channel revision returns the slice
    without any occurrence of [remote], the other servers in their order;
    removing twice is removing once, removing a server that is not there
    changes nothing, and two removals can be done in either order. *)
Theorem Chan_removeHealthyRemote_filters (hs : list string) (remote other : string) :
  Chan.removeHealthyRemote hs remote
  = filter (fun server => negb (String.eqb server remote)) hs
  /\ count_occ string_dec (Chan.removeHealthyRemote hs remote) remote = 0%nat
  /\ (other <> remote ->
      count_occ string_dec (Chan.removeHealthyRemote hs remote) other
      = count_occ string_dec hs other)
  /\ Chan.removeHealthyRemote (Chan.removeHealthyRemote hs remote) remote
     = Chan.removeHealthyRemote hs remote
  /\ (~ In remote hs -> Chan.removeHealthyRemote hs remote = hs)
  /\ Chan.removeHealthyRemote (Chan.removeHealthyRemote hs remote) other
     = Chan.removeHealthyRemote (Chan.removeHealthyRemote hs other) remote.
Proof.
  unfold Chan.removeHealthyRemote. rewrite !rangeRemove_filter. cbn [app].
  split; [reflexivity|]. split; [|split; [|split; [|split]]].
  - apply count_occ_not_In. intros H. apply filter_In in H.
    destruct H as [_ H]. rewrite String.eqb_refl in H. discriminate.
  - intros Hneq. induction hs as [|x hs IH]; [reflexivity|]. simpl.
    destruct (String.eqb x remote) eqn:E; simpl.
    + apply String.eqb_eq in E. subst x.
      destruct (string_dec remote other); [congruence | exact IH].
    + destruct (string_dec x other); now rewrite IH.
  - induction hs as [|x hs IH]; [reflexivity|]. simpl.
    destruct (String.eqb x remote) eqn:E; simpl; rewrite ?E; simpl; now rewrite IH.
  - intros Hnot. induction hs as [|x hs IH]; [reflexivity|]. simpl.
    destruct (String.eqb x remote) eqn:E.
    + apply String.eqb_eq in E. subst x. exfalso. apply Hnot. now left.
    + simpl. f_equal. apply IH. intros H. apply Hnot. now right.
  - apply filter_other_twice.
Qed.

Lemma Chan_removeHealthyRemote_filters_witness :
  "10.0.0.103:6443" <> "10.0.0.102:6443"
  /\ ~ In "10.0.0.102:6443" ["10.0.0.101:6443"; "10.0.0.103:6443"]
  /\ count_occ string_dec
       (Chan.removeHealthyRemote
          ["10.0.0.102:6443"; "10.0.0.103:6443"; "10.0.0.102:6443"]
          "10.0.0.102:6443") "10.0.0.103:6443" = 1%nat
  /\ Chan.removeHealthyRemote ["10.0.0.101:6443"; "10.0.0.103:6443"] "10.0.0.102:6443"
     = ["10.0.0.101:6443"; "10.0.0.103:6443"].
Proof.
  assert (H1 : "10.0.0.103:6443" <> "10.0.0.102:6443") by discriminate.
  assert (H2 : ~ In "10.0.0.102:6443" ["10.0.0.101:6443"; "10.0.0.103:6443"])
    by (simpl; intuition discriminate).
  split; [exact H1|]. split; [exact H2|]. split.
  - rewrite (proj1 (proj2 (proj2 (Chan_removeHealthyRemote_filters
       ["10.0.0.102:6443"; "10.0.0.103:6443"; "10.0.0.102:6443"]
       "10.0.0.102:6443" "10.0.0.103:6443"))) H1).
    reflexivity.
  - exact (proj1 (proj2 (proj2 (proj2 (proj2 (Chan_removeHealthyRemote_filters
       ["10.0.0.101:6443"; "10.0.0.103:6443"] "10.0.0.102:6443" "")))))  H2).
Defined.

(** ** How [Start] ends *)






Lemma Locked_Start_listenOk (inputs : list (acceptResult * (string -> dialResult)))
  (lb : Locked.apiServerLb) :
  Locked.Start listenOk inputs lb
  = match Locked.acceptLoop inputs lb with
    | (t, s, Done r) =>
        (EvGo goStartHealthChecks :: t ++ [EvListenerClose], s, Done r)
    | (t, s, Panicked p) => (EvGo goStartHealthChecks :: t, s, Panicked p)
    | (t, s, Exited c) => (EvGo goStartHealthChecks :: t, s, Exited c)
    | (t, s, Parked w) => (EvGo goStartHealthChecks :: t, s, Parked w)
    end.
Proof.
  unfold Locked.Start. unfold_run.
  destruct (Locked.acceptLoop inputs lb) as [[t s] [r|p|c|w]]; reflexivity.
Qed.

(** The accept loop of the lock revision returns at a failed accept only,
    with the error of the first one. *)
Lemma Locked_acceptLoop_returns
  (inputs : list (acceptResult * (string -> dialResult))) :
  forall (lb : Locked.apiServerLb) (r : option error),
    outcomeOf (Locked.acceptLoop inputs lb) = Done r ->
    exists pre err dial rest,
      r = Some err
      /\ inputs = pre ++ (acceptErr err, dial) :: rest
      /\ forallb accepted pre = true.
Proof.
  induction inputs as [|[[e|localConn] d] inputs IH]; intros lb r H.
  - discriminate.
  - injection H as <-. exists [], e, d, inputs. repeat split.
  - cbn [Locked.acceptLoop] in H. unfold bind, outcomeOf in H.
    destruct (Locked.handleConn localConn d lb) as [[t s] [[]|p|c|w]];
      try discriminate.
    specialize (IH s r). unfold outcomeOf in IH.
    destruct (Locked.acceptLoop inputs s) as [[t' s'] o']. cbn [snd] in *.
    destruct (IH H) as [pre [err [dial [rest [Hr [Hi Hp]]]]]].
    exists ((acceptOk localConn, d) :: pre), err, dial, rest.
    subst. repeat split. exact Hp.
Qed.

(** X17. [Start] of the lock revision never returns nil: if it returns, it
    returns the error of [net.Listen], or, the listener bound, the error of
    the first [Accept] that failed, every earlier [Accept] having given a
    connection, and then the listener has been closed. *)
Theorem Locked_Start_returns_first_error (listen : listenResult)
  (inputs : list (acceptResult * (string -> dialResult)))
  (lb : Locked.apiServerLb) (r : option error) :
  outcomeOf (Locked.Start listen inputs lb) = Done r ->
  exists err,
    r = Some err
    /\ (listen = listenErr err
        \/ (listen = listenOk
            /\ (exists pre dial rest,
                   inputs = pre ++ (acceptErr err, dial) :: rest
                   /\ forallb accepted pre = true)
            /\ In EvListenerClose (traceOf (Locked.Start listen inputs lb)))).
Proof.
  intros H. destruct listen as [e|].
  - injection H as <-. exists e. split; [reflexivity | now left].
  - rewrite Locked_Start_listenOk in *.
    pose proof (Locked_acceptLoop_returns inputs lb) as Hloop.
    unfold outcomeOf, traceOf in *.
    destruct (Locked.acceptLoop inputs lb) as [[t s] [r'|p|c|w]];
      try discriminate.
    cbn [fst snd] in *. injection H as <-.
    destruct (Hloop r' eq_refl) as [pre [err [dial [rest [Hr [Hi Hp]]]]]].
    exists err. split; [exact Hr|]. right. split; [reflexivity|]. split.
    + exists pre, dial, rest. split; assumption.
    + right. apply in_or_app. right. now left.
Qed.

Lemma Locked_Start_returns_first_error_witness :
  outcomeOf (Locked.Start listenOk
               [(acceptOk 1%nat, refused);
                (acceptErr (netError "accept: too many open files"), refused)]
               (Locked.newLb threeServers))
  = Done (Some (netError "accept: too many open files"))
  /\ exists err,
       Some (netError "accept: too many open files") = Some err
       /\ (listenOk = listenErr err
           \/ (listenOk = listenOk
               /\ (exists pre dial rest,
                      [(acceptOk 1%nat, refused);
                       (acceptErr (netError "accept: too many open files"), refused)]
                      = pre ++ (acceptErr err, dial) :: rest
                      /\ forallb accepted pre = true)
               /\ In EvListenerClose
                    (traceOf (Locked.Start listenOk
                       [(acceptOk 1%nat, refused);
                        (acceptErr (netError "accept: too many open files"), refused)]
                       (Locked.newLb threeServers))))).
Proof.
  split; [reflexivity|].
  exact (Locked_Start_returns_first_error listenOk
           [(acceptOk 1%nat, refused);
            (acceptErr (netError "accept: too many open files"), refused)]
           (Locked.newLb threeServers)
           (Some (netError "accept: too many open files")) eq_refl).
Defined.

(** ** The first connection of a new instance *)

Lemma Chan_Start_one_input (c : option conn) (dial : string -> dialResult)
  (lb : Chan.apiServerLb) :
  traceOf (Chan.Start listenOk [Chan.fromConnChan c dial] lb)
  = EvGo goStartHealthChecks :: EvGo goAcceptAsChan
    :: traceOf (Chan.handleConn c dial (Chan.RemoteServers lb) lb).
Proof.
  unfold Chan.Start. unfold_run. cbn [Chan.selectLoop].
  unfold bind, park, traceOf.
  destruct (Chan.handleConn c dial (Chan.RemoteServers lb) lb) as [[t s] [hs|p|k|w]];
    cbn [fst snd]; rewrite ?app_nil_r; reflexivity.
Qed.

(** X18. A connection that arrives before the first tick has published. In
    src/main.go and in the lock revision the healthy servers are still empty:
    nothing is dialled and nothing is forwarded, and in the lock revision a
    reader is left on the lock. In the channel revision [Start] begins with
    all the configured servers: when one is configured, the connection is
    dialled to the configured server at index [1 mod len], unprobed. *)
Theorem first_connection_before_first_tick (config : Configuration)
  (localConn : conn) (dial : string -> dialResult) :
  traceOf (Plain.handleConn localConn dial (Plain.newLb config))
  = [EvCall "chooseRemote";
     EvReturn "chooseRemote" (Some (errorsNew "No remote servers are Healthy"));
     EvLog "Error trying to forward: %s\n" ["No remote servers are Healthy"]]
  /\ traceOf (Locked.handleConn localConn dial (Locked.newLb config))
     = [EvCall "chooseRemote"; EvRLock;
        EvReturn "chooseRemote" (Some NoHealthyBackends);
        EvLog "Error trying to forward: %s\n" ["no remote servers are Healthy"]]
  /\ Locked.readers (Locked.HealthyServersLock
       (stateOf (Locked.handleConn localConn dial (Locked.newLb config)))) = 1%nat
  /\ (KubeApiServers config <> [] ->
      dialled (traceOf (Chan.Start listenOk
                          [Chan.fromConnChan (Some localConn) dial]
                          (Chan.newLb config)))
      = [nth (Z.to_nat (1 mod len (KubeApiServers config)))
           (KubeApiServers config) ""]).
Proof.
  split; [reflexivity|]. split; [reflexivity|]. split; [reflexivity|].
  intros Hne. rewrite Chan_Start_one_input. cbn [dialled].
  cbn [Chan.RemoteServers Chan.newLb]. unfold Chan.handleConn, bind.
  rewrite (Chan_chooseHealthyRemote_picks (KubeApiServers config)
             (Chan.newLb config) Hne) by (simpl; lia).
  unfold Chan.dialAndForward, bind, emit, logPrintf, ret, traceOf.
  destruct (dial _); reflexivity.
Qed.

Lemma first_connection_before_first_tick_witness :
  KubeApiServers threeServers <> []
  /\ dialled (traceOf (Chan.Start listenOk
                         [Chan.fromConnChan (Some 1%nat) refused]
                         (Chan.newLb threeServers)))
     = ["10.0.0.102:6443"].
Proof.
  split; [discriminate|].
  exact (proj2 (proj2 (proj2 (first_connection_before_first_tick threeServers
           1%nat refused))) ltac:(discriminate)).
Defined.

(** ** What forwarding closes, and nil connections *)

Lemma closed_app (t1 t2 : list event) :
  closed (t1 ++ t2) = closed t1 ++ closed t2.
Proof.
  induction t1 as [|e t1 IH]; [reflexivity|].
  destruct e; cbn [app closed]; try exact IH. now rewrite IH.
Qed.

Lemma closedBy_app (t1 t2 : list copyEvent) :
  closedBy (t1 ++ t2) = closedBy t1 ++ closedBy t2.
Proof.
  induction t1 as [|e t1 IH]; [reflexivity|].
  destruct e; cbn [app closedBy]; try exact IH. now rewrite IH.
Qed.

Lemma Locked_copyConn_closed {St : Type} (copyRes : option error)
  (closeRes : conn -> option error) (writer reader : conn) (st : St) :
  closed (traceOf (Locked.copyConn copyRes closeRes writer reader st))
  = [reader; writer]
  /\ stateOf (Locked.copyConn copyRes closeRes writer reader st) = st
  /\ outcomeOf (Locked.copyConn copyRes closeRes writer reader st) = Done tt.
Proof.
  unfold Locked.copyConn, Locked.CloseAndLog. unfold_run.
  destruct copyRes, (closeRes reader), (closeRes writer); repeat split.
Qed.

(** X19. [forward] of the lock revision starts the two copy directions on
    the same pair of sockets. Each direction returns, whatever [io.Copy] and
    [Close] answer, and closes exactly its reader, then its writer: the one
    closes the remote socket, then the local one, the other the local
    socket, then the remote one. So each of two distinct sockets is closed
    twice, once by each direction, and no other socket is closed. *)
Theorem Locked_forward_closes_each_socket_twice {St : Type}
  (copyRes1 copyRes2 : option error) (closeRes : conn -> option error)
  (localConn remoteConn : conn) (st : St) :
  localConn <> remoteConn ->
  let down := Locked.copyConn copyRes1 closeRes localConn remoteConn st in
  let up := Locked.copyConn copyRes2 closeRes remoteConn localConn st in
  traceOf (Locked.forward localConn remoteConn st)
  = [EvGo (goCopyConn localConn remoteConn);
     EvGo (goCopyConn remoteConn localConn)]
  /\ (closed (traceOf down) = [remoteConn; localConn]
      /\ outcomeOf down = Done tt /\ stateOf down = st)
  /\ (closed (traceOf up) = [localConn; remoteConn]
      /\ outcomeOf up = Done tt /\ stateOf up = st)
  /\ (forall c,
         count_occ Nat.eq_dec (closed (traceOf down)) c
         = (if Nat.eq_dec c localConn then 1%nat
            else if Nat.eq_dec c remoteConn then 1%nat else 0%nat)
         /\ count_occ Nat.eq_dec (closed (traceOf up)) c
            = (if Nat.eq_dec c localConn then 1%nat
               else if Nat.eq_dec c remoteConn then 1%nat else 0%nat)
         /\ count_occ Nat.eq_dec (closed (traceOf down) ++ closed (traceOf up)) c
            = (if Nat.eq_dec c localConn then 2%nat
               else if Nat.eq_dec c remoteConn then 2%nat else 0%nat)).
Proof.
  intros Hne down up.
  destruct (Locked_copyConn_closed copyRes1 closeRes localConn remoteConn st)
    as [Hd [Hds Hdo]].
  destruct (Locked_copyConn_closed copyRes2 closeRes remoteConn localConn st)
    as [Hu [Hus Huo]].
  fold down in Hd, Hds, Hdo. fold up in Hu, Hus, Huo.
  split; [reflexivity|].
  split; [repeat split; assumption|].
  split; [repeat split; assumption|].
  intros c. rewrite Hd, Hu. cbn [app count_occ].
  destruct (Nat.eq_dec c localConn) as [->|H1].
  - destruct (Nat.eq_dec remoteConn localConn) as [E|_]; [congruence|].
    destruct (Nat.eq_dec localConn localConn) as [_|E]; [|congruence].
    repeat split; reflexivity.
  - destruct (Nat.eq_dec localConn c) as [E|_]; [congruence|].
    destruct (Nat.eq_dec c remoteConn) as [->|H2].
    + destruct (Nat.eq_dec remoteConn remoteConn) as [_|E]; [|congruence].
      repeat split; reflexivity.
    + destruct (Nat.eq_dec remoteConn c) as [E|_]; [congruence|].
      repeat split; reflexivity.
Qed.

Lemma Locked_forward_closes_each_socket_twice_witness :
  let down := Locked.copyConn (St := unit) None (fun _ => None) 1%nat 2%nat tt in
  let up := Locked.copyConn (St := unit)
              (Some (netError "read: connection reset by peer"))
              (fun _ => None) 2%nat 1%nat tt in
  (1 <> 2)%nat
  /\ closed (traceOf down) = [2%nat; 1%nat]
  /\ closed (traceOf up) = [1%nat; 2%nat]
  /\ count_occ Nat.eq_dec (closed (traceOf down) ++ closed (traceOf up)) 2%nat
     = 2%nat.
Proof.
  intros down up.
  destruct (Locked_forward_closes_each_socket_twice (St := unit) None
              (Some (netError "read: connection reset by peer"))
              (fun _ => None) 1%nat 2%nat tt ltac:(discriminate))
    as [_ [[Hd _] [[Hu _] Hcount]]].
  split; [discriminate|]. split; [exact Hd|]. split; [exact Hu|].
  exact (proj2 (proj2 (Hcount 2%nat))).
Defined.

(** X20. The copy direction of the channel revision, the connections possibly
    nil: it returns exactly when [io.Copy] returned and both connections are
    non-nil, it panics otherwise; the deferred calls run either way, so the
    connections that are there are closed, the reader first. On two
    connections it closes what the direction of the lock revision closes. *)
Theorem Chan_copyConn_nil_connection (answer : copyAnswer)
  (closeRes : conn -> option error) (writer reader : option conn) :
  (snd (Chan.copyConn answer closeRes writer reader) = returned
   <-> (exists err, answer = copied err)
       /\ writer <> None /\ reader <> None)
  /\ closedBy (fst (Chan.copyConn answer closeRes writer reader))
     = present reader ++ present writer
  /\ (forall (copyRes : option error) (w r : conn) (lb : Chan.apiServerLb),
        closedBy (fst (Chan.copyConn (copied copyRes) closeRes (Some w) (Some r)))
        = closed (traceOf (Locked.copyConn copyRes closeRes w r lb))).
Proof.
  split; [|split].
  - unfold Chan.copyConn, Chan.CloseAndLog.
    destruct answer as [[err|]|], writer as [w|], reader as [r|];
      try destruct (closeRes w); try destruct (closeRes r);
      cbn [fst snd Chan.andThen];
      (split;
       [ intros H; try discriminate H;
         (split; [eexists; reflexivity | split; discriminate])
       | intros [[? He] [Hw Hr]]; try reflexivity; congruence ]).
  - unfold Chan.copyConn, Chan.CloseAndLog.
    destruct answer as [[err|]|], writer as [w|], reader as [r|];
      try destruct (closeRes w); try destruct (closeRes r); reflexivity.
  - intros copyRes w r lb.
    rewrite (proj1 (Locked_copyConn_closed copyRes closeRes w r lb)).
    unfold Chan.copyConn, Chan.CloseAndLog.
    destruct copyRes, (closeRes w), (closeRes r); reflexivity.
Qed.

(** X21. The channel revision, [Accept] failing once while a server is
    configured and answers the dial: [acceptAsChan] sends a nil connection,
    [Start] dials for it and starts [forward] on the nil connection, and both
    copy directions of that [forward] panic, whatever [io.Copy] and [Close]
    answer. *)
Theorem Chan_failed_accept_then_dial_panics (failure : error)
  (dial : string -> dialResult) (remoteConn : conn) (lb : Chan.apiServerLb) :
  Chan.RemoteServers lb <> [] -> 0 <= Chan.rrCounter lb ->
  (forall remote, dial remote = dialOk remoteConn) ->
  let received :=
    map (fun c => Chan.fromConnChan c dial)
      (stateOf (Chan.acceptAsChan [acceptErr failure] [])) in
  In (EvGo (goForward None remoteConn))
     (traceOf (Chan.Start listenOk received lb))
  /\ Forall (fun d => forall answer closeRes,
               snd (Chan.copyConn answer closeRes (fst d) (snd d))
               = nilDereference)
       (Chan.forward None (Some remoteConn)).
Proof.
  intros Hne Hc Hdial received. split.
  - subst received.
    assert (Hs : stateOf (Chan.acceptAsChan [acceptErr failure] []) = [None]).
    { rewrite (proj2 (Chan_acceptAsChan_never_returns [acceptErr failure] [])).
      reflexivity. }
    rewrite Hs. cbn [map]. rewrite Chan_Start_one_input.
    right. right.
    unfold Chan.handleConn, bind.
    rewrite (Chan_chooseHealthyRemote_picks (Chan.RemoteServers lb) lb Hne Hc).
    unfold Chan.dialAndForward, bind, emit, ret, traceOf.
    rewrite Hdial. cbn [fst snd app]. do 6 right. left. reflexivity.
  - unfold Chan.forward. repeat constructor; intros answer closeRes;
      cbn [fst snd]; unfold Chan.copyConn, Chan.CloseAndLog;
      destruct answer as [[e|]|]; cbn [fst snd Chan.andThen];
      try destruct (closeRes remoteConn); reflexivity.
Qed.

Lemma Chan_failed_accept_then_dial_panics_witness :
  Chan.RemoteServers (Chan.newLb threeServers) <> []
  /\ 0 <= Chan.rrCounter (Chan.newLb threeServers)
  /\ (forall remote : string, (fun _ => dialOk 7%nat) remote = dialOk 7%nat)
  /\ In (EvGo (goForward None 7%nat))
       (traceOf (Chan.Start listenOk
          (map (fun c => Chan.fromConnChan c (fun _ => dialOk 7%nat))
             (stateOf (Chan.acceptAsChan
                [acceptErr (netError "accept: too many open files")] [])))
          (Chan.newLb threeServers))).
Proof.
  split; [discriminate|]. split; [simpl; lia|]. split; [reflexivity|].
  exact (proj1 (Chan_failed_accept_then_dial_panics
                  (netError "accept: too many open files")
                  (fun _ => dialOk 7%nat) 7%nat (Chan.newLb threeServers)
                  ltac:(discriminate) ltac:(simpl; lia)
                  (fun _ => eq_refl))).
Defined.

(** ** The monitor beside the accept loop *)

(** The probes of a tick dial nothing. *)
Lemma rangeProbe_dials_nothing {St : Type} (c : http_Client) (get : nat -> httpResult)
  (otherwise : string -> httpResult -> M St unit) :
  (forall server r st, exists t,
      otherwise server r st = (t, st, Done tt) /\ dialled t = []) ->
  forall servers i acc st,
  exists t,
    rangeProbe c get otherwise i servers acc st
    = (t, st, Done (acc ++ passing get i servers))
    /\ dialled t = [].
Proof.
  intros Hother. induction servers as [|server rest IH]; intros i acc st.
  - exists []. simpl. rewrite app_nil_r. split; reflexivity.
  - cbn [rangeProbe passing]. unfold bind at 1. unfold emit at 1.
    destruct (healthy (get i)).
    + destruct (IH (S i) (acc ++ [server]) st) as [t [Ht Hd]].
      rewrite Ht. exists ([EvHttpGet c (healthzUrl server)] ++ t).
      rewrite <- app_assoc. split; [reflexivity | exact Hd].
    + destruct (Hother server (get i) st) as [t1 [Ht1 Hd1]].
      destruct (IH (S i) acc st) as [t [Ht Hd]].
      unfold bind. rewrite Ht1, Ht.
      exists ([EvHttpGet c (healthzUrl server)] ++ t1 ++ t).
      split; [reflexivity|].
      rewrite !dialled_app, Hd1, Hd. reflexivity.
Qed.

Lemma Plain_tick_dials_nothing (get : nat -> httpResult) (lb : Plain.apiServerLb) :
  exists t,
    Plain.healthCheckTick get lb
    = (t, Plain.set_HealthyServers (passing get 0 (Plain.RemoteServers lb)) lb,
       Done tt)
    /\ dialled t = [].
Proof.
  destruct (rangeProbe_dials_nothing DefaultClient get
              (fun _ _ => @ret Plain.apiServerLb unit tt)
              (fun _ _ st => ex_intro _ [] (conj eq_refl eq_refl))
              (Plain.RemoteServers lb) 0%nat [] lb) as [t [Ht Hd]].
  unfold Plain.healthCheckTick. unfold bind, gets. rewrite Ht.
  simpl. eexists. split; [reflexivity|].
  rewrite dialled_app, Hd. reflexivity.
Qed.

(** A connection handled while the monitor publishes inside the selection:
    the length read before the publication indexes the slice published. *)
Lemma Plain_handleConnAcross_run (get : nat -> httpResult) (localConn : conn)
  (dial : string -> dialResult) (lb : Plain.apiServerLb) :
  0 <= Plain.rrCounter lb ->
  let published := passing get 0 (Plain.RemoteServers lb) in
  let picked := Plain.rrCounter lb mod len (Plain.HealthyServers lb) in
  let r := Plain.handleConnAcross get localConn dial lb in
  stateOf r = Plain.set_HealthyServers published lb
  /\ match Plain.HealthyServers lb with
     | [] => outcomeOf r = Done tt /\ dialled (traceOf r) = []
     | _ :: _ =>
         if picked <? len published
         then outcomeOf r = Done tt
              /\ dialled (traceOf r) = [nth (Z.to_nat picked) published ""]
         else outcomeOf r = Panicked (indexOutOfRange picked (len published))
              /\ dialled (traceOf r) = []
     end.
Proof.
  intros Hc published picked r. subst r.
  destruct (Plain_tick_dials_nothing get lb) as [t [Ht Hd]].
  fold published in Ht.
  unfold Plain.handleConnAcross, Plain.chooseRemoteAcross, traced.
  cbv [bind emit gets]. rewrite Ht.
  destruct (Plain.HealthyServers lb) as [|x rest] eqn:E.
  - cbv [len List.length Z.of_nat Z.eqb ret logPrintf emit].
    unfold stateOf, outcomeOf, traceOf. cbn [fst snd].
    split; [reflexivity|]. split; [reflexivity|].
    rewrite !dialled_app, Hd. reflexivity.
  - assert (Hne : x :: rest <> []) by discriminate.
    destruct (len_pos _ Hne) as [Hz Hpos]. rewrite Hz.
    cbn [Plain.rrCounter Plain.set_HealthyServers Plain.HealthyServers].
    rewrite rem_nonzero by lia. rewrite Z.rem_mod_nonneg by lia.
    fold picked.
    assert (Hp : 0 <= picked) by (apply Z.mod_pos_bound; lia).
    change (Plain.HealthyServers (Plain.set_HealthyServers published lb))
      with published.
    destruct (picked <? len published) eqn:Hlt.
    + apply Z.ltb_lt in Hlt.
      rewrite index_in_range by lia.
      unfold ret, logPrintf, emit, stateOf, outcomeOf, traceOf.
      destruct (dial _); cbn [fst snd];
        (split; [reflexivity|]); (split; [reflexivity|]);
        rewrite !dialled_app, Hd; reflexivity.
    + apply Z.ltb_ge in Hlt.
      rewrite index_out_of_range by lia.
      unfold stateOf, outcomeOf, traceOf. cbn [fst snd].
      split; [reflexivity|]. split; [reflexivity|].
      rewrite !dialled_app, Hd. reflexivity.
Qed.

(** One turn leaves the counter and the configured servers alone; what it
    dials and what it leaves as healthy servers was healthy before or passed
    the probes of the turn. *)
Lemma Plain_runTurn_run (t : Plain.turn) (lb : Plain.apiServerLb)
  (P : string -> Prop) :
  0 <= Plain.rrCounter lb ->
  (forall s, In s (Plain.HealthyServers lb) -> P s) ->
  (forall get, In get (Plain.publications [t]) ->
     forall s, In s (passing get 0 (Plain.RemoteServers lb)) -> P s) ->
  let r := Plain.runTurn t lb in
  Plain.rrCounter (stateOf r) = Plain.rrCounter lb
  /\ Plain.RemoteServers (stateOf r) = Plain.RemoteServers lb
  /\ (forall s, In s (dialled (traceOf r)) -> P s)
  /\ (forall s, In s (Plain.HealthyServers (stateOf r)) -> P s).
Proof.
  intros Hc Hh Hp. destruct t as [get|localConn dial|get localConn dial];
    cbn [Plain.runTurn Plain.publications] in *.
  - destruct (Plain_tick_dials_nothing get lb) as [t [Ht Hd]].
    rewrite Ht. unfold stateOf, traceOf. cbn [fst snd]. rewrite Hd.
    repeat split; try reflexivity; [intros s [] | ].
    intros s Hs. apply (Hp get); [now left | exact Hs].
  - destruct (Plain_handleConn_run localConn dial lb Hc) as [Hs [_ Hd]].
    rewrite Hs, Hd. repeat split; try reflexivity; [|exact Hh].
    intros s Hin. apply Hh.
    destruct (Plain.HealthyServers lb) as [|x rest] eqn:E; [contradiction|].
    destruct Hin as [<-|[]]. apply nth_mod_In. discriminate.
  - destruct (Plain_handleConnAcross_run get localConn dial lb Hc) as [Hs Hd].
    rewrite Hs. cbn [Plain.rrCounter Plain.RemoteServers Plain.HealthyServers
                     Plain.set_HealthyServers].
    repeat split; try reflexivity.
    + intros s Hin. apply (Hp get); [now left|].
      destruct (Plain.HealthyServers lb) as [|x rest].
      * destruct Hd as [_ Hd]. rewrite Hd in Hin. contradiction.
      * destruct (_ <? _) eqn:Hlt; destruct Hd as [_ Hd]; rewrite Hd in Hin;
          [|contradiction].
        destruct Hin as [<-|[]]. apply Z.ltb_lt in Hlt.
        apply nth_In.
        pose proof (Z.mod_pos_bound (Plain.rrCounter lb) (len (x :: rest))) as Hb.
        unfold len in *. cbn [List.length] in *. lia.
    + intros s Hin. apply (Hp get); [now left | exact Hin].
Qed.

Lemma Plain_publications_app (s1 s2 : list Plain.turn) :
  Plain.publications (s1 ++ s2)
  = Plain.publications s1 ++ Plain.publications s2.
Proof.
  induction s1 as [|[get|c d|get c d] s1 IH]; cbn [app Plain.publications];
    now rewrite ?IH.
Qed.

(** The same of a whole schedule. *)
Lemma Plain_serve_inv (schedule : list Plain.turn) (P : string -> Prop) :
  forall lb : Plain.apiServerLb,
    0 <= Plain.rrCounter lb ->
    (forall s, In s (Plain.HealthyServers lb) -> P s) ->
    (forall get, In get (Plain.publications schedule) ->
       forall s, In s (passing get 0 (Plain.RemoteServers lb)) -> P s) ->
    let r := Plain.serve schedule lb in
    Plain.rrCounter (stateOf r) = Plain.rrCounter lb
    /\ Plain.RemoteServers (stateOf r) = Plain.RemoteServers lb
    /\ (forall s, In s (dialled (traceOf r)) -> P s)
    /\ (forall s, In s (Plain.HealthyServers (stateOf r)) -> P s).
Proof.
  induction schedule as [|t rest IH]; intros lb Hc Hh Hp.
  - repeat split; try reflexivity; [intros s [] | exact Hh].
  - change (t :: rest) with ([t] ++ rest) in Hp.
    rewrite Plain_publications_app in Hp.
    destruct (Plain_runTurn_run t lb P Hc Hh
                (fun get Hin => Hp get (in_or_app _ _ _ (or_introl Hin))))
      as [H1 [H2 [H3 H4]]].
    cbn [Plain.serve]. unfold bind.
    destruct (Plain.runTurn t lb) as [[t1 s1] o1].
    unfold stateOf, traceOf in H1, H2, H3, H4. cbn [fst snd] in H1, H2, H3, H4.
    destruct o1 as [[]|p|c|w];
      try (unfold stateOf, traceOf; cbn [fst snd]; repeat split; assumption).
    assert (Hc1 : 0 <= Plain.rrCounter s1) by (rewrite H1; exact Hc).
    assert (Hp1 : forall get, In get (Plain.publications rest) ->
                  forall s, In s (passing get 0 (Plain.RemoteServers s1)) -> P s).
    { intros get Hin. rewrite H2. apply Hp. apply in_or_app. now right. }
    destruct (IH s1 Hc1 H4 Hp1) as [I1 [I2 [I3 I4]]].
    destruct (Plain.serve rest s1) as [[t2 s2] o2].
    unfold stateOf, traceOf in *. cbn [fst snd] in *.
    split; [congruence|]. split; [congruence|]. split; [|exact I4].
    intros s Hin. rewrite dialled_app in Hin.
    apply in_app_or in Hin. destruct Hin; auto.
Qed.

Lemma Plain_serve_app (s1 s2 : list Plain.turn) (lb : Plain.apiServerLb) :
  outcomeOf (Plain.serve s1 lb) = Done tt ->
  Plain.serve (s1 ++ s2) lb
  = (traceOf (Plain.serve s1 lb)
       ++ traceOf (Plain.serve s2 (stateOf (Plain.serve s1 lb))),
     stateOf (Plain.serve s2 (stateOf (Plain.serve s1 lb))),
     outcomeOf (Plain.serve s2 (stateOf (Plain.serve s1 lb)))).
Proof.
  revert lb. induction s1 as [|t s1 IH]; intros lb H.
  - cbn [app Plain.serve]. unfold ret, traceOf, stateOf, outcomeOf.
    cbn [fst snd app]. now destruct (Plain.serve s2 lb) as [[t2 st2] o2].
  - cbn [app Plain.serve] in *. unfold bind in *.
    destruct (Plain.runTurn t lb) as [[t1 st1] [[]|p|c|w]];
      try (unfold outcomeOf in H; cbn [snd] in H; discriminate).
    specialize (IH st1).
    destruct (Plain.serve s1 st1) as [[t2 st2] o2].
    unfold outcomeOf, traceOf, stateOf in *. cbn [fst snd] in *.
    rewrite (IH H). now rewrite app_assoc.
Qed.

(** Connections handled one after the other, no publication in between: all
    of them are dialled to the same server. *)
Lemma Plain_serve_accepts (conns : list (conn * (string -> dialResult)))
  (lb : Plain.apiServerLb) :
  0 <= Plain.rrCounter lb ->
  let r := Plain.serve
             (map (fun c => Plain.acceptTurn (fst c) (snd c)) conns) lb in
  stateOf r = lb /\ outcomeOf r = Done tt
  /\ dialled (traceOf r)
     = match Plain.HealthyServers lb with
       | [] => []
       | _ :: _ =>
           repeat (nth (Z.to_nat (Plain.rrCounter lb mod len (Plain.HealthyServers lb)))
                     (Plain.HealthyServers lb) "")
             (List.length conns)
       end.
Proof.
  intros Hc. induction conns as [|[c d] conns IH].
  - cbn. destruct (Plain.HealthyServers lb); repeat split; reflexivity.
  - cbn [map Plain.serve Plain.runTurn fst snd List.length repeat].
    destruct (Plain_handleConn_run c d lb Hc) as [Hs [Ho Hd]].
    cbv zeta in IH. destruct IH as [I1 [I2 I3]].
    unfold bind. destruct (Plain.handleConn c d lb) as [[t1 s1] o1].
    unfold stateOf, outcomeOf, traceOf in Hs, Ho, Hd. cbn [fst snd] in Hs, Ho, Hd.
    subst s1 o1.
    destruct (Plain.serve _ lb) as [[t2 s2] o2].
    unfold stateOf, outcomeOf, traceOf in *. cbn [fst snd] in *.
    split; [exact I1|]. split; [exact I2|].
    rewrite dialled_app, Hd, I3.
    destruct (Plain.HealthyServers lb); reflexivity.
Qed.

(** X2. src/main.go, the monitor beside the accept loop, the counter not
    negative, for every schedule of their turns. No turn changes the counter
    or the configured servers. Every address dialled was a healthy server at
    the start or passed the probes of a publication of the schedule. After a
    publication, the connections handled up to the next one are all dialled
    to one and the same server, the one at index [rrCounter mod len] of the
    servers published, and to none when nothing was published. And a
    publication that falls between the two reads of the selection, the slice
    published being too short for the index taken from the length read
    before, makes the read panic: the process ends. *)
Theorem Plain_serve_one_server_per_publication
  (schedule pre : list Plain.turn) (get : nat -> httpResult)
  (conns : list (conn * (string -> dialResult))) (lb : Plain.apiServerLb) :
  0 <= Plain.rrCounter lb ->
  let published := passing get 0 (Plain.RemoteServers lb) in
  (Plain.rrCounter (stateOf (Plain.serve schedule lb)) = Plain.rrCounter lb
   /\ Plain.RemoteServers (stateOf (Plain.serve schedule lb))
      = Plain.RemoteServers lb)
  /\ (forall remote,
         In remote (dialled (traceOf (Plain.serve schedule lb))) ->
         In remote (Plain.HealthyServers lb)
         \/ exists get',
              In get' (Plain.publications schedule)
              /\ In remote (passing get' 0 (Plain.RemoteServers lb)))
  /\ (outcomeOf (Plain.serve pre lb) = Done tt ->
      dialled (traceOf (Plain.serve
                 (pre ++ Plain.monitorTurn get
                      :: map (fun c => Plain.acceptTurn (fst c) (snd c)) conns)
                 lb))
      = dialled (traceOf (Plain.serve pre lb))
        ++ match published with
           | [] => []
           | _ :: _ =>
               repeat (nth (Z.to_nat (Plain.rrCounter lb mod len published))
                         published "")
                 (List.length conns)
           end)
  /\ (forall localConn dial,
         Plain.HealthyServers lb <> [] ->
         len published <= Plain.rrCounter lb mod len (Plain.HealthyServers lb) ->
         outcomeOf (Plain.serve
                      (Plain.acceptTurnAcross get localConn dial :: schedule) lb)
         = Panicked (indexOutOfRange
                       (Plain.rrCounter lb mod len (Plain.HealthyServers lb))
                       (len published))).
Proof.
  intros Hc published.
  pose (P := fun remote : string =>
               In remote (Plain.HealthyServers lb)
               \/ exists get',
                    In get' (Plain.publications schedule)
                    /\ In remote (passing get' 0 (Plain.RemoteServers lb))).
  destruct (Plain_serve_inv schedule P lb Hc) as [H1 [H2 [H3 _]]].
  { intros s Hs. now left. }
  { intros get' Hin s Hs. right. now exists get'. }
  split; [split; assumption|]. split; [exact H3|]. split.
  - intros Hpre.
    destruct (Plain_serve_inv pre (fun _ => True) lb Hc) as [P1 [P2 _]];
      [auto | auto |].
    rewrite (Plain_serve_app pre _ lb Hpre).
    unfold traceOf at 1. cbn [fst]. rewrite dialled_app. f_equal.
    set (lb' := stateOf (Plain.serve pre lb)) in *.
    cbn [Plain.serve Plain.runTurn]. unfold bind.
    destruct (Plain_tick_dials_nothing get lb') as [t [Ht Hd]].
    rewrite Ht, P2. fold published.
    assert (Hc' : 0 <= Plain.rrCounter (Plain.set_HealthyServers published lb'))
      by (cbn [Plain.rrCounter Plain.set_HealthyServers]; rewrite P1; exact Hc).
    destruct (Plain_serve_accepts conns _ Hc') as [_ [_ Hacc]].
    cbv zeta in Hacc.
    destruct (Plain.serve _ (Plain.set_HealthyServers published lb'))
      as [[t2 s2] o2].
    unfold traceOf in *. cbn [fst snd] in *.
    rewrite dialled_app, Hd, Hacc.
    cbn [Plain.rrCounter Plain.HealthyServers Plain.set_HealthyServers app].
    rewrite P1. reflexivity.
  - intros localConn dial Hne Hshort.
    destruct (Plain_handleConnAcross_run get localConn dial lb Hc) as [_ Hrun].
    fold published in Hrun.
    destruct (Plain.HealthyServers lb) as [|x rest] eqn:E; [congruence|].
    apply Z.ltb_ge in Hshort. rewrite Hshort in Hrun.
    destruct Hrun as [Ho _].
    cbn [Plain.serve Plain.runTurn]. unfold bind.
    destruct (Plain.handleConnAcross get localConn dial lb) as [[t1 s1] o1].
    unfold outcomeOf in *. cbn [snd] in *. subst o1. reflexivity.
Qed.

Lemma Plain_serve_one_server_per_publication_witness :
  let lb := stateOf (Plain.healthCheckTick allUp (Plain.newLb threeServers)) in
  0 <= Plain.rrCounter lb
  /\ outcomeOf (Plain.serve [Plain.acceptTurn 1%nat refused] lb) = Done tt
  /\ dialled (traceOf (Plain.serve
                [Plain.acceptTurn 1%nat refused;
                 Plain.monitorTurn onlyFirstUp;
                 Plain.acceptTurn 2%nat refused;
                 Plain.acceptTurn 3%nat refused] lb))
     = ["10.0.0.102:6443"; "10.0.0.101:6443"; "10.0.0.101:6443"]
  /\ Plain.HealthyServers lb <> []
  /\ len (passing onlyFirstUp 0 (Plain.RemoteServers lb))
     <= Plain.rrCounter lb mod len (Plain.HealthyServers lb)
  /\ outcomeOf (Plain.serve [Plain.acceptTurnAcross onlyFirstUp 4%nat refused] lb)
     = Panicked (indexOutOfRange 1 1).
Proof.
  intros lb.
  assert (Hc : 0 <= Plain.rrCounter lb) by (vm_compute; discriminate).
  assert (Hpre : outcomeOf (Plain.serve [Plain.acceptTurn 1%nat refused] lb)
                 = Done tt) by reflexivity.
  assert (Hne : Plain.HealthyServers lb <> []) by discriminate.
  assert (Hshort : len (passing onlyFirstUp 0 (Plain.RemoteServers lb))
                   <= Plain.rrCounter lb mod len (Plain.HealthyServers lb))
    by (vm_compute; discriminate).
  destruct (Plain_serve_one_server_per_publication []
              [Plain.acceptTurn 1%nat refused] onlyFirstUp
              [(2%nat, refused); (3%nat, refused)] lb Hc)
    as [_ [_ [Hsame Hrace]]].
  split; [exact Hc|]. split; [exact Hpre|].
  split; [exact (Hsame Hpre)|]. split; [exact Hne|]. split; [exact Hshort|].
  exact (Hrace 4%nat refused Hne Hshort).
Defined.

Lemma Locked_tick_dials_nothing (get : nat -> httpResult) (lb : Locked.apiServerLb) :
  dialled (traceOf (Locked.healthCheckTick get lb)) = [].
Proof.
  destruct (rangeProbe_dials_nothing (Locked.httpClient lb) get logUnhealthy
              (fun server r st =>
                 ex_intro _ _ (conj (eq_refl (logUnhealthy server r st)) eq_refl))
              (Locked.RemoteServers lb) 0%nat [] lb)
    as [t [Ht Hd]].
  unfold Locked.healthCheckTick, Locked.Lock, Locked.Unlock, traceOf.
  unfold_run. rewrite Ht.
  repeat (simpl; break_test); simpl;
    rewrite ?dialled_app, ?app_nil_r, Hd; reflexivity.
Qed.

(** The first half of a handled connection dials a healthy server and
    changes neither the healthy nor the configured servers. *)
Lemma Locked_selectAndDial_run (localConn : conn) (dial : string -> dialResult)
  (lb : Locked.apiServerLb) :
  let r := Locked.selectAndDial localConn dial lb in
  Locked.RemoteServers (stateOf r) = Locked.RemoteServers lb
  /\ Locked.HealthyServers (stateOf r) = Locked.HealthyServers lb
  /\ forall remote, In remote (dialled (traceOf r)) ->
                    In remote (Locked.HealthyServers lb).
Proof.
  unfold Locked.selectAndDial, Locked.chooseRemote,
    Locked.RLock, Locked.RUnlock, traceOf, stateOf.
  run_cases; repeat split; try reflexivity; intros remote H; try contradiction;
    destruct H as [<-|[]]; eapply nth_error_In; eauto.
Qed.

(** One turn leaves the configured servers alone; what it dials and what it
    leaves as healthy servers was healthy before or passed the probes of the
    turn. *)
Lemma Locked_runTurn_run (t : Locked.turn) (lb : Locked.apiServerLb)
  (P : string -> Prop) :
  (forall s, In s (Locked.HealthyServers lb) -> P s) ->
  (forall get, In get (Locked.publications [t]) ->
     forall s, In s (passing get 0 (Locked.RemoteServers lb)) -> P s) ->
  let r := Locked.runTurn t lb in
  Locked.RemoteServers (stateOf r) = Locked.RemoteServers lb
  /\ (forall s, In s (dialled (traceOf r)) -> P s)
  /\ (forall s, In s (Locked.HealthyServers (stateOf r)) -> P s).
Proof.
  intros Hh Hp. destruct t as [get|localConn dial|localConn dial|remote];
    cbn [Locked.runTurn Locked.publications] in *.
  - destruct (Locked_healthCheckTick_frame get lb) as [Hr Hs].
    rewrite Locked_tick_dials_nothing.
    split; [exact Hr|]. split; [intros s []|].
    intros s Hin. destruct Hs as [Hs|Hs]; rewrite Hs in Hin.
    + now apply Hh.
    + apply (Hp get); [now left | exact Hin].
  - destruct (Locked_handleConn_frame localConn dial lb) as [Hr Hs].
    split; [exact Hr|]. split.
    + intros s Hin. apply Hh.
      now apply (Locked_handleConn_dials_healthy localConn dial lb).
    + intros s Hin. apply Hh. now apply Hs.
  - destruct (Locked_selectAndDial_run localConn dial lb) as [Hr [Hs Hd]].
    split; [exact Hr|]. split.
    + intros s Hin. apply Hh. now apply Hd.
    + intros s Hin. apply Hh. now rewrite <- Hs.
  - destruct (Locked_removeHealthyRemote_frame remote lb) as [Hr Hs].
    split; [exact Hr|]. split.
    + intros s Hin. exfalso. revert Hin.
      unfold Locked.removeHealthyRemote, Locked.Lock, Locked.Unlock, traceOf.
      run_cases; intros H; exact H.
    + intros s Hin. apply Hh. now apply Hs.
Qed.

Lemma Locked_publications_app (s1 s2 : list Locked.turn) :
  Locked.publications (s1 ++ s2)
  = Locked.publications s1 ++ Locked.publications s2.
Proof.
  induction s1 as [|[get|c d|c d|remote] s1 IH];
    cbn [app Locked.publications]; now rewrite ?IH.
Qed.

(** The same of a whole schedule. *)
Lemma Locked_serve_inv (schedule : list Locked.turn) (P : string -> Prop) :
  forall lb : Locked.apiServerLb,
    (forall s, In s (Locked.HealthyServers lb) -> P s) ->
    (forall get, In get (Locked.publications schedule) ->
       forall s, In s (passing get 0 (Locked.RemoteServers lb)) -> P s) ->
    Locked.RemoteServers (snd (Locked.serve schedule lb)) = Locked.RemoteServers lb
    /\ (forall s, In s (dialled (fst (Locked.serve schedule lb))) -> P s)
    /\ (forall s, In s (Locked.HealthyServers (snd (Locked.serve schedule lb))) ->
                  P s).
Proof.
  induction schedule as [|t rest IH]; intros lb Hh Hp.
  - repeat split; try reflexivity; [intros s [] | exact Hh].
  - change (t :: rest) with ([t] ++ rest) in Hp.
    rewrite Locked_publications_app in Hp.
    destruct (Locked_runTurn_run t lb P Hh
                (fun get Hin => Hp get (in_or_app _ _ _ (or_introl Hin))))
      as [H1 [H2 H3]].
    cbn [Locked.serve fst snd].
    destruct (IH (stateOf (Locked.runTurn t lb)) H3) as [I1 [I2 I3]].
    { intros get Hin. rewrite H1. apply Hp. apply in_or_app. now right. }
    split; [congruence|]. split; [|exact I3].
    intros s Hin. rewrite dialled_app in Hin.
    apply in_app_or in Hin. destruct Hin; auto.
Qed.

(** X5. The lock revision, the monitor beside the accept loop, for every
    schedule of their turns and from every load balancer: the configured
    servers never change; every address dialled, and every server that is
    healthy at the end, was a healthy server at the start or passed the
    probes of a turn of the monitor in the schedule. So when the healthy
    servers are configured servers at the start, as they are in [main], the
    accept loop dials configured servers only. *)
Theorem Locked_serve_dials_probed_servers (schedule : list Locked.turn)
  (lb : Locked.apiServerLb) :
  Locked.RemoteServers (snd (Locked.serve schedule lb)) = Locked.RemoteServers lb
  /\ (forall remote,
         In remote (dialled (fst (Locked.serve schedule lb))
                    ++ Locked.HealthyServers (snd (Locked.serve schedule lb))) ->
         In remote (Locked.HealthyServers lb)
         \/ exists get,
              In get (Locked.publications schedule)
              /\ In remote (passing get 0 (Locked.RemoteServers lb)))
  /\ (incl (Locked.HealthyServers lb) (Locked.RemoteServers lb) ->
      incl (dialled (fst (Locked.serve schedule lb))) (Locked.RemoteServers lb)).
Proof.
  pose (P := fun remote : string =>
               In remote (Locked.HealthyServers lb)
               \/ exists get,
                    In get (Locked.publications schedule)
                    /\ In remote (passing get 0 (Locked.RemoteServers lb))).
  destruct (Locked_serve_inv schedule P lb) as [H1 [H2 H3]].
  { intros s Hs. now left. }
  { intros get Hin s Hs. right. now exists get. }
  split; [exact H1|]. split.
  - intros remote Hin. apply in_app_or in Hin.
    destruct Hin as [Hin|Hin]; [exact (H2 _ Hin) | exact (H3 _ Hin)].
  - intros Hincl remote Hin. destruct (H2 remote Hin) as [Hh|[get [_ Hp]]].
    + now apply Hincl.
    + exact (passing_incl get _ 0%nat remote Hp).
Qed.

Lemma Locked_serve_dials_probed_servers_witness :
  let schedule := [Locked.monitorTurn onlyFirstUp;
                   Locked.dialTurn 1%nat refused;
                   Locked.monitorTurn firstTwoUp;
                   Locked.removeTurn "10.0.0.101:6443";
                   Locked.acceptTurn 2%nat refused] in
  dialled (fst (Locked.serve schedule (Locked.newLb threeServers)))
  = ["10.0.0.101:6443"; "10.0.0.102:6443"]
  /\ Locked.HealthyServers (snd (Locked.serve schedule (Locked.newLb threeServers)))
     = []
  /\ incl (Locked.HealthyServers (Locked.newLb threeServers))
          (Locked.RemoteServers (Locked.newLb threeServers))
  /\ incl (dialled (fst (Locked.serve schedule (Locked.newLb threeServers))))
          (Locked.RemoteServers (Locked.newLb threeServers)).
Proof.
  intros schedule.
  assert (Hincl : incl (Locked.HealthyServers (Locked.newLb threeServers))
                       (Locked.RemoteServers (Locked.newLb threeServers)))
    by (intros s []).
  split; [reflexivity|]. split; [reflexivity|]. split; [exact Hincl|].
  exact (proj2 (proj2 (Locked_serve_dials_probed_servers schedule
                         (Locked.newLb threeServers))) Hincl).
Defined.
